(** * ComfyUI_blender_render: the texture binder, the material walk and the
      compute-device selection of [blender_render_script.py], with the
      command line that [blender_node.py] hands it and the rest of the script

    The script runs inside Blender against [bpy].  The parts of the [bpy]
    object model the script touches are written out as plain records: a
    material's node tree is a list of nodes plus a list of links, and every
    reference the script holds (a node, a material, an image data-block) is
    the position of the object in its collection.  Collections only grow
    in this script, so positions are stable identities. *)

From Stdlib Require DecimalString.
From stdpp Require Import base numbers list strings.

Open Scope string_scope.
Open Scope list_scope.

(** ** Python values *)

(** A Python [dict] literal whose iteration order matters: the pairs in
    insertion order. *)
Fixpoint dict_get {V} (key : string) (d : list (string * V)) : option V :=
  match d with
  | [] => None
  | (k, v) :: rest => if String.eqb k key then Some v else dict_get key rest
  end.

(** What a call of [replace_texture_in_nodes] hands back to its caller:
    [return True], [return False], the bare [return] (Python's [None]), or an
    exception that leaves the function. *)
Inductive outcome : Set :=
  | RetTrue
  | RetFalse
  | RetNone
  | Raised.

(** Python truthiness of a returned value, as [if result:] reads it. *)
Definition truthy (r : outcome) : bool :=
  match r with RetTrue => true | _ => false end.

(** ** The [bpy] data the script works on *)

Record Node := mkNode {
  node_type : string;            (* node.type: 'BSDF_PRINCIPLED', 'TEX_IMAGE', ... *)
  node_name : string;            (* node.name *)
  node_inputs : list string;     (* names of node.inputs, in socket order *)
  node_location : Z * Z;         (* node.location *)
  node_image : option nat        (* node.image: position in bpy.data.images *)
}.

(** A link joins an output socket to an input socket; a socket is named by
    its node's position and its own name. *)
Record Link := mkLink {
  from_node : nat;
  from_socket : string;
  to_node : nat;
  to_socket : string
}.

Record NodeTree := mkTree {
  nodes : list Node;
  links : list Link
}.

Record Material := mkMaterial {
  mat_name : string;
  use_nodes : bool;
  node_tree : NodeTree
}.

Record Image := mkImage {
  filepath : string;
  colorspace : string            (* colorspace_settings.name *)
}.

Record Object := mkObject {
  obj_name : string;
  obj_type : string;
  material_slots : list (option nat)   (* slot.material: position in bpy.data.materials *)
}.

(** [bpy.data]: the three collections the script reads and mutates. *)
Record BlendData := mkData {
  objects : list Object;
  materials : list Material;
  images : list Image
}.

(** *** Node-tree primitives *)

(** [name in node.inputs] *)
Definition has_input (name : string) (n : Node) : bool :=
  existsb (String.eqb name) (node_inputs n).

(** [nodes.new(type='ShaderNodeTexImage')]: appended to the collection. *)
Definition new_tex_image : Node :=
  mkNode "TEX_IMAGE" "Image Texture" ["Vector"] (0, 0)%Z None.

(** [nodes.new(type='ShaderNodeNormalMap')] *)
Definition new_normal_map : Node :=
  mkNode "NORMAL_MAP" "Normal Map" ["Strength"; "Color"] (0, 0)%Z None.

Definition set_location (loc : Z * Z) (n : Node) : Node :=
  mkNode (node_type n) (node_name n) (node_inputs n) loc (node_image n).

(** [node.name = name].  Blender appends a numeric suffix when the name is
    taken in the tree; a prefix test on the name reads the same either way. *)
Definition set_name (name : string) (n : Node) : Node :=
  mkNode (node_type n) name (node_inputs n) (node_location n) (node_image n).

Definition set_image (img : nat) (n : Node) : Node :=
  mkNode (node_type n) (node_name n) (node_inputs n) (node_location n) (Some img).

(** Whether a link ends in the input socket [sock] of node [n]. *)
Definition into_socket (n : nat) (sock : string) (l : Link) : bool :=
  Nat.eqb (to_node l) n && String.eqb (to_socket l) sock.

(** [links.new(out_socket, in_socket)]: an input socket holds one link, so
    whatever was plugged into it is unplugged first. *)
Definition links_new (fn : nat) (fs : string) (tn : nat) (ts : string)
    (ls : list Link) : list Link :=
  List.filter (fun l => negb (into_socket tn ts l)) ls ++ [mkLink fn fs tn ts].

(** [node.type == ty], for a node given by position. *)
Definition node_has_type (ns : list Node) (ty : string) (i : nat) : bool :=
  match ns !! i with
  | Some n => String.eqb (node_type n) ty
  | None => false
  end.

(** ** [replace_texture_in_nodes] *)

(** Lines 53-56: the first node of type 'BSDF_PRINCIPLED'. *)
Definition find_principled (ns : list Node) : option (nat * Node) :=
  list_find (fun n => node_type n = "BSDF_PRINCIPLED") ns.

(** Lines 72-77. *)
Definition input_mapping : list (string * string) :=
  [ ("diffuse", "Base Color");
    ("normal", "Normal");
    ("roughness", "Roughness");
    ("specular", "Specular IOR Level") ].

(** Lines 91-96. *)
Definition fallback_mapping : list (string * list string) :=
  [ ("specular", ["Metallic"; "Specular"; "Specular IOR Level"]);
    ("diffuse", ["Base Color"; "Albedo"]);
    ("roughness", ["Roughness"]);
    ("normal", ["Normal"]) ].

(** Lines 99-106: the [for ... else] over the fallback names; [None] is the
    [else] branch, taken when the loop ends without [break]. *)
Fixpoint first_fallback (principled : Node) (candidates : list string)
    : option string :=
  match candidates with
  | [] => None
  | fallback :: rest =>
      if has_input fallback principled then Some fallback
      else first_fallback principled rest
  end.

(** Lines 79-106: the input name the texture is wired to, or [None] where the
    function leaves through a bare [return]. *)
Definition resolve_input (tex_key : string) (principled : Node) : option string :=
  match dict_get tex_key input_mapping with
  | None => None
  | Some target_input =>
      if has_input target_input principled then Some target_input
      else first_fallback principled
             (default [] (dict_get tex_key fallback_mapping))
  end.

(** [input_socket.links]: the links plugged into input [sock] of node [n]. *)
Definition socket_links (t : NodeTree) (n : nat) (sock : string) : list Link :=
  List.filter (into_socket n sock) (links t).

(** Lines 109-115: the first link into the target socket that comes from a
    'TEX_IMAGE' node gives the texture node to reuse. *)
Definition find_connected_texture (t : NodeTree) (p : nat) (principled : Node)
    (target_input : string) : option nat :=
  if has_input target_input principled then
    from_node <$>
      List.find (fun l => node_has_type (nodes t) "TEX_IMAGE" (from_node l))
                (socket_links t p target_input)
  else None.

(** Lines 118-121: reuse the node found, or append a fresh one. *)
Definition ensure_texture_node (t : NodeTree) (tex_key : string)
    (found : option nat) : NodeTree * nat :=
  match found with
  | Some i => (t, i)
  | None =>
      let ns := nodes t ++ [new_tex_image] in
      let i := length (nodes t) in
      let y := (0 - Z.of_nat (length ns) * 50)%Z in
      let ns := alter (set_location (-400, y)%Z) i ns in
      let ns := alter (set_name (tex_key +:+ "_texture")) i ns in
      (mkTree ns (links t), i)
  end.

(** Lines 129-132: an existing decoder node, recognised by type and name. *)
Definition find_normal_map (ns : list Node) (tex_key : string)
    : option (nat * Node) :=
  list_find (fun n => node_type n = "NORMAL_MAP"
                      ∧ String.prefix (tex_key +:+ "_") (node_name n) = true) ns.

(** Lines 134-137. *)
Definition ensure_normal_map (t : NodeTree) (tex_key : string) (tex : nat)
    : NodeTree * nat :=
  match find_normal_map (nodes t) tex_key with
  | Some (i, _) => (t, i)
  | None =>
      let i := length (nodes t) in
      let y := default 0%Z (snd <$> (node_location <$> nodes t !! tex)) in
      let ns := nodes t ++ [new_normal_map] in
      let ns := alter (set_location (-200, y)%Z) i ns in
      let ns := alter (set_name (tex_key +:+ "_normal_map")) i ns in
      (mkTree ns (links t), i)
  end.

(** Lines 125-146: wire the texture node to the shader input, through a
    decoder node for the normal role. *)
Definition connect (t : NodeTree) (tex_key : string) (p tex : nat)
    (target_input : string) : NodeTree :=
  if String.eqb tex_key "normal" then
    let '(t1, nm) := ensure_normal_map t tex_key tex in
    let ls := links_new tex "Color" nm "Color" (links t1) in
    let ls := links_new nm "Normal" p "Normal" ls in
    mkTree (nodes t1) ls
  else
    mkTree (nodes t) (links_new tex "Color" p target_input (links t)).

(** Line 172. *)
Definition colorspace_for (tex_key : string) : string :=
  if existsb (String.eqb tex_key) ["normal"; "roughness"; "specular"]
  then "Non-Color" else "sRGB".

(** Lines 156-159: the first loaded image with this very file path. *)
Definition find_image (imgs : list Image) (texture_file_path : string)
    : option (nat * Image) :=
  list_find (fun img => filepath img = texture_file_path) imgs.

Definition set_colorspace (cs : string) (img : Image) : Image :=
  mkImage (filepath img) cs.

Definition set_tree (t : NodeTree) (m : Material) : Material :=
  mkMaterial (mat_name m) (use_nodes m) t.

Definition set_use_nodes (b : bool) (m : Material) : Material :=
  mkMaterial (mat_name m) b (node_tree m).

Definition with_material (d : BlendData) (m : nat) (mat : Material) : BlendData :=
  mkData (objects d) (<[m := mat]> (materials d)) (images d).

Definition with_images (d : BlendData) (imgs : list Image) : BlendData :=
  mkData (objects d) (materials d) imgs.

Section Binder.

(** The file system and the image loader are outside the script:
    [os.path.exists], and whether [bpy.data.images.load] raises. *)
Variable path_exists : string -> bool.
Variable load_raises : string -> bool.

(** Lines 152-186, on the tree [t] already rewired.  A loaded image keeps
    the path it was loaded from; its color space is overwritten at once.
    Inside the [try], only the load is taken to raise. *)
Definition assign_image (d : BlendData) (m : nat) (mat : Material)
    (t : NodeTree) (tex : nat) (tex_key texture_file_path : string)
    : outcome * BlendData :=
  if path_exists texture_file_path then
    let loaded :=
      match find_image (images d) texture_file_path with
      | Some (i, _) => Some (i, images d)
      | None =>
          if load_raises texture_file_path then None
          else Some (length (images d),
                     images d ++ [mkImage texture_file_path "sRGB"])
      end in
    match loaded with
    | None => (RetFalse, with_material d m (set_tree t mat))
    | Some (new_img, imgs) =>
        let t' := mkTree (alter (set_image new_img) tex (nodes t)) (links t) in
        let imgs' := alter (set_colorspace (colorspace_for tex_key)) new_img imgs in
        (RetTrue, with_images (with_material d m (set_tree t' mat)) imgs')
    end
  else (RetFalse, with_material d m (set_tree t mat)).

(** Lines 43-188.  [m] is the material the caller passes; a reference to a
    material that is not in [bpy.data] raises on first use. *)
Definition replace_texture_in_nodes (d : BlendData) (m : nat)
    (tex_key texture_file_path : string) : outcome * BlendData :=
  match materials d !! m with
  | None => (Raised, d)
  | Some material =>
      if negb (use_nodes material) then (RetFalse, d)
      else
        let t := node_tree material in
        match find_principled (nodes t) with
        | None => (RetFalse, d)
        | Some (p, principled_node) =>
            match resolve_input tex_key principled_node with
            | None => (RetNone, d)
            | Some target_input =>
                let texture_node :=
                  find_connected_texture t p principled_node target_input in
                let '(t1, tex) := ensure_texture_node t tex_key texture_node in
                if has_input target_input principled_node then
                  let t2 := connect t1 tex_key p tex target_input in
                  assign_image d m material t2 tex tex_key texture_file_path
                else (RetNone, with_material d m (set_tree t1 material))
            end
        end
  end.

End Binder.

(** ** [apply_textures_to_all_materials] *)

(** Line 35. *)
Definition curtain_objects : list string := ["cur_1"; "cur_2"].

(** Lines 36-41: the table built from the four path arguments; iterating it
    yields the pairs in this order. *)
Definition texture_paths (diffuse_path normal_path roughness_path specular_path : string)
    : list (string * string) :=
  [ ("diffuse", diffuse_path);
    ("normal", normal_path);
    ("roughness", roughness_path);
    ("specular", specular_path) ].

(** [bpy.data.objects.get(name)] *)
Definition objects_get (d : BlendData) (name : string) : option Object :=
  List.find (fun o => String.eqb (obj_name o) name) (objects d).

(** Lines 206-208: [mat.use_nodes = True] when it was off. *)
Definition enable_nodes (d : BlendData) (m : nat) : BlendData :=
  mkData (objects d) (alter (set_use_nodes true) m (materials d)) (images d).

(** The running tallies of the walk together with the scene. *)
Record Tally := mkTally {
  scene : BlendData;
  success_count : nat;
  total_count : nat
}.

Section Walker.

Variable path_exists : string -> bool.
Variable load_raises : string -> bool.

(** Lines 210-219: one attempt per entry of the table; an exception from the
    binder is caught and leaves the success count alone. *)
Fixpoint apply_roles (items : list (string * string)) (m : nat) (s : Tally)
    : Tally :=
  match items with
  | [] => s
  | (tex_key, tex_path) :: rest =>
      let total := S (total_count s) in
      let '(result, d) :=
        replace_texture_in_nodes path_exists load_raises (scene s) m tex_key tex_path in
      let success :=
        if truthy result then S (success_count s) else success_count s in
      apply_roles rest m (mkTally d success total)
  end.

(** Lines 201-221: the slots of one object, empty slots skipped. *)
Fixpoint apply_slots (items : list (string * string))
    (slots : list (option nat)) (s : Tally) : Tally :=
  match slots with
  | [] => s
  | None :: rest => apply_slots items rest s
  | Some m :: rest =>
      let s1 := mkTally (enable_nodes (scene s) m) (success_count s) (total_count s) in
      apply_slots items rest (apply_roles items m s1)
  end.

(** Lines 197-223: the target objects by name; a name that finds no object,
    or an object that is no mesh, is skipped. *)
Fixpoint apply_objects (items : list (string * string))
    (names : list string) (s : Tally) : Tally :=
  match names with
  | [] => s
  | obj_name :: rest =>
      match objects_get (scene s) obj_name with
      | Some obj =>
          if String.eqb (obj_type obj) "MESH"
          then apply_objects items rest (apply_slots items (material_slots obj) s)
          else apply_objects items rest s
      | None => apply_objects items rest s
      end
  end.

(** Lines 190-226. *)
Definition apply_textures_to_all_materials (items : list (string * string))
    (d : BlendData) : Tally :=
  apply_objects items curtain_objects (mkTally d 0 0).

End Walker.

(** ** Compute-device selection (lines 265-335) *)

Record Device := mkDevice {
  dev_name : string;
  dev_type : string;
  dev_use : bool
}.

(** The Cycles preferences and the scene settings the selection writes. *)
Record RenderState := mkRender {
  compute_device_type : string;   (* cycles_prefs.compute_device_type *)
  devices : list Device;          (* cycles_prefs.devices *)
  cycles_device : string;         (* scene.cycles.device *)
  denoiser : string               (* scene.cycles.denoiser *)
}.

Definition set_use (b : bool) (dv : Device) : Device :=
  mkDevice (dev_name dv) (dev_type dv) b.

(** Lines 299-304 and 327-331: switch on the devices of one type and switch
    off every other. *)
Definition use_only (ty : string) (ds : list Device) : list Device :=
  (fun dv => set_use (String.eqb (dev_type dv) ty) dv) <$> ds.

(** Line 282. *)
Definition available_types : list string := ["OPTIX"; "CUDA"; "OPENCL"; "HIP"].

Section DeviceSelection.

(** What the running Blender build decides: whether the preference enum
    takes a back-end name (assigning an unknown name raises), and what
    [get_devices()] does to the device list under the selected back-end
    ([None]: it raises). *)
Variable type_supported : string -> bool.
Variable enumerate : string -> list Device -> option (list Device).

(** [cycles_prefs.compute_device_type = ty].  'NONE' belongs to the enum
    in every build. *)
Definition set_compute_device_type (ty : string) (r : RenderState)
    : option RenderState :=
  if String.eqb ty "NONE" || type_supported ty
  then Some (mkRender ty (devices r) (cycles_device r) (denoiser r))
  else None.

(** [cycles_prefs.get_devices()] *)
Definition get_devices (r : RenderState) : option RenderState :=
  match enumerate (compute_device_type r) (devices r) with
  | Some ds => Some (mkRender (compute_device_type r) ds (cycles_device r) (denoiser r))
  | None => None
  end.

(** Lines 311-316. *)
Definition match_denoiser (device_type : string) (use_denoising : bool)
    (r : RenderState) : RenderState :=
  if String.eqb device_type "OPTIX" && use_denoising then
    mkRender (compute_device_type r) (devices r) (cycles_device r) "OPTIX"
  else if use_denoising then
    mkRender (compute_device_type r) (devices r) (cycles_device r) "OPENIMAGEDENOISE"
  else r.

(** Lines 296-316: the body of [if type_devices:].  Writing a device's
    [use] flag and the scene's Cycles settings does not raise. *)
Definition select_type (device_type : string) (use_denoising : bool)
    (r : RenderState) : RenderState :=
  match_denoiser device_type use_denoising
    (mkRender (compute_device_type r) (use_only device_type (devices r))
              "GPU" (denoiser r)).

(** Lines 285-321: the loop over the back-end families; the first component
    is [gpu_found].  An exception inside the [try] goes on to the next
    family, with whatever was assigned before it still assigned. *)
Fixpoint try_device_types (types : list string) (use_denoising : bool)
    (r : RenderState) : bool * RenderState :=
  match types with
  | [] => (false, r)
  | device_type :: rest =>
      match set_compute_device_type device_type r with
      | None => try_device_types rest use_denoising r
      | Some r1 =>
          match get_devices r1 with
          | None => try_device_types rest use_denoising r1
          | Some r2 =>
              let type_devices :=
                List.filter (fun dv => String.eqb (dev_type dv) device_type)
                            (devices r2) in
              match type_devices with
              | [] => try_device_types rest use_denoising r2
              | _ :: _ => (true, select_type device_type use_denoising r2)
              end
          end
      end
  end.

(** Lines 323-332.  [None] stands for an exception leaving the script. *)
Definition cpu_fallback (r : RenderState) : option RenderState :=
  match set_compute_device_type "NONE" r with
  | None => None
  | Some r1 =>
      Some (mkRender (compute_device_type r1) (use_only "CPU" (devices r1))
                     "CPU" (denoiser r1))
  end.

(** Lines 266-335. *)
Definition configure_device (use_gpu use_denoising : bool) (r : RenderState)
    : option RenderState :=
  if use_gpu then
    let r0 := default r (get_devices r) in            (* lines 275-279 *)
    let '(gpu_found, r1) := try_device_types available_types use_denoising r0 in
    if gpu_found then Some r1 else cpu_fallback r1
  else
    Some (mkRender (compute_device_type r) (devices r) "CPU" (denoiser r)).

End DeviceSelection.

(** ** Notions the statements below are phrased in *)

(** "The first name present": [name] occurs in [candidates], the shader node
    has an input of that name, and it has none of the names listed before. *)
Definition first_present (principled : Node) (candidates : list string)
    (name : string) : Prop :=
  exists before after,
    candidates = before ++ name :: after
    /\ has_input name principled = true
    /\ Forall (fun c => has_input c principled = false) before.

(** The objects of a list of names that exist and are of type 'MESH'. *)
Definition meshes_named (d : BlendData) (names : list string) : list Object :=
  omap (fun name =>
          match objects_get d name with
          | Some obj => if String.eqb (obj_type obj) "MESH" then Some obj else None
          | None => None
          end) names.

(** The target objects the walk enters. *)
Definition target_meshes (d : BlendData) : list Object :=
  meshes_named d curtain_objects.

(** The material slots of an object that hold a material. *)
Definition nonempty_slots (obj : Object) : nat :=
  length (List.filter (fun slot : option nat => bool_decide (is_Some slot))
                      (material_slots obj)).

(** The tree lines 108-146 leave behind, with the texture node they settled
    on: what [replace_texture_in_nodes] has done to the graph by the time it
    looks at the file. *)
Definition wired (t : NodeTree) (tex_key : string) (p : nat) (principled : Node)
    (target_input : string) : NodeTree * nat :=
  let '(t1, tex) :=
    ensure_texture_node t tex_key
      (find_connected_texture t p principled target_input) in
  (connect t1 tex_key p tex target_input, tex).

(** The texture node [tex] feeds the socket of the role on the shader node
    [p]: through a decoder node for the normal role (one link from [tex]
    into the decoder's 'Color', one from the decoder into 'Normal', and no
    other link into either socket), by one link into [target_input] for the
    other roles. *)
Definition feeds_role (t : NodeTree) (tex_key : string) (p tex : nat)
    (target_input : string) : Prop :=
  if String.eqb tex_key "normal"
  then exists nm,
         node_has_type (nodes t) "NORMAL_MAP" nm = true
         /\ socket_links t nm "Color" = [mkLink tex "Color" nm "Color"]
         /\ socket_links t p "Normal" = [mkLink nm "Normal" p "Normal"]
  else socket_links t p target_input = [mkLink tex "Color" p target_input].

(** The four roles, in the order the table lists them. *)
Definition roles : list string := ["diffuse"; "normal"; "roughness"; "specular"].

(** A material that can take every role: it has a shader node on which each
    role resolves to an input. *)
Definition shader_ready (d : BlendData) (m : nat) : Prop :=
  exists mat p principled,
    materials d !! m = Some mat
    /\ find_principled (nodes (node_tree mat)) = Some (p, principled)
    /\ Forall (fun tex_key => is_Some (resolve_input tex_key principled)) roles.

(** The invariant of the role loop: the material is node-based and ready. *)
Definition ready_with_nodes (d : BlendData) (m : nat) : Prop :=
  exists mat p principled,
    materials d !! m = Some mat
    /\ use_nodes mat = true
    /\ find_principled (nodes (node_tree mat)) = Some (p, principled)
    /\ Forall (fun tex_key => is_Some (resolve_input tex_key principled)) roles.

(** The texture-sampler nodes and the decoder nodes of a tree. *)
Definition sampler_nodes (t : NodeTree) : list Node :=
  List.filter (fun n => String.eqb (node_type n) "TEX_IMAGE") (nodes t).

Definition decoder_nodes (t : NodeTree) : list Node :=
  List.filter (fun n => String.eqb (node_type n) "NORMAL_MAP") (nodes t).

Section Probing.

Variable type_supported : string -> bool.
Variable enumerate : string -> list Device -> option (list Device).

(** The devices a family shows when it is probed from [r]; a probe that
    raises shows none. *)
Definition family_devices (ty : string) (r : RenderState) : list Device :=
  match set_compute_device_type type_supported ty r with
  | None => []
  | Some r1 =>
      match get_devices enumerate r1 with
      | None => []
      | Some r2 => List.filter (fun dv => String.eqb (dev_type dv) ty) (devices r2)
      end
  end.

(** The preferences once lines 287-288 ran for [ty], raised or not. *)
Definition after_probe (ty : string) (r : RenderState) : RenderState :=
  match set_compute_device_type type_supported ty r with
  | None => r
  | Some r1 => default r1 (get_devices enumerate r1)
  end.

(** The preferences once every family of [types] was probed in turn. *)
Definition after_probes (types : list string) (r : RenderState) : RenderState :=
  fold_left (fun r ty => after_probe ty r) types r.

(** On the run that starts from [r], no family of [types] shows a device:
    each family shows none in the state the loop probes it in, which is the
    state the probes before it left behind. *)
Fixpoint none_on_run (types : list string) (r : RenderState) : Prop :=
  match types with
  | [] => True
  | ty :: rest => family_devices ty r = [] /\ none_on_run rest (after_probe ty r)
  end.

End Probing.

(** ** The command line (script lines 5-22, [BlenderRenderNode.render] lines 129-144) *)

(** [c.lower()] for an ASCII letter; any other byte is kept. *)
Definition ascii_lower (c : Ascii.ascii) : Ascii.ascii :=
  let n := Ascii.nat_of_ascii c in
  if Nat.leb 65 n && Nat.leb n 90 then Ascii.ascii_of_nat (n + 32) else c.

(** [s.lower()].  Bytes outside ASCII are kept as they are; no character
    outside ASCII lowers to a letter of 'true', so the comparison the script
    makes comes out the same. *)
Fixpoint lower (s : string) : string :=
  match s with
  | EmptyString => EmptyString
  | String c rest => String (ascii_lower c) (lower rest)
  end.

(** [str(b)] for a Python [bool]. *)
Definition str_bool (b : bool) : string := if b then "True" else "False".

(** The values the script reads off its arguments (lines 14-22). *)
Record ScriptArgs := mkArgs {
  diffuse_path : string;
  normal_path : string;
  roughness_path : string;
  specular_path : string;
  output_path : string;
  use_gpu : bool;
  samples : Z;
  use_denoising : bool;
  adaptive_sampling : bool
}.

(** How the head of the script ends: [argv.index("--")] raises, the usage
    message with [sys.exit(1)], [int(argv[6])] raises, or the values. *)
Inductive parse_result :=
  | NoSeparator
  | UsageExit
  | BadSamples
  | Parsed (args : ScriptArgs).

(** Line 7: [argv[argv.index("--") + 1:]]; [None] when "--" is not there. *)
Definition script_argv (sys_argv : list string) : option (list string) :=
  (fun found : nat * string => drop (S found.1) sys_argv)
    <$> list_find (fun a => a = "--") sys_argv.

Section CommandLine.

(** The builtins [int(s)] ([None]: it raises) and [str(n)] on integers. *)
Variable py_int : string -> option Z.
Variable py_str : Z -> string.

(** Lines 6-22. *)
Definition parse_args (sys_argv : list string) : parse_result :=
  match script_argv sys_argv with
  | None => NoSeparator
  | Some argv =>
      if Nat.ltb (length argv) 9 then UsageExit
      else
        match argv with
        | a0 :: a1 :: a2 :: a3 :: a4 :: a5 :: a6 :: a7 :: a8 :: _ =>
            let gpu := String.eqb (lower a5) "true" in
            match py_int a6 with
            | None => BadSamples
            | Some n =>
                Parsed (mkArgs a0 a1 a2 a3 a4 gpu n
                          (String.eqb (lower a7) "true")
                          (String.eqb (lower a8) "true"))
            end
        | _ => UsageExit
        end
  end.

(** [BlenderRenderNode.render], lines 129-144: the command handed to
    [subprocess.run]; Blender passes it on as [sys.argv]. *)
Definition render_cmd (blender_path blend_file script_path : string)
    (diffuse normal roughness specular output : string)
    (gpu : bool) (n : Z) (denoising adaptive : bool) : list string :=
  [ blender_path; "-b"; blend_file; "-P"; script_path; "--";
    diffuse; normal; roughness; specular; output;
    lower (str_bool gpu); py_str n;
    lower (str_bool denoising); lower (str_bool adaptive) ].

End CommandLine.

(** ** What a run may change *)

(** Two readings of one node that differ at most in the image assigned. *)
Definition same_node_but_image (n n' : Node) : Prop :=
  node_type n' = node_type n
  /\ node_name n' = node_name n
  /\ node_inputs n' = node_inputs n
  /\ node_location n' = node_location n.

(** Every node of [t] is still in its place in [t']. *)
Definition tree_grows (t t' : NodeTree) : Prop :=
  forall i n, nodes t !! i = Some n ->
              exists n', nodes t' !! i = Some n' /\ same_node_but_image n n'.

(** Every material of [d] is still in its place in [d'], under its name,
    node-based if it was, with every node it had; the same for the images
    and their paths; the objects are the same. *)
Definition scene_grows (d d' : BlendData) : Prop :=
  objects d' = objects d
  /\ length (materials d') = length (materials d)
  /\ (forall j mat,
        materials d !! j = Some mat ->
        exists mat',
          materials d' !! j = Some mat'
          /\ mat_name mat' = mat_name mat
          /\ (use_nodes mat = true -> use_nodes mat' = true)
          /\ tree_grows (node_tree mat) (node_tree mat'))
  /\ (forall i img,
        images d !! i = Some img ->
        exists img', images d' !! i = Some img' /\ filepath img' = filepath img).

(** The materials in the slots of the target meshes. *)
Definition target_materials (d : BlendData) : list nat :=
  obj ← target_meshes d; omap id (material_slots obj).

(** Lines 231-237: the verdict printed after the walk. *)
Inductive verdict := NoneApplied | PartlyApplied | AllApplied.

Definition validate (success_count total_count : nat) : verdict :=
  if Nat.eqb success_count 0 then NoneApplied
  else if Nat.ltb success_count total_count then PartlyApplied
  else AllApplied.

(** A table of roles whose keys are roles and whose files load whenever
    they exist. *)
Definition table_loads (path_exists load_raises : string -> bool)
    (items : list (string * string)) : Prop :=
  Forall (fun kp : string * string =>
            In kp.1 roles
            /\ (path_exists kp.2 = true -> load_raises kp.2 = false)) items.

(** Where the binder puts a texture node it creates: the nodes of [t] from
    position [n0] on that are texture nodes sit at x = -400, each 50 further
    down than the one before its place in the list (line 120). *)
Definition sampler_layout (n0 : nat) (t : NodeTree) : Prop :=
  forall i n,
    n0 <= i -> nodes t !! i = Some n -> node_type n = "TEX_IMAGE" ->
    node_location n = (-400, 0 - Z.of_nat (S i) * 50)%Z.

(** [t'] is [t] with nodes appended by the binder. *)
Definition tree_extends (t t' : NodeTree) : Prop :=
  tree_grows t t' /\ sampler_layout (length (nodes t)) t'.

(** The tree of material [j] in [d'] extends its tree in [d]. *)
Definition material_extends (d d' : BlendData) (j : nat) : Prop :=
  forall mat,
    materials d !! j = Some mat ->
    exists mat',
      materials d' !! j = Some mat'
      /\ tree_extends (node_tree mat) (node_tree mat').

(** ** Render settings and the script as a whole (lines 229-370) *)

(** The scene settings lines 263 and 338-359 write. *)
Record RenderSettings := mkSettings {
  engine : string;                    (* scene.render.engine *)
  cycles_samples : Z;                 (* scene.cycles.samples *)
  preview_samples : Z;                (* scene.cycles.preview_samples *)
  use_adaptive_sampling : bool;
  adaptive_threshold : QArith_base.Q;
  feature_set : string;
  cycles_use_denoising : bool;        (* scene.cycles.use_denoising *)
  use_preview_denoising : bool;
  use_persistent_data : bool;
  debug_use_spatial_splits : bool;
  render_filepath : string;           (* scene.render.filepath *)
  file_format : string;
  color_mode : string
}.

(** Line 263. *)
Definition set_engine (e : string) (s : RenderSettings) : RenderSettings :=
  mkSettings e (cycles_samples s) (preview_samples s) (use_adaptive_sampling s)
    (adaptive_threshold s) (feature_set s) (cycles_use_denoising s)
    (use_preview_denoising s) (use_persistent_data s)
    (debug_use_spatial_splits s) (render_filepath s) (file_format s)
    (color_mode s).

(** The range of a C [int], which every int property of [bpy] is stored
    in. *)
Definition INT_MIN : Z := (-2147483648)%Z.
Definition INT_MAX : Z := 2147483647%Z.

(** Assigning the Python integer [v] to an int property declared with the
    range [lo, hi]: a value that does not fit a C [int] raises [ValueError]
    and writes nothing; any other value is stored clamped to the range. *)
Definition int_property (lo hi v : Z) : option Z :=
  if Z.leb INT_MIN v && Z.leb v INT_MAX
  then Some (Z.max lo (Z.min hi v))
  else None.

(** Cycles declares [samples] with the range 1 to 2^24 and
    [preview_samples] with the range 0 to 2^24. *)
Definition samples_max : Z := 16777216%Z.

(** Line 338. *)
Definition set_samples (v : Z) (s : RenderSettings) : option RenderSettings :=
  stored ← int_property 1 samples_max v;
  Some (mkSettings (engine s) stored (preview_samples s)
          (use_adaptive_sampling s) (adaptive_threshold s) (feature_set s)
          (cycles_use_denoising s) (use_preview_denoising s)
          (use_persistent_data s) (debug_use_spatial_splits s)
          (render_filepath s) (file_format s) (color_mode s)).

(** Line 339. *)
Definition set_preview_samples (v : Z) (s : RenderSettings)
  : option RenderSettings :=
  stored ← int_property 0 samples_max v;
  Some (mkSettings (engine s) (cycles_samples s) stored
          (use_adaptive_sampling s) (adaptive_threshold s) (feature_set s)
          (cycles_use_denoising s) (use_preview_denoising s)
          (use_persistent_data s) (debug_use_spatial_splits s)
          (render_filepath s) (file_format s) (color_mode s)).

(** Lines 340-359, which write booleans, enumeration items that exist, a
    float within its range and a path (taken to fit the buffer of the
    property): none of them raises.  The literal 0.01 is written as the
    fraction it denotes. *)
Definition set_other_settings (a : ScriptArgs) (s : RenderSettings)
  : RenderSettings :=
  mkSettings (engine s)
    (cycles_samples s)
    (preview_samples s)
    (adaptive_sampling a)
    (if adaptive_sampling a then QArith_base.Qmake 1 100 else adaptive_threshold s)
    "SUPPORTED"
    (use_denoising a)
    (use_denoising a)
    true
    true
    (output_path a)
    "PNG"
    "RGB".

(** A run of assignments either completes or stops on a [ValueError], with
    the settings as written so far. *)
Inductive written :=
  | Stored (s : RenderSettings)
  | RaisedValueError (s : RenderSettings).

(** Lines 338-359; [//] is floor division. *)
Definition apply_settings (a : ScriptArgs) (s : RenderSettings) : written :=
  match set_samples (samples a) s with
  | None => RaisedValueError s
  | Some s1 =>
      match set_preview_samples (Z.max 32 (samples a / 4)) s1 with
      | None => RaisedValueError s1
      | Some s2 => Stored (set_other_settings a s2)
      end
  end.

(** What the script works on: [bpy.data], the device preferences with the
    scene's device and denoiser, the scene camera (an object, by position)
    and the other scene settings. *)
Record Session := mkSession {
  data : BlendData;
  device_state : RenderState;
  scene_camera : option nat;
  settings : RenderSettings
}.

(** How the script ends: the usage exit, an exception nothing catches (by
    the name of its class), the exit after a failed render, or its last
    line. *)
Inductive ending :=
  | ExitUsage
  | Uncaught (exception : string)
  | ExitRenderFailed
  | Finished.

Section Script.

Variable path_exists : string -> bool.
Variable load_raises : string -> bool.
Variable type_supported : string -> bool.
Variable enumerate : string -> list Device -> option (list Device).
Variable py_int : string -> option Z.
(** Whether [bpy.ops.render.render(write_still=True)] raises. *)
Variable render_raises : Session -> bool.

(** The script from its first line to its last, on a build that has Cycles
    (so that "CYCLES" names an engine).  Between the camera check and the
    render call the one line that can raise is line 338, on a sample count
    that does not fit a C [int]. *)
Definition run_script (sys_argv : list string) (w : Session) : ending * Session :=
  match parse_args py_int sys_argv with
  | NoSeparator => (Uncaught "ValueError", w)
  | UsageExit => (ExitUsage, w)
  | BadSamples => (Uncaught "ValueError", w)
  | Parsed a =>
      (* lines 229-237 *)
      let run :=
        apply_textures_to_all_materials path_exists load_raises
          (texture_paths (diffuse_path a) (normal_path a)
             (roughness_path a) (specular_path a))
          (data w) in
      let w1 := mkSession (scene run) (device_state w) (scene_camera w)
                  (settings w) in
      (* lines 254-259 *)
      match list_find (fun o => obj_name o = "Camera.006") (objects (data w1)) with
      | None => (Uncaught "Exception", w1)
      | Some (camera_obj, _) =>
          (* lines 262-263 *)
          let w2 := mkSession (data w1) (device_state w1) (Some camera_obj)
                      (set_engine "CYCLES" (settings w1)) in
          (* lines 266-335 *)
          match configure_device type_supported enumerate
                  (use_gpu a) (use_denoising a) (device_state w2) with
          | None => (Uncaught "Exception", w2)
          | Some r =>
              (* lines 338-359 *)
              match apply_settings a (settings w2) with
              | RaisedValueError s =>
                  (Uncaught "ValueError",
                   mkSession (data w2) r (scene_camera w2) s)
              | Stored s =>
                  let w3 := mkSession (data w2) r (scene_camera w2) s in
                  (* lines 362-370 *)
                  if render_raises w3 then (ExitRenderFailed, w3)
                  else (Finished, w3)
              end
          end
      end
  end.

End Script.

(** ** Example scenes and machines *)

(** The shader node of Blender 4.x, and one that names its specular input
    "Specular" and has no "Metallic" input. *)
Definition principled_v4 : Node :=
  mkNode "BSDF_PRINCIPLED" "Principled BSDF"
    ["Base Color"; "Metallic"; "Roughness"; "Specular IOR Level"; "Normal"]
    (0, 0)%Z None.

Definition principled_specular_only : Node :=
  mkNode "BSDF_PRINCIPLED" "Principled BSDF"
    ["Base Color"; "Specular"; "Roughness"; "Normal"] (0, 0)%Z None.

Definition curtain_material : Material :=
  mkMaterial "Curtain" true (mkTree [principled_v4] []).

(** Two curtain meshes with one slot each, sharing the material, and a
    camera. *)
Definition curtain_scene : BlendData :=
  mkData [ mkObject "cur_1" "MESH" [Some 0];
           mkObject "cur_2" "MESH" [Some 0];
           mkObject "Camera.006" "CAMERA" [] ]
         [curtain_material] [].

(** A scene where the second curtain has an empty slot ahead of its
    material and the first name belongs to a light. *)
Definition sparse_scene : BlendData :=
  mkData [ mkObject "cur_1" "LIGHT" [Some 0];
           mkObject "cur_2" "MESH" [None; Some 0] ]
         [curtain_material] [].

(** Every file is there; every file but the normal map is there. *)
Definition all_files (path : string) : bool := true.

Definition normal_map_missing (path : string) : bool :=
  negb (String.eqb path "normal.png").

Definition loads_fine (path : string) : bool := false.

Definition cpu0 : Device := mkDevice "Ryzen" "CPU" true.
Definition gpu0 : Device := mkDevice "RTX" "CUDA" false.

Definition fresh_prefs : RenderState := mkRender "NONE" [cpu0] "CPU" "NLM".

(** A machine without a GPU, on a build that has no OpenCL back-end. *)
Definition no_opencl (ty : string) : bool := negb (String.eqb ty "OPENCL").

Definition cpu_only (ty : string) (ds : list Device) : option (list Device) :=
  Some [cpu0].

(** A machine with one CUDA card on which probing OptiX raises. *)
Definition cuda_card (ty : string) (ds : list Device) : option (list Device) :=
  if String.eqb ty "OPTIX" then None else Some [cpu0; gpu0].

(** A build with every back-end, on which refreshing keeps the device list
    as it is, whatever the family: what a family shows depends on the list
    the preferences hold. *)
Definition every_backend (ty : string) : bool := true.

Definition listed_devices (ty : string) (ds : list Device)
  : option (list Device) := Some ds.

(** Preferences that list a CUDA card next to the CPU. *)
Definition card_prefs : RenderState :=
  mkRender "NONE" [cpu0; gpu0] "CPU" "NLM".

(** [str] and [int] on plain decimal numerals. *)
Definition decimal_str (n : Z) : string :=
  DecimalString.NilZero.string_of_int (Z.to_int n).

Definition decimal_int (s : string) : option Z :=
  Z.of_int <$> DecimalString.NilZero.int_of_string s.

(** The command line of a run with the node's defaults. *)
Definition default_cmd : list string :=
  render_cmd decimal_str "/opt/blender/blender" "/nodes/untitled.blend"
    "/nodes/blender_render_script.py"
    "/tmp/t/input_diffuse.png" "/tmp/t/input_normal.png"
    "/tmp/t/input_roughness.png" "/tmp/t/input_specular.png"
    "/nodes/render_output_1.png" true 128 true true.

(** The same command line with a sample count one above the largest C
    [int]. *)
Definition overflow_cmd : list string :=
  render_cmd decimal_str "/opt/blender/blender" "/nodes/untitled.blend"
    "/nodes/blender_render_script.py"
    "/tmp/t/input_diffuse.png" "/tmp/t/input_normal.png"
    "/tmp/t/input_roughness.png" "/tmp/t/input_specular.png"
    "/nodes/render_output_1.png" true 2147483648 true true.

(** Settings as a scene may hold them before the script runs. *)
Definition eevee_settings : RenderSettings :=
  mkSettings "BLENDER_EEVEE" 64 16 false (QArith_base.Qmake 1 10)
    "EXPERIMENTAL" false false false false "" "JPEG" "RGBA".

Definition floor_material : Material :=
  mkMaterial "Floor" false (mkTree [principled_v4] []).

(** The curtain and a floor mesh with a material of its own. *)
Definition scene_with_floor : BlendData :=
  mkData [ mkObject "cur_1" "MESH" [Some 0];
           mkObject "Floor" "MESH" [Some 1] ]
         [curtain_material; floor_material] [].

(** A tree whose "Roughness" and "Base Color" inputs are fed by a noise
    node. *)
Definition noisy_material : Material :=
  mkMaterial "Noisy" true
    (mkTree [ principled_v4;
              mkNode "TEX_NOISE" "Noise Texture" ["Vector"; "Scale"] (0, 0)%Z None ]
            [ mkLink 1 "Fac" 0 "Roughness"; mkLink 1 "Color" 0 "Base Color" ]).

Definition noisy_scene : BlendData :=
  mkData [mkObject "cur_1" "MESH" [Some 0]] [noisy_material] [].


(** * Input resolution *)

Lemma first_fallback_Some principled candidates name :
  first_fallback principled candidates = Some name
  <-> first_present principled candidates name.
Proof.
  unfold first_present. induction candidates as [|c cs IH]; simpl.
  - split; [discriminate|]. intros (before & after & Heq & _).
    by destruct before.
  - destruct (has_input c principled) eqn:Hc.
    + split.
      * intros [= <-]. exists [], cs. by repeat split.
      * intros (before & after & Heq & Hname & Hbefore).
        destruct before as [|b before]; simplify_eq/=; [done|].
        apply Forall_cons in Hbefore as [Hb _]. congruence.
    + rewrite IH. split.
      * intros (before & after & -> & Hname & Hbefore).
        exists (c :: before), after. repeat split; [done|by constructor].
      * intros (before & after & Heq & Hname & Hbefore).
        destruct before as [|b before]; simplify_eq/=; [congruence|].
        apply Forall_cons in Hbefore as [_ Hbefore]. eauto.
Qed.

Lemma first_fallback_None principled candidates :
  first_fallback principled candidates = None
  <-> Forall (fun c => has_input c principled = false) candidates.
Proof.
  induction candidates as [|c cs IH]; simpl.
  - split; [constructor|done].
  - destruct (has_input c principled) eqn:Hc.
    + split; [discriminate|]. intros [? _]%Forall_cons. congruence.
    + rewrite IH, Forall_cons. tauto.
Qed.

Lemma first_fallback_inputs n1 n2 candidates :
  node_inputs n1 = node_inputs n2 ->
  first_fallback n1 candidates = first_fallback n2 candidates.
Proof.
  intros Heq. induction candidates as [|c cs IH]; simpl; [done|].
  unfold has_input. by rewrite Heq, IH.
Qed.

Lemma resolve_input_inputs tex_key n1 n2 :
  node_inputs n1 = node_inputs n2 ->
  resolve_input tex_key n1 = resolve_input tex_key n2.
Proof.
  intros Heq. unfold resolve_input.
  destruct (dict_get tex_key input_mapping); [|done].
  rewrite (first_fallback_inputs n1 n2) by done.
  unfold has_input. by rewrite Heq.
Qed.

(** Whatever name is resolved is an input of the shader node. *)
Lemma resolve_input_has_input tex_key principled name :
  resolve_input tex_key principled = Some name ->
  has_input name principled = true.
Proof.
  unfold resolve_input.
  destruct (dict_get tex_key input_mapping) as [primary|]; [|done].
  destruct (has_input primary principled) eqn:Hp.
  - by intros [= <-].
  - intros (_ & _ & _ & H & _)%first_fallback_Some. done.
Qed.

(** C2: the fallback lists are the four fixed ones; when the primary name of
    a role is not an input of the shader node, resolution returns exactly the
    first name of the role's list that is an input; a node that has
    "Specular" but neither "Specular IOR Level" nor "Metallic" resolves the
    specular role to "Specular"; and the result depends on nothing but the
    role and the node's input names. *)
Theorem resolve_input_fallback_order :
  (dict_get "specular" fallback_mapping
     = Some ["Metallic"; "Specular"; "Specular IOR Level"]
   /\ dict_get "diffuse" fallback_mapping = Some ["Base Color"; "Albedo"]
   /\ dict_get "roughness" fallback_mapping = Some ["Roughness"]
   /\ dict_get "normal" fallback_mapping = Some ["Normal"])
  /\ (forall tex_key primary candidates principled,
        dict_get tex_key input_mapping = Some primary ->
        dict_get tex_key fallback_mapping = Some candidates ->
        has_input primary principled = false ->
        (forall name,
            resolve_input tex_key principled = Some name
            <-> first_present principled candidates name)
        /\ (resolve_input tex_key principled = None
            <-> Forall (fun c => has_input c principled = false) candidates))
  /\ (forall principled,
        has_input "Specular" principled = true ->
        has_input "Specular IOR Level" principled = false ->
        has_input "Metallic" principled = false ->
        resolve_input "specular" principled = Some "Specular")
  /\ (forall tex_key n1 n2,
        node_inputs n1 = node_inputs n2 ->
        resolve_input tex_key n1 = resolve_input tex_key n2).
Proof.
  split; [by repeat split|]. split; [|split].
  - intros tex_key primary candidates principled Hprim Hcand Habsent.
    unfold resolve_input. rewrite Hprim, Habsent, Hcand. simpl. split.
    + intros name. apply first_fallback_Some.
    + apply first_fallback_None.
  - intros principled Hspec Hior Hmet.
    unfold resolve_input. simpl. by rewrite Hior, Hmet, Hspec.
  - apply resolve_input_inputs.
Qed.

(** * The material walk *)

Section WalkerFacts.

Variable path_exists : string -> bool.
Variable load_raises : string -> bool.

Local Abbreviation bind := (replace_texture_in_nodes path_exists load_raises).
Local Abbreviation roles := (apply_roles path_exists load_raises).
Local Abbreviation slots := (apply_slots path_exists load_raises).
Local Abbreviation walk := (apply_objects path_exists load_raises).

(** The binder writes materials and images, never the object table. *)
Lemma assign_image_objects d m mat t tex tex_key path :
  objects (assign_image path_exists load_raises d m mat t tex tex_key path).2
  = objects d.
Proof.
  unfold assign_image. destruct (path_exists path); [|done].
  destruct (find_image (images d) path) as [[i ?]|]; [done|].
  by destruct (load_raises path).
Qed.

Lemma bind_objects d m tex_key path :
  objects (bind d m tex_key path).2 = objects d.
Proof.
  unfold replace_texture_in_nodes.
  destruct (materials d !! m) as [material|]; [|done].
  destruct (negb (use_nodes material)); [done|].
  destruct (find_principled _) as [[p principled]|]; [|done].
  destruct (resolve_input tex_key principled) as [target|]; [|done].
  destruct (ensure_texture_node _ _ _) as [t1 tex].
  destruct (has_input target principled); [|done].
  apply assign_image_objects.
Qed.

Lemma apply_roles_objects items m s :
  objects (scene (roles items m s)) = objects (scene s).
Proof.
  revert s. induction items as [|[tex_key tex_path] items IH]; intros s; [done|].
  simpl. pose proof (bind_objects (scene s) m tex_key tex_path) as Hb.
  destruct (bind (scene s) m tex_key tex_path) as [result d].
  rewrite IH. exact Hb.
Qed.

(** Every entry of the table is one attempt, whatever the binder answers. *)
Lemma apply_roles_total items m s :
  total_count (roles items m s) = total_count s + length items.
Proof.
  revert s. induction items as [|[tex_key tex_path] items IH]; intros s; simpl.
  - lia.
  - destruct (bind (scene s) m tex_key tex_path) as [result d].
    rewrite IH. simpl. lia.
Qed.

Lemma apply_roles_success_le items m s :
  success_count s <= success_count (roles items m s)
  /\ success_count (roles items m s) <= success_count s + length items.
Proof.
  revert s. induction items as [|[tex_key tex_path] items IH]; intros s; simpl.
  - lia.
  - destruct (bind (scene s) m tex_key tex_path) as [result d].
    specialize (IH (mkTally d
      (if truthy result then S (success_count s) else success_count s)
      (S (total_count s)))).
    simpl in IH. destruct (truthy result); lia.
Qed.

Lemma apply_slots_objects items sl s :
  objects (scene (slots items sl s)) = objects (scene s).
Proof.
  revert s. induction sl as [|[m|] sl IH]; intros s; simpl; [done| |by rewrite IH].
  rewrite IH, apply_roles_objects. done.
Qed.

Lemma apply_slots_total items obj_slots s :
  total_count (slots items obj_slots s)
  = total_count s
    + length (List.filter (fun slot : option nat => bool_decide (is_Some slot))
                          obj_slots) * length items.
Proof.
  revert s. induction obj_slots as [|[m|] sl IH]; intros s; simpl.
  - lia.
  - rewrite IH, apply_roles_total. simpl. lia.
  - rewrite IH. done.
Qed.

Lemma objects_get_ext d d' name :
  objects d = objects d' -> objects_get d name = objects_get d' name.
Proof. unfold objects_get. by intros ->. Qed.

Lemma meshes_named_ext d d' names :
  objects d = objects d' -> meshes_named d names = meshes_named d' names.
Proof.
  intros Heq. unfold meshes_named.
  induction names as [|name names IH]; csimpl; [done|].
  by rewrite IH, (objects_get_ext d d').
Qed.

Lemma apply_objects_total items names s :
  total_count (walk items names s)
  = total_count s
    + sum_list (nonempty_slots <$> meshes_named (scene s) names) * length items.
Proof.
  revert s. induction names as [|name names IH]; intros s.
  - simpl. lia.
  - unfold meshes_named. csimpl. fold (meshes_named (scene s) names).
    destruct (objects_get (scene s) name) as [obj|] eqn:Hget; csimpl.
    + destruct (String.eqb (obj_type obj) "MESH") eqn:Hty; csimpl.
      * rewrite IH, apply_slots_total.
        rewrite (meshes_named_ext _ (scene s)) by apply apply_slots_objects.
        unfold nonempty_slots at 2. lia.
      * apply IH.
    + apply IH.
Qed.

End WalkerFacts.

(** C3: the walk makes four attempts for every non-empty material slot of
    every target object that exists and is a mesh, and none for anything
    else, whatever the outcome of the individual binds; with [n] such objects
    of [slots_each] non-empty slots each the total is [n * slots_each * 4]. *)
Theorem total_count_role_coverage :
  forall path_exists load_raises diffuse_path normal_path roughness_path specular_path d,
    let run :=
      apply_textures_to_all_materials path_exists load_raises
        (texture_paths diffuse_path normal_path roughness_path specular_path) d in
    total_count run = sum_list (nonempty_slots <$> target_meshes d) * 4
    /\ (forall slots_each,
          Forall (fun obj => nonempty_slots obj = slots_each) (target_meshes d) ->
          total_count run = length (target_meshes d) * slots_each * 4).
Proof.
  intros pe lr dp np rp sp d run.
  assert (Htotal : total_count run
                   = sum_list (nonempty_slots <$> target_meshes d) * 4).
  { unfold run, apply_textures_to_all_materials.
    rewrite apply_objects_total. done. }
  split; [exact Htotal|].
  intros slots_each Hall. rewrite Htotal. clear Htotal run.
  cut (sum_list (nonempty_slots <$> target_meshes d)
       = length (target_meshes d) * slots_each); [by intros ->|].
  induction Hall as [|obj objs Hobj _ IH]; csimpl; [done|].
  rewrite IH, Hobj. lia.
Qed.

(** * Compute-device selection *)

Section DeviceFacts.

Variable type_supported : string -> bool.
Variable enumerate : string -> list Device -> option (list Device).

Local Abbreviation loop := (try_device_types type_supported enumerate).
Local Abbreviation shown := (family_devices type_supported enumerate).
Local Abbreviation probed := (after_probe type_supported enumerate).
Local Abbreviation probed_all := (after_probes type_supported enumerate).

(** One turn of the loop, read through what the family shows. *)
Lemma try_device_types_cons ty rest use_denoising r :
  loop (ty :: rest) use_denoising r
  = match shown ty r with
    | [] => loop rest use_denoising (probed ty r)
    | _ :: _ => (true, select_type ty use_denoising (probed ty r))
    end.
Proof.
  simpl. unfold family_devices, after_probe.
  destruct (set_compute_device_type type_supported ty r) as [r1|]; [|done].
  destruct (get_devices enumerate r1) as [r2|]; done.
Qed.

(** Families that show nothing when their turn comes are passed over. *)
Lemma try_device_types_skip pre rest use_denoising r :
  none_on_run type_supported enumerate pre r ->
  loop (pre ++ rest) use_denoising r = loop rest use_denoising (probed_all pre r).
Proof.
  revert r. induction pre as [|ty pre IH]; intros r Hnone; [done|].
  destruct Hnone as [Hty Hrest].
  rewrite <- app_comm_cons, try_device_types_cons, Hty.
  by rewrite IH.
Qed.

(** A family that never shows a device, whatever the state it is probed
    in, shows none on any run. *)
Lemma none_on_run_every_state types r :
  (forall ty r0, In ty types -> shown ty r0 = []) ->
  none_on_run type_supported enumerate types r.
Proof.
  revert r. induction types as [|ty types IH]; intros r Hnone; [done|].
  split; [apply Hnone; by left|]. apply IH. intros; apply Hnone; by right.
Qed.

(** Passing over every family is the same as finding no GPU. *)
Lemma none_on_run_gpu_found types use_denoising r :
  none_on_run type_supported enumerate types r
  <-> (loop types use_denoising r).1 = false.
Proof.
  revert r. induction types as [|ty types IH]; intros r; [done|].
  rewrite try_device_types_cons. simpl.
  destruct (shown ty r) as [|dv ds].
  - rewrite <- IH. split; [by intros [_ ?]|done].
  - split; [by intros [? _]|done].
Qed.

(** The first family that shows a device ends the loop. *)
Lemma try_device_types_hit ty post use_denoising r :
  shown ty r <> [] ->
  loop (ty :: post) use_denoising r
  = (true, select_type ty use_denoising (probed ty r)).
Proof.
  intros Hsome. rewrite try_device_types_cons.
  by destruct (shown ty r).
Qed.

Lemma use_only_flags ty ds :
  Forall (fun dv => dev_use dv = String.eqb (dev_type dv) ty) (use_only ty ds).
Proof.
  unfold use_only. apply Forall_fmap, Forall_forall. by intros dv _.
Qed.

Lemma use_only_types ty ds :
  dev_type <$> use_only ty ds = dev_type <$> ds.
Proof.
  unfold use_only. rewrite <- list_fmap_compose. by apply list_fmap_ext.
Qed.

(** The probing statements write the back-end and the device list only. *)
Lemma after_probe_denoiser ty r : denoiser (probed ty r) = denoiser r.
Proof.
  unfold after_probe, set_compute_device_type, get_devices.
  destruct (String.eqb ty "NONE" || type_supported ty); [|done]. simpl.
  by destruct (enumerate ty (devices r)).
Qed.

Lemma after_probes_denoiser types r : denoiser (probed_all types r) = denoiser r.
Proof.
  revert r. induction types as [|ty types IH]; intros r; [done|].
  unfold after_probes in *. simpl. by rewrite IH, after_probe_denoiser.
Qed.

Lemma refresh_denoiser r :
  denoiser (default r (get_devices enumerate r)) = denoiser r.
Proof.
  unfold get_devices.
  by destruct (enumerate (compute_device_type r) (devices r)).
Qed.

(** A family that shows a device was accepted by the preferences, which
    now name it. *)
Lemma shown_compute_device_type ty r :
  shown ty r <> [] -> compute_device_type (probed ty r) = ty.
Proof.
  unfold family_devices, after_probe, set_compute_device_type, get_devices.
  destruct (String.eqb ty "NONE" || type_supported ty); [|done]. simpl.
  by destruct (enumerate ty (devices r)).
Qed.

(** The devices it shows are the devices of its type in the list that
    probing left behind. *)
Lemma shown_devices ty r :
  shown ty r <> [] ->
  shown ty r
  = List.filter (fun dv => String.eqb (dev_type dv) ty) (devices (probed ty r)).
Proof.
  unfold family_devices, after_probe.
  destruct (set_compute_device_type type_supported ty r) as [r1|]; [|done].
  by destruct (get_devices enumerate r1).
Qed.

Lemma select_type_fields ty use_denoising r :
  compute_device_type (select_type ty use_denoising r) = compute_device_type r
  /\ devices (select_type ty use_denoising r) = use_only ty (devices r)
  /\ cycles_device (select_type ty use_denoising r) = "GPU"
  /\ denoiser (select_type ty use_denoising r)
     = if use_denoising
       then (if String.eqb ty "OPTIX" then "OPTIX" else "OPENIMAGEDENOISE")
       else denoiser r.
Proof.
  unfold select_type, match_denoiser.
  destruct (String.eqb ty "OPTIX"), use_denoising; done.
Qed.

Lemma try_device_types_denoiser_off types r :
  denoiser (loop types false r).2 = denoiser r.
Proof.
  revert r. induction types as [|ty types IH]; intros r; [done|].
  rewrite try_device_types_cons. destruct (shown ty r).
  - by rewrite IH, after_probe_denoiser.
  - simpl. destruct (select_type_fields ty false (probed ty r)) as (_ & _ & _ & ->).
    apply after_probe_denoiser.
Qed.

(** With denoising asked for, a family that is selected brings its
    denoiser. *)
Lemma try_device_types_denoiser_on types r :
  (loop types true r).1 = true ->
  In (compute_device_type (loop types true r).2) types
  /\ cycles_device (loop types true r).2 = "GPU"
  /\ denoiser (loop types true r).2
     = if String.eqb (compute_device_type (loop types true r).2) "OPTIX"
       then "OPTIX" else "OPENIMAGEDENOISE".
Proof.
  revert r. induction types as [|ty types IH]; intros r; [done|].
  rewrite try_device_types_cons.
  destruct (shown ty r) as [|dv ds] eqn:Hshown.
  - intros Hfound. destruct (IH _ Hfound) as (Hin & Hgpu & Hden).
    split; [by right|done].
  - intros _. simpl.
    assert (Hsome : shown ty r <> []) by (by rewrite Hshown).
    destruct (select_type_fields ty true (probed ty r))
      as (Hty & _ & Hgpu & Hden).
    rewrite Hty, Hgpu, Hden, (shown_compute_device_type ty r Hsome).
    split; [by left|done].
Qed.

End DeviceFacts.

(** C4: with the GPU asked for, if on the run no family of the list shows a
    device when its turn comes (a probe that raises shows none), the
    configuration completes without an exception and ends on the CPU:
    back-end 'NONE', scene device 'CPU', every CPU device in use and no
    other. *)
Theorem configure_device_cpu_fallback :
  forall type_supported enumerate use_denoising r,
    none_on_run type_supported enumerate available_types
      (default r (get_devices enumerate r)) ->
    exists r',
      configure_device type_supported enumerate true use_denoising r = Some r'
      /\ compute_device_type r' = "NONE"
      /\ cycles_device r' = "CPU"
      /\ Forall (fun dv => dev_use dv = String.eqb (dev_type dv) "CPU") (devices r')
      /\ dev_type <$> devices r'
         = dev_type <$> devices
             (after_probes type_supported enumerate available_types
                (default r (get_devices enumerate r))).
Proof.
  intros ts en dn r Hnone. unfold configure_device.
  set (r0 := default r (get_devices en r)).
  pose proof (try_device_types_skip ts en available_types [] dn r0 Hnone) as Hloop.
  rewrite app_nil_r in Hloop. rewrite Hloop. simpl try_device_types.
  unfold cpu_fallback, set_compute_device_type. simpl.
  eexists. split; [done|]. simpl. repeat split.
  - apply use_only_flags.
  - apply use_only_types.
Qed.

(** C5: with the GPU asked for, the families are probed in the order of the
    list; when on the run the families before [ty] show nothing as their turn
    comes and [ty] then shows a device, [ty] is selected: the preferences name
    it, the scene renders on the GPU, exactly the devices of type [ty] are in
    use (and there is one), and the outcome of the loop is the same whatever
    families follow [ty]. *)
Theorem configure_device_first_family_wins :
  forall type_supported enumerate use_denoising pre ty post r,
    available_types = pre ++ ty :: post ->
    let r0 := default r (get_devices enumerate r) in
    let r1 := after_probes type_supported enumerate pre r0 in
    none_on_run type_supported enumerate pre r0 ->
    family_devices type_supported enumerate ty r1 <> [] ->
    (exists r',
       configure_device type_supported enumerate true use_denoising r = Some r'
       /\ compute_device_type r' = ty
       /\ cycles_device r' = "GPU"
       /\ Forall (fun dv => dev_use dv = String.eqb (dev_type dv) ty) (devices r')
       /\ Exists (fun dv => dev_use dv = true) (devices r')
       /\ dev_type <$> devices r'
          = dev_type <$> devices (after_probe type_supported enumerate ty r1))
    /\ (forall later,
          try_device_types type_supported enumerate (pre ++ ty :: later)
            use_denoising r0
          = try_device_types type_supported enumerate (pre ++ ty :: post)
              use_denoising r0).
Proof.
  intros ts en dn pre ty post r Hlist r0 r1 Hnone Hsome.
  assert (Hloop : forall later,
             try_device_types ts en (pre ++ ty :: later) dn r0
             = (true, select_type ty dn (after_probe ts en ty r1))).
  { intros later. rewrite try_device_types_skip by done.
    by apply try_device_types_hit. }
  split; [|intros later; by rewrite !Hloop].
  unfold configure_device. fold r0. rewrite Hlist, Hloop.
  destruct (select_type_fields ty dn (after_probe ts en ty r1))
    as (Hty & Hdevs & Hgpu & _).
  eexists. split; [done|]. rewrite Hty, Hdevs, Hgpu.
  split; [by apply shown_compute_device_type|]. split; [done|].
  split; [apply use_only_flags|]. split; [|apply use_only_types].
  rewrite (shown_devices ts en ty r1 Hsome) in Hsome.
  destruct (List.filter _ _) as [|dv ds] eqn:Hf; [done|].
  assert (Hin : In dv (List.filter (fun dv => String.eqb (dev_type dv) ty)
                         (devices (after_probe ts en ty r1))))
    by (rewrite Hf; by left).
  apply filter_In in Hin as [Hin Hdv].
  apply Exists_exists. exists (set_use (String.eqb (dev_type dv) ty) dv).
  split; [|by simpl].
  unfold use_only. apply list_elem_of_fmap. exists dv.
  split; [done|]. by apply list_elem_of_In.
Qed.

(** C6: when denoising is asked for and a family is selected, the denoiser
    follows the family: 'OPTIX' for the family 'OPTIX', which is the first of
    the list and no other, and the generic 'OPENIMAGEDENOISE' for every other
    family.  This holds of the family that wins on the run, and of every
    outcome that renders on the GPU.  When denoising is not asked for, the
    configuration leaves the denoiser as it was, on every path. *)
Theorem configure_device_denoiser :
  (forall type_supported enumerate pre ty post r,
     available_types = pre ++ ty :: post ->
     none_on_run type_supported enumerate pre
       (default r (get_devices enumerate r)) ->
     family_devices type_supported enumerate ty
       (after_probes type_supported enumerate pre
          (default r (get_devices enumerate r))) <> [] ->
     exists r',
       configure_device type_supported enumerate true true r = Some r'
       /\ denoiser r'
          = (if String.eqb ty "OPTIX" then "OPTIX" else "OPENIMAGEDENOISE")
       /\ (String.eqb ty "OPTIX" = true <-> pre = []))
  /\ (forall type_supported enumerate r r',
        configure_device type_supported enumerate true true r = Some r' ->
        cycles_device r' = "GPU" ->
        In (compute_device_type r') available_types
        /\ denoiser r'
           = (if String.eqb (compute_device_type r') "OPTIX"
              then "OPTIX" else "OPENIMAGEDENOISE")
        /\ (String.eqb (compute_device_type r') "OPTIX" = true
            <-> head available_types = Some (compute_device_type r')))
  /\ (forall type_supported enumerate use_gpu r r',
        configure_device type_supported enumerate use_gpu false r = Some r' ->
        denoiser r' = denoiser r).
Proof.
  split; [|split].
  - intros ts en pre ty post r Hlist Hnone Hsome.
    unfold configure_device. rewrite Hlist.
    rewrite try_device_types_skip by done.
    rewrite try_device_types_hit by done.
    destruct (select_type_fields ty true
                (after_probe ts en ty (after_probes ts en pre
                   (default r (get_devices en r))))) as (_ & _ & _ & Hden).
    eexists. split; [done|]. split; [exact Hden|].
    unfold available_types in Hlist.
    destruct pre as [|t0 [|t1 [|t2 [|t3 pre]]]]; simplify_eq/=;
      try (split; done).
    by destruct pre.
  - intros ts en r r'. unfold configure_device.
    pose proof (try_device_types_denoiser_on ts en available_types
                  (default r (get_devices en r))) as Hon.
    destruct (try_device_types ts en available_types true _) as [gpu_found r1].
    simpl in Hon. destruct gpu_found.
    + intros [= <-] _. destruct (Hon eq_refl) as (Hin & _ & Hden).
      split; [done|]. split; [done|].
      unfold available_types in *. simpl in Hin |- *.
      destruct Hin as [<-|[<-|[<-|[<-|[]]]]]; by split.
    + unfold cpu_fallback, set_compute_device_type. simpl.
      by intros [= <-].
  - intros ts en use_gpu r r'. unfold configure_device.
    destruct use_gpu; [|by intros [= <-]].
    pose proof (try_device_types_denoiser_off ts en available_types
                  (default r (get_devices en r))) as Hoff.
    destruct (try_device_types ts en available_types false _) as [gpu_found r1].
    simpl in Hoff. rewrite refresh_denoiser in Hoff.
    destruct gpu_found.
    + by intros [= <-].
    + unfold cpu_fallback, set_compute_device_type. simpl.
      by intros [= <-].
Qed.

(** * The texture binder *)

(** ** Node lists and link lists *)

Lemma alter_snoc {A} (f : A -> A) (l : list A) (x : A) :
  alter f (length l) (l ++ [x]) = l ++ [f x].
Proof.
  replace (length l) with (length l + 0) at 1 by lia.
  by rewrite alter_app_r.
Qed.

Lemma node_has_type_lookup ns ty i :
  node_has_type ns ty i = true <-> exists n, ns !! i = Some n /\ node_type n = ty.
Proof.
  unfold node_has_type. destruct (ns !! i) as [n|].
  - rewrite String.eqb_eq. split; [by exists n|]. by intros (? & [= <-] & ?).
  - split; [done|]. by intros (? & ? & ?).
Qed.

Lemma node_has_type_app_l ns extra ty i :
  node_has_type ns ty i = true -> node_has_type (ns ++ extra) ty i = true.
Proof.
  rewrite !node_has_type_lookup. intros (n & Hn & Hty).
  exists n. split; [by apply lookup_app_l_Some|done].
Qed.

Lemma node_has_type_alter_image ns ty i j img :
  node_has_type (alter (set_image img) j ns) ty i = node_has_type ns ty i.
Proof.
  unfold node_has_type. destruct (decide (j = i)) as [->|Hne].
  - rewrite list_lookup_alter_eq. by destruct (ns !! i).
  - by rewrite list_lookup_alter_ne.
Qed.

Lemma into_socket_self fn fs tn ts :
  into_socket tn ts (mkLink fn fs tn ts) = true.
Proof. unfold into_socket. simpl. by rewrite Nat.eqb_refl, String.eqb_refl. Qed.

(** After [links.new], the socket written holds the new link and nothing
    else; every other socket keeps what it held. *)
Lemma links_new_same fn fs tn ts ls :
  List.filter (into_socket tn ts) (links_new fn fs tn ts ls) = [mkLink fn fs tn ts].
Proof.
  unfold links_new. rewrite List.filter_app. simpl.
  rewrite into_socket_self.
  replace (List.filter (into_socket tn ts) (List.filter _ ls)) with (@nil Link); [done|].
  induction ls as [|l ls IH]; simpl; [done|].
  destruct (into_socket tn ts l) eqn:Hl; simpl; [done|]. by rewrite Hl.
Qed.

Lemma links_new_other fn fs tn ts n sock ls :
  into_socket n sock (mkLink fn fs tn ts) = false ->
  List.filter (into_socket n sock) (links_new fn fs tn ts ls)
  = List.filter (into_socket n sock) ls.
Proof.
  intros Hother. unfold links_new. rewrite List.filter_app. simpl.
  rewrite Hother, app_nil_r.
  induction ls as [|l ls IH]; simpl; [done|].
  destruct (into_socket tn ts l) eqn:Hl; simpl.
  - destruct (into_socket n sock l) eqn:Hl'; [|done].
    unfold into_socket in *. simpl in Hother.
    apply andb_true_iff in Hl as [Hn%Nat.eqb_eq Hs%String.eqb_eq].
    apply andb_true_iff in Hl' as [Hn'%Nat.eqb_eq Hs'%String.eqb_eq].
    rewrite <- Hn, <- Hs, Hn', Hs' in Hother.
    by rewrite Nat.eqb_refl, String.eqb_refl in Hother.
  - destruct (into_socket n sock l); by rewrite IH.
Qed.

(** ** The stages of the binder *)

(** The node that the link scan returns is a texture node of the tree. *)
Lemma find_connected_texture_type t p principled target i :
  find_connected_texture t p principled target = Some i ->
  node_has_type (nodes t) "TEX_IMAGE" i = true.
Proof.
  unfold find_connected_texture. destruct (has_input target principled); [|done].
  intros (l & Hfind & ->)%fmap_Some.
  by apply List.find_some in Hfind as [_ Hty].
Qed.

(** A socket fed by a single link from a texture node gives that node. *)
Lemma find_connected_texture_single t p principled target tex :
  has_input target principled = true ->
  socket_links t p target = [mkLink tex "Color" p target] ->
  node_has_type (nodes t) "TEX_IMAGE" tex = true ->
  find_connected_texture t p principled target = Some tex.
Proof.
  intros Hin Hl Hty. unfold find_connected_texture.
  rewrite Hin, Hl. simpl. by rewrite Hty.
Qed.

(** A socket fed only from nodes of another type gives none. *)
Lemma find_connected_texture_none t p principled target :
  Forall (fun l => node_has_type (nodes t) "TEX_IMAGE" (from_node l) = false)
         (socket_links t p target) ->
  find_connected_texture t p principled target = None.
Proof.
  intros Hall. unfold find_connected_texture.
  destruct (has_input target principled); [|done].
  induction Hall as [|l ls Hl _ IH]; simpl; [done|]. by rewrite Hl.
Qed.

Lemma ensure_texture_node_reuse t tex_key i :
  ensure_texture_node t tex_key (Some i) = (t, i).
Proof. done. Qed.

Lemma ensure_texture_node_fresh t tex_key :
  exists node,
    ensure_texture_node t tex_key None
    = (mkTree (nodes t ++ [node]) (links t), length (nodes t))
    /\ node_type node = "TEX_IMAGE"
    /\ node_image node = None
    /\ node_name node = tex_key +:+ "_texture".
Proof.
  eexists. unfold ensure_texture_node. rewrite !alter_snoc. by repeat split.
Qed.

(** Either way the tree keeps its nodes in place and its links, and the
    node returned is a texture node whenever the one passed in was. *)
Lemma ensure_texture_node_spec t tex_key found t1 tex :
  ensure_texture_node t tex_key found = (t1, tex) ->
  (forall i, found = Some i -> node_has_type (nodes t) "TEX_IMAGE" i = true) ->
  links t1 = links t
  /\ node_has_type (nodes t1) "TEX_IMAGE" tex = true
  /\ (exists extra, nodes t1 = nodes t ++ extra
        /\ length extra = match found with Some _ => 0 | None => 1 end
        /\ Forall (fun n => node_image n = None) extra
        /\ Forall (fun n => node_type n <> "BSDF_PRINCIPLED") extra).
Proof.
  intros Hens Hfound. destruct found as [i|].
  - rewrite ensure_texture_node_reuse in Hens. simplify_eq.
    split; [done|]. split; [by apply Hfound|].
    exists []. rewrite app_nil_r. by repeat split.
  - destruct (ensure_texture_node_fresh t tex_key) as (node & Heq & Hty & Himg & _).
    rewrite Heq in Hens. simplify_eq. simpl.
    split; [done|]. split.
    + apply node_has_type_lookup. exists node.
      split; [by apply list_lookup_middle|done].
    + exists [node]. repeat split; [by repeat constructor|].
      repeat constructor. by rewrite Hty.
Qed.

Lemma connect_direct t tex_key p tex target :
  String.eqb tex_key "normal" = false ->
  connect t tex_key p tex target
  = mkTree (nodes t) (links_new tex "Color" p target (links t)).
Proof. unfold connect. by intros ->. Qed.

(** The normal role: the decoder node is found or appended, and both links
    are rewritten. *)
Lemma connect_normal t p tex target :
  exists nm decoder extra,
    connect t "normal" p tex target
    = mkTree (nodes t ++ extra)
        (links_new nm "Normal" p "Normal"
           (links_new tex "Color" nm "Color" (links t)))
    /\ find_normal_map (nodes t ++ extra) "normal" = Some (nm, decoder)
    /\ length extra
       = match find_normal_map (nodes t) "normal" with Some _ => 0 | None => 1 end
    /\ Forall (fun n => node_image n = None /\ node_type n = "NORMAL_MAP") extra.
Proof.
  unfold connect, ensure_normal_map. simpl String.eqb. cbv iota.
  destruct (find_normal_map (nodes t) "normal") as [[nm decoder]|] eqn:Hfind.
  - exists nm, decoder, []. rewrite app_nil_r. by repeat split.
  - rewrite !alter_snoc. simpl.
    eexists (length (nodes t)), _, [_]. split; [reflexivity|].
    split; [|split; [done|by repeat constructor]].
    unfold find_normal_map in *. rewrite list_find_app_r by done. done.
Qed.

Lemma find_normal_map_type ns tex_key nm decoder :
  find_normal_map ns tex_key = Some (nm, decoder) ->
  node_has_type ns "NORMAL_MAP" nm = true.
Proof.
  intros (Hnm & [Hty _] & _)%list_find_Some.
  apply node_has_type_lookup. eauto.
Qed.

(** What the rewiring stage leaves behind: the old nodes in place, followed
    by the nodes it created (none of them with an image, none a shader
    node); a texture node [tex]; and the sockets of the role holding exactly
    the links just made. *)
Lemma wired_spec t tex_key p principled target t2 tex :
  wired t tex_key p principled target = (t2, tex) ->
  exists extra,
    nodes t2 = nodes t ++ extra
    /\ Forall (fun n => node_image n = None
                        /\ node_type n <> "BSDF_PRINCIPLED") extra
    /\ (find_connected_texture t p principled target = None ->
        1 <= length extra)
    /\ (is_Some (find_connected_texture t p principled target) ->
        String.eqb tex_key "normal" = false -> extra = [])
    /\ node_has_type (nodes t2) "TEX_IMAGE" tex = true
    /\ if String.eqb tex_key "normal"
       then exists nm,
              node_has_type (nodes t2) "NORMAL_MAP" nm = true
              /\ socket_links t2 nm "Color" = [mkLink tex "Color" nm "Color"]
              /\ socket_links t2 p "Normal" = [mkLink nm "Normal" p "Normal"]
       else socket_links t2 p target = [mkLink tex "Color" p target].
Proof.
  unfold wired.
  destruct (ensure_texture_node _ _ _) as [t1 tex1] eqn:Hens. intros [= <- <-].
  apply ensure_texture_node_spec in Hens
    as (Hlinks & Htex & extra1 & Hnodes & Hlen & Himg & Hty);
    [|intros i; apply find_connected_texture_type].
  destruct (String.eqb tex_key "normal") eqn:Hkey.
  - apply String.eqb_eq in Hkey as ->.
    destruct (connect_normal t1 p tex1 target)
      as (nm & decoder & extra2 & -> & Hfind & _ & Hall2). simpl.
    exists (extra1 ++ extra2). rewrite Hnodes, <- app_assoc.
    split; [done|]. split.
    { apply Forall_app. split.
      - eapply Forall_impl; [apply Forall_and; split; [exact Himg|exact Hty]|done].
      - eapply Forall_impl; [exact Hall2|]. intros n [? Hn]. by rewrite Hn. }
    split.
    { intros Hnone. rewrite Hnone in Hlen. rewrite length_app. lia. }
    split; [done|]. split.
    { rewrite app_assoc, <- Hnodes. by apply node_has_type_app_l. }
    exists nm. split.
    { rewrite app_assoc, <- Hnodes. by eapply find_normal_map_type. }
    unfold socket_links. simpl. split.
    + rewrite links_new_other; [apply links_new_same|].
      unfold into_socket. simpl. apply andb_false_r.
    + apply links_new_same.
  - rewrite connect_direct by done. simpl.
    exists extra1. split; [done|]. split.
    { eapply Forall_impl; [apply Forall_and; split; [exact Himg|exact Hty]|done]. }
    split.
    { intros Hnone. rewrite Hnone in Hlen. lia. }
    split.
    { intros [i Hi] _. rewrite Hi in Hlen. by destruct extra1. }
    split; [done|]. apply links_new_same.
Qed.

(** Appending nodes that are no shader node, and assigning an image to a
    node, both leave the shader node where it was. *)
Lemma find_principled_app ns extra p principled :
  find_principled ns = Some (p, principled) ->
  find_principled (ns ++ extra) = Some (p, principled).
Proof. apply list_find_app_l. Qed.

Lemma find_principled_set_image ns img tex p principled :
  find_principled ns = Some (p, principled) ->
  exists principled',
    find_principled (alter (set_image img) tex ns) = Some (p, principled')
    /\ node_inputs principled' = node_inputs principled.
Proof.
  unfold find_principled. intros (Hp & Hty & Hfirst)%list_find_Some.
  destruct (decide (tex = p)) as [->|Hne].
  - exists (set_image img principled). split; [|done].
    apply list_find_Some. rewrite list_lookup_alter_eq, Hp.
    split; [done|]. split; [done|].
    intros j y Hj Hlt. rewrite list_lookup_alter_ne in Hj by lia. eauto.
  - exists principled. split; [|done].
    apply list_find_Some. rewrite list_lookup_alter_ne by done.
    split; [done|]. split; [done|].
    intros j y Hj Hlt. destruct (decide (tex = j)) as [->|Hne'].
    + rewrite list_lookup_alter_eq in Hj.
      destruct (ns !! j) as [n|] eqn:Hn; simplify_eq/=.
      by apply (Hfirst j n).
    + rewrite list_lookup_alter_ne in Hj by done. eauto.
Qed.

Section BinderFacts.

Variable path_exists : string -> bool.
Variable load_raises : string -> bool.

Local Abbreviation bind := (replace_texture_in_nodes path_exists load_raises).
Local Abbreviation assign := (assign_image path_exists load_raises).

(** Once the shader node is found and the input resolved, the binder rewires
    the graph and only then turns to the file. *)
Lemma bind_reaches_image d m material p principled tex_key target path :
  materials d !! m = Some material ->
  use_nodes material = true ->
  find_principled (nodes (node_tree material)) = Some (p, principled) ->
  resolve_input tex_key principled = Some target ->
  bind d m tex_key path
  = let '(t2, tex) := wired (node_tree material) tex_key p principled target in
    assign d m material t2 tex tex_key path.
Proof.
  intros Hm Huse Hp Hres. unfold replace_texture_in_nodes, wired.
  rewrite Hm, Huse, Hp, Hres. simpl.
  destruct (ensure_texture_node _ _ _) as [t1 tex].
  by rewrite (resolve_input_has_input _ _ _ Hres).
Qed.

(** A bind that answers [True] went through every stage. *)
Lemma bind_true_inv d m tex_key path d' :
  bind d m tex_key path = (RetTrue, d') ->
  exists material p principled target,
    materials d !! m = Some material
    /\ use_nodes material = true
    /\ find_principled (nodes (node_tree material)) = Some (p, principled)
    /\ resolve_input tex_key principled = Some target.
Proof.
  unfold replace_texture_in_nodes.
  destruct (materials d !! m) as [material|]; [|done].
  destruct (use_nodes material) eqn:Huse; [|done]. simpl.
  destruct (find_principled _) as [[p principled]|] eqn:Hp; [|done].
  destruct (resolve_input tex_key principled) as [target|] eqn:Hres; [|done].
  intros _. by exists material, p, principled, target.
Qed.

(** The four ways the last stage can go. *)
Lemma assign_image_missing d m mat t tex tex_key path :
  path_exists path = false ->
  assign d m mat t tex tex_key path
  = (RetFalse, with_material d m (set_tree t mat)).
Proof. unfold assign_image. by intros ->. Qed.

Lemma assign_image_reuse d m mat t tex tex_key path i img :
  path_exists path = true ->
  find_image (images d) path = Some (i, img) ->
  assign d m mat t tex tex_key path
  = (RetTrue,
     with_images
       (with_material d m
          (set_tree (mkTree (alter (set_image i) tex (nodes t)) (links t)) mat))
       (alter (set_colorspace (colorspace_for tex_key)) i (images d))).
Proof. unfold assign_image. by intros -> ->. Qed.

Lemma assign_image_load d m mat t tex tex_key path :
  path_exists path = true ->
  find_image (images d) path = None ->
  load_raises path = false ->
  assign d m mat t tex tex_key path
  = (RetTrue,
     with_images
       (with_material d m
          (set_tree (mkTree (alter (set_image (length (images d))) tex (nodes t))
                            (links t)) mat))
       (images d ++ [mkImage path (colorspace_for tex_key)])).
Proof.
  unfold assign_image. intros -> -> ->. by rewrite alter_snoc.
Qed.

Lemma assign_image_load_error d m mat t tex tex_key path :
  path_exists path = true ->
  find_image (images d) path = None ->
  load_raises path = true ->
  assign d m mat t tex tex_key path
  = (RetFalse, with_material d m (set_tree t mat)).
Proof. unfold assign_image. by intros -> -> ->. Qed.

(** The answer of the last stage, in one line. *)
Lemma assign_image_result d m mat t tex tex_key path :
  (assign d m mat t tex tex_key path).1
  = if path_exists path
       && (bool_decide (is_Some (find_image (images d) path))
           || negb (load_raises path))
    then RetTrue else RetFalse.
Proof.
  unfold assign_image. destruct (path_exists path); [|done]. simpl.
  destruct (find_image (images d) path) as [[i img]|]; [done|]. simpl.
  by destruct (load_raises path).
Qed.

End BinderFacts.

Lemma input_mapping_keys tex_key primary :
  dict_get tex_key input_mapping = Some primary ->
  tex_key = "diffuse" \/ tex_key = "normal"
  \/ tex_key = "roughness" \/ tex_key = "specular".
Proof.
  unfold input_mapping. cbn [dict_get].
  destruct (String.eqb "diffuse" tex_key) eqn:H1;
    [apply String.eqb_eq in H1; auto|].
  destruct (String.eqb "normal" tex_key) eqn:H2;
    [apply String.eqb_eq in H2; auto|].
  destruct (String.eqb "roughness" tex_key) eqn:H3;
    [apply String.eqb_eq in H3; auto|].
  destruct (String.eqb "specular" tex_key) eqn:H4;
    [apply String.eqb_eq in H4; auto 6|done].
Qed.

Lemma resolve_input_keys tex_key principled target :
  resolve_input tex_key principled = Some target ->
  tex_key = "diffuse" \/ tex_key = "normal"
  \/ tex_key = "roughness" \/ tex_key = "specular".
Proof.
  unfold resolve_input.
  destruct (dict_get tex_key input_mapping) as [primary|] eqn:Hget; [|done].
  intros _. by eapply input_mapping_keys.
Qed.

Lemma find_image_Some imgs path i img :
  find_image imgs path = Some (i, img) -> imgs !! i = Some img /\ filepath img = path.
Proof. by intros (? & ? & _)%list_find_Some. Qed.

(** Retagging an image keeps it findable under its path. *)
Lemma find_image_set_colorspace imgs path cs j :
  is_Some (find_image imgs path) ->
  is_Some (find_image (alter (set_colorspace cs) j imgs) path).
Proof.
  intros [[i img] [Hi Hpath]%find_image_Some].
  destruct (decide (j = i)) as [->|Hne].
  - apply (list_find_elem_of _ _ (set_colorspace cs img)); [|done].
    apply list_elem_of_lookup. exists i. by rewrite list_lookup_alter_eq, Hi.
  - apply (list_find_elem_of _ _ img); [|done].
    apply list_elem_of_lookup. exists i. by rewrite list_lookup_alter_ne.
Qed.

Section BinderOutcomes.

Variable path_exists : string -> bool.
Variable load_raises : string -> bool.

Local Abbreviation bind := (replace_texture_in_nodes path_exists load_raises).
Local Abbreviation assign := (assign_image path_exists load_raises).

(** What one bind does to the image collection. *)
Lemma bind_images_cases d m tex_key path res d' :
  bind d m tex_key path = (res, d') ->
  (res <> RetTrue /\ images d' = images d)
  \/ (res = RetTrue
      /\ exists i img,
           find_image (images d) path = Some (i, img)
           /\ images d' = alter (set_colorspace (colorspace_for tex_key)) i (images d))
  \/ (res = RetTrue
      /\ find_image (images d) path = None
      /\ images d' = images d ++ [mkImage path (colorspace_for tex_key)]).
Proof.
  unfold replace_texture_in_nodes.
  destruct (materials d !! m) as [material|]; [|intros [= <- <-]; by left].
  destruct (negb (use_nodes material)); [intros [= <- <-]; by left|].
  destruct (find_principled _) as [[p principled]|]; [|intros [= <- <-]; by left].
  destruct (resolve_input tex_key principled) as [target|];
    [|intros [= <- <-]; by left].
  destruct (ensure_texture_node _ _ _) as [t1 tex].
  destruct (has_input target principled); [|intros [= <- <-]; by left].
  unfold assign_image.
  destruct (path_exists path); [|intros [= <- <-]; by left].
  destruct (find_image (images d) path) as [[i img]|] eqn:Hfind.
  - intros [= <- <-]. right. left. split; [done|]. by exists i, img.
  - destruct (load_raises path); [intros [= <- <-]; by left|].
    intros [= <- <-]. right. right. simpl. by rewrite alter_snoc.
Qed.

(** After a bind that succeeded, the texture node of the role carries the
    image found or loaded. *)
Lemma bind_true_node_image d m tex_key path d' :
  bind d m tex_key path = (RetTrue, d') ->
  exists mat' tex node,
    materials d' !! m = Some mat'
    /\ nodes (node_tree mat') !! tex = Some node
    /\ node_type node = "TEX_IMAGE"
    /\ node_image node
       = Some (match find_image (images d) path with
               | Some (i, _) => i
               | None => length (images d)
               end).
Proof.
  intros Hbind.
  destruct (bind_true_inv _ _ _ _ _ _ _ Hbind)
    as (material & p & principled & target & Hm & Huse & Hp & Hres).
  rewrite (bind_reaches_image _ _ _ _ _ _ _ _ _ _ Hm Huse Hp Hres) in Hbind.
  destruct (wired _ _ _ _ _) as [t2 tex] eqn:Hw.
  apply wired_spec in Hw as (extra & _ & _ & _ & _ & Htex & _).
  apply node_has_type_lookup in Htex as (n0 & Hn0 & Hty0).
  assert (Hlt : m < length (materials d)) by by eapply lookup_lt_Some.
  destruct (path_exists path) eqn:Hex;
    [|by rewrite assign_image_missing in Hbind].
  destruct (find_image (images d) path) as [[i img]|] eqn:Hfind.
  - rewrite (assign_image_reuse _ _ _ _ _ _ _ _ _ i img) in Hbind by done.
    injection Hbind as <-. eexists _, tex, (set_image i n0). simpl.
    rewrite list_lookup_insert_eq by done. split; [done|]. simpl.
    rewrite list_lookup_alter_eq, Hn0. by repeat split.
  - destruct (load_raises path) eqn:Hload;
      [by rewrite assign_image_load_error in Hbind|].
    rewrite assign_image_load in Hbind by done.
    injection Hbind as <-. eexists _, tex, (set_image (length (images d)) n0).
    simpl. rewrite list_lookup_insert_eq by done. split; [done|]. simpl.
    rewrite list_lookup_alter_eq, Hn0. by repeat split.
Qed.

(** A path that some loaded image carries is never loaded again. *)
Lemma bind_loaded_path_no_growth d m tex_key path :
  is_Some (find_image (images d) path) ->
  length (images (bind d m tex_key path).2) = length (images d).
Proof.
  intros [[i img] Hfind].
  destruct (bind d m tex_key path) as [res d'] eqn:Hbind. simpl.
  apply bind_images_cases in Hbind
    as [[_ ->]|[(_ & i' & img' & _ & ->)|(_ & Hnone & _)]];
    [done|apply length_alter|congruence].
Qed.

End BinderOutcomes.

(** C7: after a bind that succeeded the texture node of the role carries an
    image whose path is the one bound and whose color-space tag is fixed by
    the role alone: 'sRGB' for the diffuse role, 'Non-Color' for the normal,
    roughness and specular roles; the tag is the last thing written, on the
    image that was found or loaded. *)
Theorem bind_colorspace_by_role :
  forall path_exists load_raises d m tex_key path d',
    replace_texture_in_nodes path_exists load_raises d m tex_key path
    = (RetTrue, d') ->
    (exists mat' tex node i img,
        materials d' !! m = Some mat'
        /\ nodes (node_tree mat') !! tex = Some node
        /\ node_type node = "TEX_IMAGE"
        /\ node_image node = Some i
        /\ images d' !! i = Some img
        /\ filepath img = path
        /\ colorspace img = colorspace_for tex_key)
    /\ (tex_key = "diffuse" /\ colorspace_for tex_key = "sRGB"
        \/ (tex_key = "normal" \/ tex_key = "roughness" \/ tex_key = "specular")
           /\ colorspace_for tex_key = "Non-Color").
Proof.
  intros pe lr d m tex_key path d' Hbind. split.
  - destruct (bind_true_node_image _ _ _ _ _ _ _ Hbind)
      as (mat' & tex & node & Hm & Hnode & Hty & Himg).
    exists mat', tex, node.
    apply bind_images_cases in Hbind
      as [[? _]|[(_ & i & img & Hfind & Himgs)|(_ & Hnone & Himgs)]]; [done|..].
    + rewrite Hfind in Himg. apply find_image_Some in Hfind as [Hi Hpath].
      exists i, (set_colorspace (colorspace_for tex_key) img).
      rewrite Himgs, list_lookup_alter_eq, Hi. by repeat split.
    + rewrite Hnone in Himg.
      exists (length (images d)), (mkImage path (colorspace_for tex_key)).
      rewrite Himgs, list_lookup_middle by done. by repeat split.
  - destruct (bind_true_inv _ _ _ _ _ _ _ Hbind)
      as (_ & _ & principled & target & _ & _ & _ & Hres).
    apply resolve_input_keys in Hres as [-> | [-> | [-> | ->]]]; [by left|..];
      right; (split; [auto|done]).
Qed.

(** C9: a bind whose path is carried by an image already loaded loads
    nothing: the image collection keeps its length and its paths, and on
    success the texture node points at that very image, the first one with
    the path; a new image is appended only when no loaded image has the path
    (and then exactly one, which the node points at); once a bind with a
    path has succeeded, no later bind with that path, for any material or
    role, loads again.  And the reuse does happen: on a material that uses
    nodes, has a shader node and an input for the role, a bind whose file
    exists and whose path a loaded image carries answers [True], retags that
    image and nothing else, and leaves the texture node that feeds the
    role's socket pointing at it; when no loaded image has the path and the
    load does not raise, it answers [True] with the one new image on that
    node. *)
Theorem bind_reuses_loaded_image :
  forall path_exists load_raises d m tex_key path res d',
    replace_texture_in_nodes path_exists load_raises d m tex_key path = (res, d') ->
    (forall i img,
        find_image (images d) path = Some (i, img) ->
        length (images d') = length (images d)
        /\ filepath <$> images d' = filepath <$> images d
        /\ (res = RetTrue ->
            exists mat' tex node,
              materials d' !! m = Some mat'
              /\ nodes (node_tree mat') !! tex = Some node
              /\ node_image node = Some i))
    /\ (length (images d') <> length (images d) ->
        find_image (images d) path = None
        /\ res = RetTrue
        /\ images d' = images d ++ [mkImage path (colorspace_for tex_key)]
        /\ exists mat' tex node,
             materials d' !! m = Some mat'
             /\ nodes (node_tree mat') !! tex = Some node
             /\ node_image node = Some (length (images d)))
    /\ (res = RetTrue ->
        forall m2 tex_key2,
          length (images (replace_texture_in_nodes path_exists load_raises
                            d' m2 tex_key2 path).2)
          = length (images d'))
    /\ (forall material p principled target,
          materials d !! m = Some material ->
          use_nodes material = true ->
          find_principled (nodes (node_tree material)) = Some (p, principled) ->
          resolve_input tex_key principled = Some target ->
          path_exists path = true ->
          (forall i img,
              find_image (images d) path = Some (i, img) ->
              res = RetTrue
              /\ images d'
                 = alter (set_colorspace (colorspace_for tex_key)) i (images d)
              /\ exists mat' tex node,
                   materials d' !! m = Some mat'
                   /\ nodes (node_tree mat') !! tex = Some node
                   /\ node_type node = "TEX_IMAGE"
                   /\ node_image node = Some i
                   /\ feeds_role (node_tree mat') tex_key p tex target)
          /\ (find_image (images d) path = None ->
              load_raises path = false ->
              res = RetTrue
              /\ images d' = images d ++ [mkImage path (colorspace_for tex_key)]
              /\ exists mat' tex node,
                   materials d' !! m = Some mat'
                   /\ nodes (node_tree mat') !! tex = Some node
                   /\ node_type node = "TEX_IMAGE"
                   /\ node_image node = Some (length (images d))
                   /\ feeds_role (node_tree mat') tex_key p tex target)).
Proof.
  intros pe lr d m tex_key path res d' Hbind.
  pose proof (bind_images_cases _ _ _ _ _ _ _ _ Hbind) as Hcases.
  split; [|split; [|split]]; cycle 3.
  { intros material p principled target Hm Huse Hp Hres Hex.
    rewrite (bind_reaches_image _ _ _ _ _ _ _ _ _ _ Hm Huse Hp Hres) in Hbind.
    destruct (wired _ _ _ _ _) as [t2 tex] eqn:Hw.
    apply wired_spec in Hw as (extra & _ & _ & _ & _ & Htex & Hsock).
    apply node_has_type_lookup in Htex as (n0 & Hn0 & Hty0).
    assert (Hlt : m < length (materials d)) by by eapply lookup_lt_Some.
    split.
    - intros i img Hfind.
      rewrite (assign_image_reuse _ _ _ _ _ _ _ _ _ i img) in Hbind by done.
      injection Hbind as <- <-. split; [done|]. split; [done|].
      eexists _, tex, (set_image i n0). simpl.
      rewrite list_lookup_insert_eq by done. split; [done|]. simpl.
      rewrite list_lookup_alter_eq, Hn0. do 3 (split; [done|]).
      unfold feeds_role. destruct (String.eqb tex_key "normal"); [|done].
      destruct Hsock as (nm & Hnm & Hcolor & Hnormal). exists nm.
      simpl. by rewrite node_has_type_alter_image.
    - intros Hnone Hload.
      rewrite assign_image_load in Hbind by done.
      injection Hbind as <- <-. split; [done|]. split; [done|].
      eexists _, tex, (set_image (length (images d)) n0). simpl.
      rewrite list_lookup_insert_eq by done. split; [done|]. simpl.
      rewrite list_lookup_alter_eq, Hn0. do 3 (split; [done|]).
      unfold feeds_role. destruct (String.eqb tex_key "normal"); [|done].
      destruct Hsock as (nm & Hnm & Hcolor & Hnormal). exists nm.
      simpl. by rewrite node_has_type_alter_image. }
  - intros i img Hfind.
    destruct Hcases as [[Hres Himgs]|[(Hres & i' & img' & Hfind' & Himgs)|(_ & Hnone & _)]];
      [|rewrite Hfind in Hfind'; injection Hfind' as <- <-|congruence];
      rewrite Himgs.
    + by repeat split.
    + split; [apply length_alter|]. split.
      * rewrite (list_fmap_alter filepath (set_colorspace _) (fun p => p))
          by (apply Forall_forall; done).
        by rewrite list_alter_id.
      * intros _. subst res.
        destruct (bind_true_node_image _ _ _ _ _ _ _ Hbind)
          as (mat' & tex & node & Hm & Hnode & _ & Himg).
        rewrite Hfind in Himg. by exists mat', tex, node.
  - intros Hlen.
    destruct Hcases as [[_ Heq]|[(_ & i & img & _ & Heq)|(Hres & Hnone & Heq)]].
    + by rewrite Heq in Hlen.
    + rewrite Heq, length_alter in Hlen. done.
    + subst res. repeat split; [done..|].
      destruct (bind_true_node_image _ _ _ _ _ _ _ Hbind)
        as (mat' & tex & node & Hm & Hnode & _ & Himg).
      rewrite Hnone in Himg. by exists mat', tex, node.
  - intros -> m2 tex_key2. apply bind_loaded_path_no_growth.
    destruct Hcases as [[? _]|[(_ & i & img & Hfind & Heq)|(_ & Hnone & Heq)]];
      [done|..]; rewrite Heq.
    + apply find_image_set_colorspace. by rewrite Hfind.
    + apply (list_find_elem_of _ _ (mkImage path (colorspace_for tex_key)));
        [|done].
      apply elem_of_app. right. by apply list_elem_of_singleton.
Qed.

Section BinderSteps.

Variable path_exists : string -> bool.
Variable load_raises : string -> bool.

Local Abbreviation bind := (replace_texture_in_nodes path_exists load_raises).
Local Abbreviation assign := (assign_image path_exists load_raises).

(** The last stage writes the material back with the tree it was given,
    changed at most by one image assignment. *)
Lemma assign_image_material d m mat t tex tex_key path :
  exists t',
    materials (assign d m mat t tex tex_key path).2
    = <[m := set_tree t' mat]> (materials d)
    /\ links t' = links t
    /\ (nodes t' = nodes t
        \/ exists i, nodes t' = alter (set_image i) tex (nodes t)).
Proof.
  unfold assign_image. destruct (path_exists path).
  - destruct (find_image (images d) path) as [[i img]|].
    + eexists (mkTree _ _). split; [done|]. split; [done|]. right. by exists i.
    + destruct (load_raises path).
      * exists t. repeat split. by left.
      * eexists (mkTree _ _). split; [done|]. split; [done|]. right. by eexists.
  - exists t. repeat split. by left.
Qed.

(** One bind on a material whose shader node is found and whose input
    resolves: the graph is rewired, the material written back, and the
    answer depends on the file alone. *)
Lemma bind_step d m material p principled tex_key target path :
  materials d !! m = Some material ->
  use_nodes material = true ->
  find_principled (nodes (node_tree material)) = Some (p, principled) ->
  resolve_input tex_key principled = Some target ->
  exists t2 tex t',
    wired (node_tree material) tex_key p principled target = (t2, tex)
    /\ materials (bind d m tex_key path).2
       = <[m := set_tree t' material]> (materials d)
    /\ links t' = links t2
    /\ (nodes t' = nodes t2
        \/ exists i, nodes t' = alter (set_image i) tex (nodes t2))
    /\ (bind d m tex_key path).1
       = if path_exists path
            && (bool_decide (is_Some (find_image (images d) path))
                || negb (load_raises path))
         then RetTrue else RetFalse.
Proof.
  intros Hm Huse Hp Hres.
  rewrite (bind_reaches_image _ _ _ _ _ _ _ _ _ _ Hm Huse Hp Hres).
  destruct (wired _ _ _ _ _) as [t2 tex].
  destruct (assign_image_material d m material t2 tex tex_key path)
    as (t' & Hmat & Hlinks & Hnodes).
  exists t2, tex, t'. repeat split; [done..|].
  apply assign_image_result.
Qed.

End BinderSteps.

(** C10: on a material whose shader node is found and whose input resolves,
    a bind with a missing file answers [False] after the graph was rewired:
    the material is written back with the old nodes in place, any node the
    bind created appended (at least one when no texture node was connected
    yet), a texture node wired to the input (through a decoder node for the
    normal role) by the only link now held by that socket; the image
    collection and every node's image are as before. *)
Theorem bind_missing_file_not_atomic :
  forall path_exists load_raises d m material p principled tex_key target path,
    materials d !! m = Some material ->
    use_nodes material = true ->
    find_principled (nodes (node_tree material)) = Some (p, principled) ->
    resolve_input tex_key principled = Some target ->
    path_exists path = false ->
    exists d' mat' tex extra,
      replace_texture_in_nodes path_exists load_raises d m tex_key path
      = (RetFalse, d')
      /\ images d' = images d
      /\ materials d' !! m = Some mat'
      /\ nodes (node_tree mat') = nodes (node_tree material) ++ extra
      /\ Forall (fun n => node_image n = None) extra
      /\ (find_connected_texture (node_tree material) p principled target = None ->
          1 <= length extra)
      /\ node_has_type (nodes (node_tree mat')) "TEX_IMAGE" tex = true
      /\ if String.eqb tex_key "normal"
         then exists nm,
                node_has_type (nodes (node_tree mat')) "NORMAL_MAP" nm = true
                /\ socket_links (node_tree mat') nm "Color"
                   = [mkLink tex "Color" nm "Color"]
                /\ socket_links (node_tree mat') p "Normal"
                   = [mkLink nm "Normal" p "Normal"]
         else socket_links (node_tree mat') p target
              = [mkLink tex "Color" p target].
Proof.
  intros pe lr d m material p principled tex_key target path
    Hm Huse Hp Hres Hmissing.
  rewrite (bind_reaches_image _ _ _ _ _ _ _ _ _ _ Hm Huse Hp Hres).
  destruct (wired _ _ _ _ _) as [t2 tex] eqn:Hw.
  rewrite assign_image_missing by done.
  apply wired_spec in Hw as (extra & Hnodes & Hextra & Hgrow & _ & Htex & Hlinks).
  exists (with_material d m (set_tree t2 material)), (set_tree t2 material), tex, extra.
  split; [done|]. split; [done|]. split.
  { simpl. apply list_lookup_insert_eq. by eapply lookup_lt_Some. }
  split; [done|]. split.
  { eapply Forall_impl; [exact Hextra|]. by intros n [? _]. }
  split; [done|]. split; [done|]. exact Hlinks.
Qed.

(** * Failed binds in the tally *)

Section TallyFacts.

Variable path_exists : string -> bool.
Variable load_raises : string -> bool.

Local Abbreviation bind := (replace_texture_in_nodes path_exists load_raises).

Lemma enable_nodes_ready d m :
  shader_ready d m -> ready_with_nodes (enable_nodes d m) m.
Proof.
  intros (mat & p & principled & Hm & Hp & Hall).
  exists (set_use_nodes true mat), p, principled. simpl.
  rewrite list_lookup_alter_eq, Hm. by repeat split.
Qed.

(** A bind keeps the material ready, and succeeds exactly when the file is
    there and the image is at hand or loads. *)
Lemma bind_keeps_ready d m tex_key path :
  ready_with_nodes d m ->
  In tex_key roles ->
  ready_with_nodes (bind d m tex_key path).2 m
  /\ (bind d m tex_key path).1
     = if path_exists path
          && (bool_decide (is_Some (find_image (images d) path))
              || negb (load_raises path))
       then RetTrue else RetFalse.
Proof.
  intros (mat & p & principled & Hm & Huse & Hp & Hall) Hkey.
  assert (Hres : is_Some (resolve_input tex_key principled)).
  { rewrite Forall_forall in Hall. apply Hall. by apply list_elem_of_In. }
  destruct Hres as [target Hres].
  destruct (bind_step path_exists load_raises d m mat p principled tex_key
              target path Hm Huse Hp Hres)
    as (t2 & tex & t' & Hw & Hmat & _ & Hnodes & Hanswer).
  split; [|exact Hanswer].
  apply wired_spec in Hw as (extra & Hnodes2 & _).
  assert (Hp2 : find_principled (nodes t2) = Some (p, principled)).
  { rewrite Hnodes2. by apply find_principled_app. }
  assert (Hlt : m < length (materials d)) by by eapply lookup_lt_Some.
  destruct Hnodes as [Hsame|[i Halter]].
  - exists (set_tree t' mat), p, principled.
    rewrite Hmat, list_lookup_insert_eq by done. simpl.
    rewrite Hsame. by repeat split.
  - destruct (find_principled_set_image _ i tex _ _ Hp2)
      as (principled' & Hp' & Hinputs).
    exists (set_tree t' mat), p, principled'.
    rewrite Hmat, list_lookup_insert_eq by done. simpl.
    rewrite Halter. repeat split; [done..|].
    eapply Forall_impl; [exact Hall|].
    intros k Hk. simpl in Hk. by rewrite (resolve_input_inputs k _ principled).
Qed.

(** Over a table whose files load whenever they exist, the role loop counts
    one success per existing file. *)
Lemma apply_roles_success items m s :
  ready_with_nodes (scene s) m ->
  Forall (fun kp : string * string =>
            In kp.1 roles
            /\ (path_exists kp.2 = true -> load_raises kp.2 = false)) items ->
  success_count (apply_roles path_exists load_raises items m s)
  = success_count s + length (List.filter path_exists (List.map snd items)).
Proof.
  intros Hready Hitems. revert s Hready.
  induction Hitems as [|[tex_key tex_path] items [Hkey Hload] _ IH];
    intros s Hready; [simpl; lia|].
  cbn [fst snd] in Hkey, Hload.
  destruct (bind_keeps_ready (scene s) m tex_key tex_path Hready Hkey)
    as [Hready' Hanswer].
  cbn [apply_roles List.map List.filter snd].
  destruct (bind (scene s) m tex_key tex_path) as [result d'].
  cbn [fst snd] in Hready', Hanswer. rewrite IH by done.
  cbn [success_count]. rewrite Hanswer.
  destruct (path_exists tex_path) eqn:Hex.
  - rewrite Hload by done. rewrite orb_true_r. simpl. lia.
  - simpl. lia.
Qed.

Lemma apply_slots_one items m s :
  apply_slots path_exists load_raises items [Some m] s
  = apply_roles path_exists load_raises items m
      (mkTally (enable_nodes (scene s) m) (success_count s) (total_count s)).
Proof. done. Qed.

(** A missing file never counts as a success. *)
Lemma bind_missing_not_true d m tex_key path :
  path_exists path = false ->
  truthy (bind d m tex_key path).1 = false.
Proof.
  intros Hmissing.
  destruct (bind d m tex_key path) as [res d'] eqn:Hbind. simpl.
  destruct res; try done.
  destruct (bind_true_inv _ _ _ _ _ _ _ Hbind)
    as (material & p & principled & target & Hm & Huse & Hp & Hres).
  rewrite (bind_reaches_image _ _ _ _ _ _ _ _ _ _ Hm Huse Hp Hres) in Hbind.
  destruct (wired _ _ _ _ _) as [t2 tex].
  by rewrite assign_image_missing in Hbind.
Qed.

End TallyFacts.

(** C8: a bind with a missing file is never a success, whatever the
    material and the role; and on a material that can take every role, with
    files that load whenever they exist, the walk over one slot makes four
    attempts and counts one success for every path that exists, each role on
    its own: with exactly one of the four files missing, three successes
    out of four attempts. *)
Theorem missing_file_fails_one_role :
  forall path_exists load_raises
         diffuse_path normal_path roughness_path specular_path m s,
    let paths := [diffuse_path; normal_path; roughness_path; specular_path] in
    let s' :=
      apply_slots path_exists load_raises
        (texture_paths diffuse_path normal_path roughness_path specular_path)
        [Some m] s in
    shader_ready (scene s) m ->
    (forall path, In path paths ->
                  path_exists path = true -> load_raises path = false) ->
    (forall d tex_key path,
        path_exists path = false ->
        truthy (replace_texture_in_nodes path_exists load_raises
                  d m tex_key path).1 = false)
    /\ total_count s' = total_count s + 4
    /\ success_count s'
       = success_count s + length (List.filter path_exists paths)
    /\ (length (List.filter (fun path => negb (path_exists path)) paths) = 1 ->
        success_count s' = success_count s + 3).
Proof.
  intros pe lr dp np rp sp m s paths s' Hready Hload.
  assert (Hsucc : success_count s'
                  = success_count s + length (List.filter pe paths)).
  { unfold s'. rewrite apply_slots_one.
    rewrite apply_roles_success; [done|by apply enable_nodes_ready|].
    unfold texture_paths, roles. repeat constructor; simpl; auto 10;
      intros; apply Hload; simpl; auto. }
  split; [intros; by apply bind_missing_not_true|].
  split; [unfold s'; by rewrite apply_slots_total|].
  split; [exact Hsucc|].
  intros Hone. rewrite Hsucc. f_equal.
  pose proof (List.filter_length pe paths) as Hlen.
  change (length paths) with 4 in Hlen.
  replace (List.filter (fun x => negb (pe x)) paths)
    with (List.filter (fun path => negb (pe path)) paths) in Hlen by done.
  lia.
Qed.

(** * Binding a role twice *)

Lemma node_has_type_other ns ty ty' i :
  node_has_type ns ty i = true -> ty <> ty' -> node_has_type ns ty' i = false.
Proof.
  unfold node_has_type. destruct (ns !! i) as [n|]; [|done].
  intros ->%String.eqb_eq Hne. by apply String.eqb_neq.
Qed.

(** Assigning an image changes no node's type or name. *)
Lemma filter_type_set_image (f : string -> bool) ns img tex :
  length (List.filter (fun n => f (node_type n)) (alter (set_image img) tex ns))
  = length (List.filter (fun n => f (node_type n)) ns).
Proof.
  revert tex. induction ns as [|n ns IH]; intros [|tex]; csimpl; try done.
  - by destruct (f (node_type n)).
  - destruct (f (node_type n)); csimpl; by rewrite IH.
Qed.

Lemma find_normal_map_set_image ns tex_key img tex :
  is_Some (find_normal_map ns tex_key) ->
  is_Some (find_normal_map (alter (set_image img) tex ns) tex_key).
Proof.
  intros [[j n] (Hj & Hn & _)%list_find_Some].
  destruct (decide (tex = j)) as [->|Hne].
  - apply (list_find_elem_of _ _ (set_image img n)); [|done].
    apply list_elem_of_lookup. exists j. by rewrite list_lookup_alter_eq, Hj.
  - apply (list_find_elem_of _ _ n); [|done].
    apply list_elem_of_lookup. exists j. by rewrite list_lookup_alter_ne.
Qed.

(** After the normal role was wired, a decoder node is there to be found. *)
Lemma wired_normal_decoder t p principled target t2 tex :
  wired t "normal" p principled target = (t2, tex) ->
  is_Some (find_normal_map (nodes t2) "normal").
Proof.
  unfold wired. destruct (ensure_texture_node _ _ _) as [t1 tex1].
  intros [= <- <-].
  destruct (connect_normal t1 p tex1 target)
    as (nm & decoder & extra & -> & Hfind & _). simpl. by rewrite Hfind.
Qed.

(** Wiring the normal role on a tree whose "Normal" input is fed by a
    decoder node: the link scan sees no texture node there, so a texture
    node is appended; the decoder node is found by name and kept. *)
Lemma wired_normal_again t p principled nm :
  socket_links t p "Normal" = [mkLink nm "Normal" p "Normal"] ->
  node_has_type (nodes t) "NORMAL_MAP" nm = true ->
  is_Some (find_normal_map (nodes t) "normal") ->
  exists t3 tex node,
    wired t "normal" p principled "Normal" = (t3, tex)
    /\ nodes t3 = nodes t ++ [node]
    /\ node_type node = "TEX_IMAGE".
Proof.
  intros Hlinks Hnm [[j decoder] Hdec]. unfold wired.
  rewrite find_connected_texture_none.
  2:{ rewrite Hlinks. repeat constructor. simpl.
      by apply (node_has_type_other _ "NORMAL_MAP"). }
  destruct (ensure_texture_node_fresh t "normal") as (node & -> & Hty & _).
  destruct (connect_normal (mkTree (nodes t ++ [node]) (links t)) p
              (length (nodes t)) "Normal")
    as (nm' & decoder' & extra & -> & _ & Hlen & _).
  simpl in Hlen. unfold find_normal_map in *.
  rewrite (list_find_app_l _ _ _ _ _ Hdec) in Hlen.
  destruct extra; [|done]. rewrite app_nil_r.
  by eexists _, _, node.
Qed.

(** Wiring another role on a tree whose input is fed by a texture node:
    the node is found through the link and no node is added. *)
Lemma wired_direct_again t tex_key p principled target tex :
  String.eqb tex_key "normal" = false ->
  has_input target principled = true ->
  socket_links t p target = [mkLink tex "Color" p target] ->
  node_has_type (nodes t) "TEX_IMAGE" tex = true ->
  exists t3,
    wired t tex_key p principled target = (t3, tex) /\ nodes t3 = nodes t.
Proof.
  intros Hkey Hin Hlinks Htex. unfold wired.
  rewrite (find_connected_texture_single _ _ _ _ tex) by done.
  rewrite ensure_texture_node_reuse, connect_direct by done.
  by eexists.
Qed.

Section Rebind.

Variable path_exists : string -> bool.
Variable load_raises : string -> bool.

Local Abbreviation bind := (replace_texture_in_nodes path_exists load_raises).

(** The tree a bind writes back, measured against the tree it wired. *)
Lemma written_tree_counts (t2 t' : NodeTree) tex :
  (nodes t' = nodes t2 \/ exists i, nodes t' = alter (set_image i) tex (nodes t2)) ->
  length (nodes t') = length (nodes t2)
  /\ length (sampler_nodes t') = length (sampler_nodes t2)
  /\ length (decoder_nodes t') = length (decoder_nodes t2)
  /\ (forall ty i, node_has_type (nodes t') ty i = node_has_type (nodes t2) ty i)
  /\ (forall k, is_Some (find_normal_map (nodes t2) k) ->
                is_Some (find_normal_map (nodes t') k)).
Proof.
  unfold sampler_nodes, decoder_nodes. intros [->|[i ->]]; [done|].
  rewrite length_alter.
  rewrite (filter_type_set_image (fun ty => String.eqb ty "TEX_IMAGE")).
  rewrite (filter_type_set_image (fun ty => String.eqb ty "NORMAL_MAP")).
  repeat split; [|intros; by apply find_normal_map_set_image].
  intros ty j. apply node_has_type_alter_image.
Qed.

(** The shader node after a bind: in place, with the inputs it had. *)
Lemma written_tree_principled (t2 t' : NodeTree) tex p principled :
  (nodes t' = nodes t2 \/ exists i, nodes t' = alter (set_image i) tex (nodes t2)) ->
  find_principled (nodes t2) = Some (p, principled) ->
  exists principled',
    find_principled (nodes t') = Some (p, principled')
    /\ node_inputs principled' = node_inputs principled.
Proof.
  intros [->|[i ->]] Hp; [by exists principled|].
  by apply find_principled_set_image.
Qed.

End Rebind.

Lemma node_has_type_counted ns ty i :
  node_has_type ns ty i = true ->
  1 <= length (List.filter (fun n => String.eqb (node_type n) ty) ns).
Proof.
  intros (n & Hn & Hty)%node_has_type_lookup.
  assert (Hin : In n (List.filter (fun n => String.eqb (node_type n) ty) ns)).
  { apply filter_In. split.
    - apply list_elem_of_In, list_elem_of_lookup. eauto.
    - by apply String.eqb_eq. }
  destruct (List.filter _ ns); [done|simpl; lia].
Qed.

Lemma resolve_input_normal principled :
  has_input "Normal" principled = true ->
  resolve_input "normal" principled = Some "Normal".
Proof. intros Hin. unfold resolve_input. simpl. by rewrite Hin. Qed.

(** C1, as the code has it for the normal role: on a material with a shader
    node that has a "Normal" input, binding the normal role a second time
    with the same path does not reuse the texture node of the first bind.
    The "Normal" input is fed by the decoder node, so the scan for a
    connected texture node finds none and one more texture node is appended:
    the node count and the number of texture nodes both grow by one. *)
Theorem normal_rebind_duplicates_sampler :
  forall path_exists load_raises d m material p principled path,
    materials d !! m = Some material ->
    use_nodes material = true ->
    find_principled (nodes (node_tree material)) = Some (p, principled) ->
    has_input "Normal" principled = true ->
    let d1 := (replace_texture_in_nodes path_exists load_raises
                 d m "normal" path).2 in
    let d2 := (replace_texture_in_nodes path_exists load_raises
                 d1 m "normal" path).2 in
    exists mat1 mat2,
      materials d1 !! m = Some mat1
      /\ materials d2 !! m = Some mat2
      /\ 1 <= length (sampler_nodes (node_tree mat1))
      /\ length (sampler_nodes (node_tree mat2))
         = S (length (sampler_nodes (node_tree mat1)))
      /\ length (nodes (node_tree mat2)) = S (length (nodes (node_tree mat1))).
Proof.
  intros pe lr d m material p principled path Hm Huse Hp Hin d1 d2.
  pose proof (resolve_input_normal _ Hin) as Hres.
  assert (Hlt : m < length (materials d)) by by eapply lookup_lt_Some.
  (* the first bind *)
  destruct (bind_step pe lr d m material p principled "normal" "Normal" path
              Hm Huse Hp Hres)
    as (t2 & tex & t1' & Hw & Hmat1 & Hl1 & Hn1 & _).
  fold d1 in Hmat1.
  pose proof (wired_normal_decoder _ _ _ _ _ _ Hw) as Hdec.
  apply wired_spec in Hw
    as (extra & Hnodes2 & _ & _ & _ & Htex & nm & Hnm & _ & Hsock).
  assert (Hp2 : find_principled (nodes t2) = Some (p, principled))
    by (rewrite Hnodes2; by apply find_principled_app).
  destruct (written_tree_counts t2 t1' tex Hn1)
    as (Hlen1 & Hsam1 & _ & Htypes & Hfind).
  destruct (written_tree_principled t2 t1' tex p principled Hn1 Hp2)
    as (principled' & Hp' & Hinputs).
  assert (Hm1 : materials d1 !! m = Some (set_tree t1' material))
    by (rewrite Hmat1; by apply list_lookup_insert_eq).
  (* the second bind *)
  assert (Hres' : resolve_input "normal" principled' = Some "Normal")
    by (by rewrite (resolve_input_inputs _ _ principled)).
  destruct (bind_step pe lr d1 m (set_tree t1' material) p principled'
              "normal" "Normal" path Hm1 Huse Hp' Hres')
    as (t3 & tex3 & t2' & Hw3 & Hmat2 & _ & Hn3 & _).
  fold d2 in Hmat2. simpl in Hw3.
  destruct (wired_normal_again t1' p principled' nm)
    as (t3' & tex' & node & Hw3' & Hnodes3 & Hty).
  { unfold socket_links in *. by rewrite Hl1. }
  { by rewrite Htypes. }
  { by apply Hfind. }
  rewrite Hw3' in Hw3. injection Hw3 as -> ->.
  destruct (written_tree_counts t3 t2' tex3 Hn3) as (Hlen3 & Hsam3 & _).
  exists (set_tree t1' material), (set_tree t2' (set_tree t1' material)).
  split; [done|]. split.
  { rewrite Hmat2. apply list_lookup_insert_eq. by eapply lookup_lt_Some. }
  cbn [node_tree set_tree].
  assert (Hs3 : length (sampler_nodes t3) = S (length (sampler_nodes t1'))).
  { unfold sampler_nodes. rewrite Hnodes3, List.filter_app, length_app.
    simpl. rewrite Hty. simpl. lia. }
  split.
  { rewrite Hsam1. unfold sampler_nodes.
    by apply node_has_type_counted with tex. }
  split; [by rewrite Hsam3|].
  rewrite Hlen3, Hnodes3, length_app. simpl. lia.
Qed.

(** X1: for the roles wired directly (every role but the normal one) the
    second bind does reuse: the input is fed by the texture node of the first bind,
    the link scan finds it, and the tree keeps its node count and its
    number of texture nodes. *)
Theorem direct_rebind_reuses_sampler :
  forall path_exists load_raises d m material p principled tex_key target path,
    materials d !! m = Some material ->
    use_nodes material = true ->
    find_principled (nodes (node_tree material)) = Some (p, principled) ->
    resolve_input tex_key principled = Some target ->
    String.eqb tex_key "normal" = false ->
    let d1 := (replace_texture_in_nodes path_exists load_raises
                 d m tex_key path).2 in
    let d2 := (replace_texture_in_nodes path_exists load_raises
                 d1 m tex_key path).2 in
    exists mat1 mat2 tex,
      materials d1 !! m = Some mat1
      /\ materials d2 !! m = Some mat2
      /\ length (nodes (node_tree mat2)) = length (nodes (node_tree mat1))
      /\ length (sampler_nodes (node_tree mat2))
         = length (sampler_nodes (node_tree mat1))
      /\ node_has_type (nodes (node_tree mat2)) "TEX_IMAGE" tex = true
      /\ socket_links (node_tree mat1) p target = [mkLink tex "Color" p target]
      /\ socket_links (node_tree mat2) p target = [mkLink tex "Color" p target].
Proof.
  intros pe lr d m material p principled tex_key target path
    Hm Huse Hp Hres Hkey d1 d2.
  assert (Hlt : m < length (materials d)) by by eapply lookup_lt_Some.
  (* the first bind *)
  destruct (bind_step pe lr d m material p principled tex_key target path
              Hm Huse Hp Hres)
    as (t2 & tex & t1' & Hw & Hmat1 & Hl1 & Hn1 & _).
  fold d1 in Hmat1.
  apply wired_spec in Hw as (extra & Hnodes2 & _ & _ & _ & Htex & Hsock).
  rewrite Hkey in Hsock.
  assert (Hp2 : find_principled (nodes t2) = Some (p, principled))
    by (rewrite Hnodes2; by apply find_principled_app).
  destruct (written_tree_counts t2 t1' tex Hn1) as (_ & _ & _ & Htypes & _).
  destruct (written_tree_principled t2 t1' tex p principled Hn1 Hp2)
    as (principled' & Hp' & Hinputs).
  assert (Hm1 : materials d1 !! m = Some (set_tree t1' material))
    by (rewrite Hmat1; by apply list_lookup_insert_eq).
  (* the second bind *)
  assert (Hres' : resolve_input tex_key principled' = Some target)
    by (by rewrite (resolve_input_inputs _ _ principled)).
  destruct (bind_step pe lr d1 m (set_tree t1' material) p principled'
              tex_key target path Hm1 Huse Hp' Hres')
    as (t3x & tex3x & t2' & Hw3 & Hmat2 & Hl3 & Hn3 & _).
  fold d2 in Hmat2. simpl in Hw3.
  assert (Hsock1 : socket_links t1' p target = [mkLink tex "Color" p target])
    by (unfold socket_links in *; by rewrite Hl1).
  destruct (wired_direct_again t1' tex_key p principled' target tex)
    as (t3 & Hw3' & Hnodes3); [done|by eapply resolve_input_has_input|done| |].
  { by rewrite Htypes. }
  rewrite Hw3' in Hw3. injection Hw3 as <- <-.
  apply wired_spec in Hw3' as (? & _ & _ & _ & _ & Htex3 & Hsock3).
  rewrite Hkey in Hsock3.
  destruct (written_tree_counts t3 t2' tex Hn3)
    as (Hlen3 & Hsam3 & _ & Htypes3 & _).
  exists (set_tree t1' material), (set_tree t2' (set_tree t1' material)), tex.
  split; [done|]. split.
  { rewrite Hmat2. apply list_lookup_insert_eq. by eapply lookup_lt_Some. }
  cbn [node_tree set_tree].
  split; [by rewrite Hlen3, Hnodes3|]. split.
  { rewrite Hsam3. unfold sampler_nodes. by rewrite Hnodes3. }
  split; [by rewrite Htypes3|]. split; [done|].
  unfold socket_links in *. by rewrite Hl3.
Qed.

(** * Worked instances *)

(** The specular role on a shader node that only knows "Specular". *)
Lemma resolve_input_fallback_order_witness :
  resolve_input "specular" principled_specular_only = Some "Specular".
Proof.
  apply (proj1 (proj2 (proj2 resolve_input_fallback_order))
           principled_specular_only); reflexivity.
Defined.

(** Two meshes with one material slot each: eight attempts, although the
    normal map is missing. *)
Lemma total_count_role_coverage_witness :
  total_count
    (apply_textures_to_all_materials normal_map_missing loads_fine
       (texture_paths "diffuse.png" "normal.png" "roughness.png" "specular.png")
       curtain_scene)
  = 2 * 1 * 4.
Proof.
  apply (proj2 (total_count_role_coverage normal_map_missing loads_fine
                  "diffuse.png" "normal.png" "roughness.png" "specular.png"
                  curtain_scene) 1).
  repeat constructor.
Defined.

(** A light under the first name and an empty slot on the second object:
    four attempts in all. *)
Example sparse_scene_total :
  total_count
    (apply_textures_to_all_materials all_files loads_fine
       (texture_paths "diffuse.png" "normal.png" "roughness.png" "specular.png")
       sparse_scene)
  = 4.
Proof. vm_compute. reflexivity. Qed.

(** The preferences list the CPU alone and refreshing keeps the list: no
    family shows a device on the run, and the CPU is configured. *)
Lemma configure_device_cpu_fallback_witness :
  exists r',
    configure_device every_backend listed_devices true true fresh_prefs
    = Some r'
    /\ compute_device_type r' = "NONE"
    /\ cycles_device r' = "CPU"
    /\ Forall (fun dv => dev_use dv = String.eqb (dev_type dv) "CPU") (devices r')
    /\ dev_type <$> devices r'
       = dev_type <$> devices
           (after_probes every_backend listed_devices available_types
              (default fresh_prefs (get_devices listed_devices fresh_prefs))).
Proof.
  apply (configure_device_cpu_fallback every_backend listed_devices true
           fresh_prefs).
  vm_compute. repeat split; reflexivity.
Defined.

(** The preferences list a CUDA card: OptiX shows nothing on the run, CUDA
    shows the card and is selected. *)
Lemma configure_device_first_family_wins_witness :
  (exists r',
     configure_device every_backend listed_devices true true card_prefs
     = Some r'
     /\ compute_device_type r' = "CUDA"
     /\ cycles_device r' = "GPU"
     /\ Forall (fun dv => dev_use dv = String.eqb (dev_type dv) "CUDA") (devices r')
     /\ Exists (fun dv => dev_use dv = true) (devices r')
     /\ dev_type <$> devices r'
        = dev_type <$> devices
            (after_probe every_backend listed_devices "CUDA"
               (after_probes every_backend listed_devices ["OPTIX"]
                  (default card_prefs (get_devices listed_devices card_prefs)))))
  /\ (forall later,
        try_device_types every_backend listed_devices
          (["OPTIX"] ++ "CUDA" :: later) true
          (default card_prefs (get_devices listed_devices card_prefs))
        = try_device_types every_backend listed_devices
            (["OPTIX"] ++ "CUDA" :: ["OPENCL"; "HIP"]) true
            (default card_prefs (get_devices listed_devices card_prefs))).
Proof.
  apply (configure_device_first_family_wins every_backend listed_devices true
           ["OPTIX"] "CUDA" ["OPENCL"; "HIP"] card_prefs).
  - reflexivity.
  - vm_compute. split; reflexivity.
  - vm_compute. discriminate.
Defined.

(** The same machine with denoising: CUDA wins and brings the generic
    denoiser; the outcome renders on the GPU with the denoiser of its
    family; without denoising the denoiser stays. *)
Lemma configure_device_denoiser_witness :
  (exists r',
     configure_device every_backend listed_devices true true card_prefs
     = Some r'
     /\ denoiser r'
        = (if String.eqb "CUDA" "OPTIX" then "OPTIX" else "OPENIMAGEDENOISE")
     /\ (String.eqb "CUDA" "OPTIX" = true <-> ["OPTIX"] = []))
  /\ (In (compute_device_type
            (mkRender "CUDA" [mkDevice "Ryzen" "CPU" false;
                              mkDevice "RTX" "CUDA" true]
               "GPU" "OPENIMAGEDENOISE")) available_types
      /\ denoiser
           (mkRender "CUDA" [mkDevice "Ryzen" "CPU" false;
                             mkDevice "RTX" "CUDA" true]
              "GPU" "OPENIMAGEDENOISE")
         = "OPENIMAGEDENOISE"
      /\ (String.eqb "CUDA" "OPTIX" = true
          <-> head available_types = Some "CUDA"))
  /\ denoiser
       (mkRender "CUDA" [mkDevice "Ryzen" "CPU" false;
                         mkDevice "RTX" "CUDA" true] "GPU" "NLM")
     = denoiser card_prefs.
Proof.
  destruct configure_device_denoiser as (Hwins & Hgpu & Hoff).
  split; [|split].
  - apply (Hwins every_backend listed_devices
             ["OPTIX"] "CUDA" ["OPENCL"; "HIP"] card_prefs).
    + reflexivity.
    + vm_compute. split; reflexivity.
    + vm_compute. discriminate.
  - apply (Hgpu every_backend listed_devices card_prefs); reflexivity.
  - apply (Hoff every_backend listed_devices true card_prefs); reflexivity.
Defined.

Example configure_device_cuda_run :
  configure_device no_opencl cuda_card true true fresh_prefs
  = Some (mkRender "CUDA" [mkDevice "Ryzen" "CPU" false; mkDevice "RTX" "CUDA" true]
            "GPU" "OPENIMAGEDENOISE").
Proof. vm_compute. reflexivity. Qed.

Example configure_device_cpu_run :
  configure_device no_opencl cpu_only true true fresh_prefs
  = Some (mkRender "NONE" [mkDevice "Ryzen" "CPU" true] "CPU" "NLM").
Proof. vm_compute. reflexivity. Qed.

(** The diffuse role bound on the curtain material. *)
Lemma bind_colorspace_by_role_witness :
  exists d',
    replace_texture_in_nodes all_files loads_fine curtain_scene 0
      "diffuse" "diffuse.png" = (RetTrue, d')
    /\ (exists mat' tex node i img,
           materials d' !! 0 = Some mat'
           /\ nodes (node_tree mat') !! tex = Some node
           /\ node_type node = "TEX_IMAGE"
           /\ node_image node = Some i
           /\ images d' !! i = Some img
           /\ filepath img = "diffuse.png"
           /\ colorspace img = colorspace_for "diffuse")
    /\ ("diffuse" = "diffuse" /\ colorspace_for "diffuse" = "sRGB"
        \/ ("diffuse" = "normal" \/ "diffuse" = "roughness"
            \/ "diffuse" = "specular")
           /\ colorspace_for "diffuse" = "Non-Color").
Proof.
  eexists. split; [vm_compute; reflexivity|].
  apply (bind_colorspace_by_role all_files loads_fine curtain_scene 0
           "diffuse" "diffuse.png").
  vm_compute. reflexivity.
Defined.

Lemma curtain_scene_ready : shader_ready curtain_scene 0.
Proof.
  exists curtain_material, 0, principled_v4.
  split; [reflexivity|]. split; [reflexivity|].
  repeat constructor; eexists; reflexivity.
Defined.

(** The normal map is missing, the other three files are there: three
    successes out of four attempts on the curtain material. *)
Lemma missing_file_fails_one_role_witness :
  let s' :=
    apply_slots normal_map_missing loads_fine
      (texture_paths "diffuse.png" "normal.png" "roughness.png" "specular.png")
      [Some 0] (mkTally curtain_scene 0 0) in
  total_count s' = 4 /\ success_count s' = 3.
Proof.
  destruct (missing_file_fails_one_role normal_map_missing loads_fine
              "diffuse.png" "normal.png" "roughness.png" "specular.png"
              0 (mkTally curtain_scene 0 0) curtain_scene_ready
              (fun path _ _ => eq_refl))
    as (_ & Htotal & _ & Hthree).
  split; [exact Htotal|exact (Hthree eq_refl)].
Defined.

Example missing_normal_map_walk :
  let run :=
    apply_textures_to_all_materials normal_map_missing loads_fine
      (texture_paths "diffuse.png" "normal.png" "roughness.png" "specular.png")
      curtain_scene in
  (success_count run, total_count run) = (6, 8).
Proof. vm_compute. reflexivity. Qed.

Example all_files_walk :
  let run :=
    apply_textures_to_all_materials all_files loads_fine
      (texture_paths "diffuse.png" "normal.png" "roughness.png" "specular.png")
      curtain_scene in
  (success_count run, total_count run) = (8, 8).
Proof. vm_compute. reflexivity. Qed.

(** The roughness map bound, then the same file bound to the specular role:
    the second bind answers [True], finds the image of the first, retags it
    and leaves the texture node wired into the specular input on it; a third
    bind of the path loads nothing either. *)
Lemma bind_reuses_loaded_image_witness :
  let d1 := (replace_texture_in_nodes all_files loads_fine curtain_scene 0
               "roughness" "roughness.png").2 in
  let d2 := (replace_texture_in_nodes all_files loads_fine d1 0
               "specular" "roughness.png").2 in
  ((replace_texture_in_nodes all_files loads_fine d1 0
      "specular" "roughness.png").1 = RetTrue
   /\ images d2
      = alter (set_colorspace (colorspace_for "specular")) 0 (images d1)
   /\ exists mat' tex node,
        materials d2 !! 0 = Some mat'
        /\ nodes (node_tree mat') !! tex = Some node
        /\ node_type node = "TEX_IMAGE"
        /\ node_image node = Some 0
        /\ feeds_role (node_tree mat') "specular" 0 tex "Specular IOR Level")
  /\ length (images (replace_texture_in_nodes all_files loads_fine
                       d2 0 "specular" "roughness.png").2)
     = length (images d2).
Proof.
  intros d1 d2.
  pose proof (bind_reuses_loaded_image all_files loads_fine d1 0
                "specular" "roughness.png" RetTrue d2 eq_refl)
    as (_ & _ & Hlater & Hready).
  split.
  - exact (proj1 (Hready (default curtain_material (materials d1 !! 0))
                    0 principled_v4 "Specular IOR Level"
                    eq_refl eq_refl eq_refl eq_refl eq_refl)
             0 (mkImage "roughness.png" "Non-Color") eq_refl).
  - exact (Hlater eq_refl 0 "specular").
Defined.

Example same_path_one_image :
  let d1 := (replace_texture_in_nodes all_files loads_fine curtain_scene 0
               "roughness" "shared.png").2 in
  let d2 := (replace_texture_in_nodes all_files loads_fine d1 0
               "specular" "shared.png").2 in
  images d1 = [mkImage "shared.png" "Non-Color"]
  /\ images d2 = [mkImage "shared.png" "Non-Color"]
  /\ (node_image <$> nodes (node_tree (default curtain_material (materials d2 !! 0))))
     = [None; Some 0; Some 0].
Proof. vm_compute. done. Qed.

(** The normal map is missing: the bind answers [False] with the texture
    node and the decoder node already in the graph. *)
Lemma bind_missing_file_not_atomic_witness :
  exists d' mat' tex extra,
    replace_texture_in_nodes normal_map_missing loads_fine curtain_scene 0
      "normal" "normal.png" = (RetFalse, d')
    /\ images d' = images curtain_scene
    /\ materials d' !! 0 = Some mat'
    /\ nodes (node_tree mat') = nodes (node_tree curtain_material) ++ extra
    /\ Forall (fun n => node_image n = None) extra
    /\ (find_connected_texture (node_tree curtain_material) 0 principled_v4
          "Normal" = None -> 1 <= length extra)
    /\ node_has_type (nodes (node_tree mat')) "TEX_IMAGE" tex = true
    /\ exists nm,
         node_has_type (nodes (node_tree mat')) "NORMAL_MAP" nm = true
         /\ socket_links (node_tree mat') nm "Color"
            = [mkLink tex "Color" nm "Color"]
         /\ socket_links (node_tree mat') 0 "Normal"
            = [mkLink nm "Normal" 0 "Normal"].
Proof.
  exact (bind_missing_file_not_atomic normal_map_missing loads_fine
           curtain_scene 0 curtain_material 0 principled_v4 "normal" "Normal"
           "normal.png" eq_refl eq_refl eq_refl eq_refl eq_refl).
Defined.

Example missing_normal_map_graph :
  replace_texture_in_nodes normal_map_missing loads_fine curtain_scene 0
    "normal" "normal.png"
  = (RetFalse,
     mkData (objects curtain_scene)
       [mkMaterial "Curtain" true
          (mkTree
             [ principled_v4;
               mkNode "TEX_IMAGE" "normal_texture" ["Vector"] (-400, -100)%Z None;
               mkNode "NORMAL_MAP" "normal_normal_map" ["Strength"; "Color"]
                 (-200, -100)%Z None ]
             [ mkLink 1 "Color" 2 "Color"; mkLink 2 "Normal" 0 "Normal" ])]
       []).
Proof. vm_compute. reflexivity. Qed.

(** The normal role bound twice on the curtain material. *)
Lemma normal_rebind_duplicates_sampler_witness :
  let d1 := (replace_texture_in_nodes all_files loads_fine curtain_scene 0
               "normal" "normal.png").2 in
  let d2 := (replace_texture_in_nodes all_files loads_fine d1 0
               "normal" "normal.png").2 in
  exists mat1 mat2,
    materials d1 !! 0 = Some mat1
    /\ materials d2 !! 0 = Some mat2
    /\ 1 <= length (sampler_nodes (node_tree mat1))
    /\ length (sampler_nodes (node_tree mat2))
       = S (length (sampler_nodes (node_tree mat1)))
    /\ length (nodes (node_tree mat2)) = S (length (nodes (node_tree mat1))).
Proof.
  exact (normal_rebind_duplicates_sampler all_files loads_fine curtain_scene 0
           curtain_material 0 principled_v4 "normal.png"
           eq_refl eq_refl eq_refl eq_refl).
Defined.

Example normal_rebind_node_counts :
  let d1 := (replace_texture_in_nodes all_files loads_fine curtain_scene 0
               "normal" "normal.png").2 in
  let d2 := (replace_texture_in_nodes all_files loads_fine d1 0
               "normal" "normal.png").2 in
  let t1 := node_tree (default curtain_material (materials d1 !! 0)) in
  let t2 := node_tree (default curtain_material (materials d2 !! 0)) in
  node_type <$> nodes t1 = ["BSDF_PRINCIPLED"; "TEX_IMAGE"; "NORMAL_MAP"]
  /\ node_type <$> nodes t2
     = ["BSDF_PRINCIPLED"; "TEX_IMAGE"; "NORMAL_MAP"; "TEX_IMAGE"]
  /\ length (sampler_nodes t1) = 1
  /\ length (sampler_nodes t2) = 2
  /\ length (decoder_nodes t2) = 1
  /\ links t2 = [mkLink 3 "Color" 2 "Color"; mkLink 2 "Normal" 0 "Normal"].
Proof. vm_compute. done. Qed.

(** The whole walk over the two curtains, which share their material: the
    normal role is bound twice to the one tree and leaves two
    "normal_texture" nodes, the first of them unplugged. *)
Example shared_material_walk_nodes :
  let run :=
    apply_textures_to_all_materials all_files loads_fine
      (texture_paths "diffuse.png" "normal.png" "roughness.png" "specular.png")
      curtain_scene in
  let t := node_tree (default curtain_material (materials (scene run) !! 0)) in
  node_name <$> nodes t
  = ["Principled BSDF"; "diffuse_texture"; "normal_texture"; "normal_normal_map";
     "roughness_texture"; "specular_texture"; "normal_texture"]
  /\ socket_links t 3 "Color" = [mkLink 6 "Color" 3 "Color"]
  /\ (success_count run, total_count run) = (8, 8).
Proof. vm_compute. done. Qed.

(** The diffuse role bound twice on the curtain material. *)
Lemma direct_rebind_reuses_sampler_witness :
  let d1 := (replace_texture_in_nodes all_files loads_fine curtain_scene 0
               "diffuse" "diffuse.png").2 in
  let d2 := (replace_texture_in_nodes all_files loads_fine d1 0
               "diffuse" "diffuse.png").2 in
  exists mat1 mat2 tex,
    materials d1 !! 0 = Some mat1
    /\ materials d2 !! 0 = Some mat2
    /\ length (nodes (node_tree mat2)) = length (nodes (node_tree mat1))
    /\ length (sampler_nodes (node_tree mat2))
       = length (sampler_nodes (node_tree mat1))
    /\ node_has_type (nodes (node_tree mat2)) "TEX_IMAGE" tex = true
    /\ socket_links (node_tree mat1) 0 "Base Color"
       = [mkLink tex "Color" 0 "Base Color"]
    /\ socket_links (node_tree mat2) 0 "Base Color"
       = [mkLink tex "Color" 0 "Base Color"].
Proof.
  exact (direct_rebind_reuses_sampler all_files loads_fine curtain_scene 0
           curtain_material 0 principled_v4 "diffuse" "Base Color" "diffuse.png"
           eq_refl eq_refl eq_refl eq_refl eq_refl).
Defined.

(** * The command line *)

Lemma script_argv_Some sys_argv argv :
  script_argv sys_argv = Some argv
  <-> exists pre, sys_argv = pre ++ "--" :: argv /\ "--" ∉ pre.
Proof.
  unfold script_argv. split.
  - intros ([i a] & (Hi & -> & Hfirst)%list_find_Some & ->)%fmap_Some. simpl.
    exists (take i sys_argv). split.
    + rewrite <- (take_drop_middle sys_argv i "--") at 1 by done. done.
    + intros (j & Hj)%list_elem_of_lookup.
      apply lookup_take_Some in Hj as [Hj Hlt]. by apply (Hfirst j "--").
  - intros (pre & -> & Hpre).
    assert (Hfind : list_find (fun a => a = "--") (pre ++ "--" :: argv)
                    = Some (length pre, "--")).
    { apply list_find_Some. split; [by apply list_lookup_middle|].
      split; [done|]. intros j y Hj Hlt ->.
      rewrite lookup_app_l in Hj by done.
      apply Hpre, list_elem_of_lookup. eauto. }
    rewrite Hfind. simpl. f_equal.
    replace (pre ++ "--" :: argv) with ((pre ++ ["--"]) ++ argv)
      by (by rewrite <- app_assoc).
    apply drop_app_length'. rewrite length_app. simpl. lia.
Qed.

Lemma script_argv_None sys_argv :
  script_argv sys_argv = None <-> "--" ∉ sys_argv.
Proof.
  unfold script_argv. rewrite fmap_None, list_find_None, Forall_forall.
  split; [intros H Hin; by apply (H "--")|]. intros H x Hx ->. done.
Qed.

Lemma parse_args_found py_int pre argv :
  "--" ∉ pre ->
  parse_args py_int (pre ++ "--" :: argv)
  = if Nat.ltb (length argv) 9 then UsageExit
    else match argv with
         | a0 :: a1 :: a2 :: a3 :: a4 :: a5 :: a6 :: a7 :: a8 :: _ =>
             match py_int a6 with
             | None => BadSamples
             | Some n =>
                 Parsed (mkArgs a0 a1 a2 a3 a4 (String.eqb (lower a5) "true") n
                           (String.eqb (lower a7) "true")
                           (String.eqb (lower a8) "true"))
             end
         | _ => UsageExit
         end.
Proof.
  intros Hpre. unfold parse_args.
  rewrite (proj2 (script_argv_Some (pre ++ "--" :: argv) argv)); [done|].
  by exists pre.
Qed.

(** X2: the command [BlenderRenderNode.render] builds reads back, at the head
    of the script, as the very values the node was called with, provided
    none of the three paths ahead of the separator is itself "--" and [int]
    reads back what [str] wrote for the sample count. *)
Theorem parse_args_render_cmd :
  forall py_int py_str blender_path blend_file script_path
         diffuse normal roughness specular output gpu n denoising adaptive,
    blender_path <> "--" ->
    blend_file <> "--" ->
    script_path <> "--" ->
    py_int (py_str n) = Some n ->
    parse_args py_int
      (render_cmd py_str blender_path blend_file script_path
         diffuse normal roughness specular output gpu n denoising adaptive)
    = Parsed (mkArgs diffuse normal roughness specular output
                gpu n denoising adaptive).
Proof.
  intros py_int py_str bp bf sp d nm r s o gpu n den ada Hbp Hbf Hsp Hint.
  unfold render_cmd.
  change (parse_args py_int
            ([bp; "-b"; bf; "-P"; sp] ++ "--" ::
             [d; nm; r; s; o; lower (str_bool gpu); py_str n;
              lower (str_bool den); lower (str_bool ada)])
          = Parsed (mkArgs d nm r s o gpu n den ada)).
  rewrite parse_args_found.
  - simpl. rewrite Hint. by destruct gpu, den, ada.
  - rewrite !elem_of_cons. intros [?|[?|[?|[?|[?|?%elem_of_nil]]]]]; done.
Qed.

(** X3: the script stops with the usage message exactly when the first
    "--" of the command line is followed by fewer than nine arguments, and
    it fails on [argv.index] exactly when there is no "--" at all; a later
    "--" is an argument like any other. *)
Theorem parse_args_usage_exit :
  forall py_int sys_argv,
    (parse_args py_int sys_argv = UsageExit
     <-> exists pre argv,
           sys_argv = pre ++ "--" :: argv /\ ("--" ∉ pre) /\ length argv < 9)
    /\ (parse_args py_int sys_argv = NoSeparator <-> "--" ∉ sys_argv).
Proof.
  intros py_int sys_argv. split.
  - split.
    + unfold parse_args.
      destruct (script_argv sys_argv) as [argv|] eqn:Hargv; [|done].
      apply script_argv_Some in Hargv as (pre & -> & Hpre).
      destruct (Nat.ltb (length argv) 9) eqn:Hlen.
      * intros _. exists pre, argv. by apply Nat.ltb_lt in Hlen.
      * apply Nat.ltb_ge in Hlen.
        do 9 (destruct argv as [|? argv]; [simpl in Hlen; lia|]).
        by destruct (py_int _).
    + intros (pre & argv & -> & Hpre & Hlen).
      rewrite parse_args_found by done.
      by rewrite (proj2 (Nat.ltb_lt _ _) Hlen).
  - unfold parse_args. rewrite <- script_argv_None.
    destruct (script_argv sys_argv) as [argv|]; [|done].
    split; [|done]. destruct (Nat.ltb (length argv) 9); [done|].
    do 9 (destruct argv as [|? argv]; [done|]). by destruct (py_int _).
Qed.

(** X4: arguments after the ninth are never read: appending anything to a
    command line that carries nine arguments after its first "--" gives the
    same outcome. *)
Theorem parse_args_ignores_trailing :
  forall py_int pre argv trailing,
    "--" ∉ pre ->
    9 <= length argv ->
    parse_args py_int (pre ++ "--" :: argv ++ trailing)
    = parse_args py_int (pre ++ "--" :: argv).
Proof.
  intros py_int pre argv trailing Hpre Hlen.
  rewrite !parse_args_found by done.
  rewrite length_app.
  rewrite (proj2 (Nat.ltb_ge (length argv) 9)) by done.
  rewrite (proj2 (Nat.ltb_ge (length argv + length trailing) 9)) by lia.
  do 9 (destruct argv as [|? argv]; [simpl in Hlen; lia|]). done.
Qed.

(** * What a run may change *)

Lemma same_node_but_image_refl n : same_node_but_image n n.
Proof. by repeat split. Qed.

Lemma same_node_but_image_trans n1 n2 n3 :
  same_node_but_image n1 n2 -> same_node_but_image n2 n3 ->
  same_node_but_image n1 n3.
Proof.
  intros (? & ? & ? & ?) (? & ? & ? & ?). repeat split; congruence.
Qed.

Lemma tree_grows_refl t : tree_grows t t.
Proof. intros i n Hn. exists n. split; [done|apply same_node_but_image_refl]. Qed.

Lemma tree_grows_trans t1 t2 t3 :
  tree_grows t1 t2 -> tree_grows t2 t3 -> tree_grows t1 t3.
Proof.
  intros H12 H23 i n Hn.
  destruct (H12 i n Hn) as (n2 & Hn2 & Hs2).
  destruct (H23 i n2 Hn2) as (n3 & Hn3 & Hs3).
  exists n3. split; [done|]. by eapply same_node_but_image_trans.
Qed.

Lemma tree_grows_app t t' extra :
  nodes t' = nodes t ++ extra -> tree_grows t t'.
Proof.
  intros Heq i n Hn. exists n. rewrite Heq.
  split; [by apply lookup_app_l_Some|apply same_node_but_image_refl].
Qed.

Lemma tree_grows_set_image t t' img tex :
  nodes t' = alter (set_image img) tex (nodes t) -> tree_grows t t'.
Proof.
  intros Heq i n Hn. rewrite Heq. destruct (decide (tex = i)) as [->|Hne].
  - exists (set_image img n). rewrite list_lookup_alter_eq, Hn.
    split; [done|by repeat split].
  - exists n. rewrite list_lookup_alter_ne by done.
    split; [done|apply same_node_but_image_refl].
Qed.

Lemma ensure_texture_node_nodes t tex_key found :
  exists extra, nodes (ensure_texture_node t tex_key found).1 = nodes t ++ extra.
Proof.
  destruct found as [i|].
  - exists []. simpl. by rewrite app_nil_r.
  - destruct (ensure_texture_node_fresh t tex_key) as (node & -> & _).
    by exists [node].
Qed.

Lemma connect_nodes t tex_key p tex target :
  exists extra, nodes (connect t tex_key p tex target) = nodes t ++ extra.
Proof.
  destruct (String.eqb tex_key "normal") eqn:Hkey.
  - apply String.eqb_eq in Hkey as ->.
    destruct (connect_normal t p tex target) as (nm & dec & extra & -> & _).
    by exists extra.
  - rewrite connect_direct by done. exists []. simpl. by rewrite app_nil_r.
Qed.

Lemma scene_grows_refl d : scene_grows d d.
Proof.
  split; [done|]. split; [done|]. split.
  - intros j mat Hj. exists mat. repeat split; [done..|apply tree_grows_refl].
  - intros i img Hi. by exists img.
Qed.

Lemma scene_grows_trans d1 d2 d3 :
  scene_grows d1 d2 -> scene_grows d2 d3 -> scene_grows d1 d3.
Proof.
  intros (Ho12 & Hl12 & Hm12 & Hi12) (Ho23 & Hl23 & Hm23 & Hi23).
  split; [congruence|]. split; [congruence|]. split.
  - intros j mat Hj.
    destruct (Hm12 j mat Hj) as (mat2 & Hj2 & Hn2 & Hu2 & Ht2).
    destruct (Hm23 j mat2 Hj2) as (mat3 & Hj3 & Hn3 & Hu3 & Ht3).
    exists mat3. split; [done|]. split; [congruence|].
    split; [auto|]. by eapply tree_grows_trans.
  - intros i img Hi.
    destruct (Hi12 i img Hi) as (img2 & Hi2 & Hp2).
    destruct (Hi23 i img2 Hi2) as (img3 & Hi3 & Hp3).
    exists img3. split; [done|congruence].
Qed.

(** Writing one material back with a grown tree, and writing back an image
    list that kept its paths. *)
Lemma scene_grows_write d m mat t' imgs :
  materials d !! m = Some mat ->
  tree_grows (node_tree mat) t' ->
  (forall i img, images d !! i = Some img ->
                 exists img', imgs !! i = Some img' /\ filepath img' = filepath img) ->
  scene_grows d (with_images (with_material d m (set_tree t' mat)) imgs).
Proof.
  intros Hm Ht Himgs. split; [done|]. split; [apply length_insert|].
  split; [|exact Himgs]. simpl. intros j mat0 Hj.
  destruct (decide (m = j)) as [->|Hne].
  - exists (set_tree t' mat). rewrite list_lookup_insert_eq
      by (by eapply lookup_lt_Some).
    rewrite Hm in Hj. injection Hj as <-. by repeat split.
  - exists mat0. rewrite list_lookup_insert_ne by done.
    repeat split; [done..|apply tree_grows_refl].
Qed.

Lemma with_images_same d : with_images d (images d) = d.
Proof. by destruct d. Qed.

Section RunFrame.

Variable path_exists : string -> bool.
Variable load_raises : string -> bool.

Local Abbreviation bind := (replace_texture_in_nodes path_exists load_raises).
Local Abbreviation assign := (assign_image path_exists load_raises).

Lemma assign_image_grows d m mat t0 t tex tex_key path :
  materials d !! m = Some mat ->
  tree_grows t0 t ->
  node_tree mat = t0 ->
  scene_grows d (assign d m mat t tex tex_key path).2.
Proof.
  intros Hm Ht <-. unfold assign_image.
  assert (Hsame : forall i img, images d !! i = Some img ->
                    exists img', images d !! i = Some img'
                                 /\ filepath img' = filepath img)
    by (intros i img Hi; by exists img).
  assert (Hplain : scene_grows d (with_material d m (set_tree t mat))).
  { rewrite <- (with_images_same (with_material d m (set_tree t mat))).
    by apply scene_grows_write. }
  destruct (path_exists path); [|exact Hplain].
  destruct (find_image (images d) path) as [[i img0]|].
  - simpl. apply scene_grows_write; [done| |].
    + eapply tree_grows_trans; [exact Ht|]. by eapply tree_grows_set_image.
    + intros j img Hj. destruct (decide (i = j)) as [->|Hne].
      * exists (set_colorspace (colorspace_for tex_key) img).
        by rewrite list_lookup_alter_eq, Hj.
      * exists img. by rewrite list_lookup_alter_ne.
  - destruct (load_raises path); [exact Hplain|]. simpl.
    apply scene_grows_write; [done| |].
    + eapply tree_grows_trans; [exact Ht|]. by eapply tree_grows_set_image.
    + intros j img Hj. exists img. split; [|done].
      rewrite alter_snoc. by apply lookup_app_l_Some.
Qed.

(** One bind only ever adds: it deletes, renames, retypes and moves
    nothing. *)
Lemma bind_scene_grows d m tex_key path :
  scene_grows d (bind d m tex_key path).2.
Proof.
  unfold replace_texture_in_nodes.
  destruct (materials d !! m) as [material|] eqn:Hm; [|apply scene_grows_refl].
  destruct (negb (use_nodes material)); [apply scene_grows_refl|].
  destruct (find_principled _) as [[p principled]|]; [|apply scene_grows_refl].
  destruct (resolve_input tex_key principled) as [target|];
    [|apply scene_grows_refl].
  destruct (ensure_texture_node_nodes (node_tree material) tex_key
              (find_connected_texture (node_tree material) p principled target))
    as (extra1 & Hn1).
  destruct (ensure_texture_node _ _ _) as [t1 tex]. simpl in Hn1.
  assert (Ht1 : tree_grows (node_tree material) t1) by by eapply tree_grows_app.
  destruct (has_input target principled).
  - destruct (connect_nodes t1 tex_key p tex target) as (extra2 & Hn2).
    eapply assign_image_grows; [done| |done].
    eapply tree_grows_trans; [exact Ht1|]. by eapply tree_grows_app.
  - rewrite <- (with_images_same (with_material d m (set_tree t1 material))).
    apply scene_grows_write; [done..|]. intros i img Hi. by exists img.
Qed.

(** A bind writes no material but the one it is given. *)
Lemma bind_materials_other d m tex_key path j :
  j <> m ->
  materials (bind d m tex_key path).2 !! j = materials d !! j.
Proof.
  intros Hne. unfold replace_texture_in_nodes.
  destruct (materials d !! m) as [material|]; [|done].
  destruct (negb (use_nodes material)); [done|].
  destruct (find_principled _) as [[p principled]|]; [|done].
  destruct (resolve_input tex_key principled) as [target|]; [|done].
  destruct (ensure_texture_node _ _ _) as [t1 tex].
  destruct (has_input target principled).
  - destruct (assign_image_material path_exists load_raises d m material
                (connect t1 tex_key p tex target) tex tex_key path)
      as (t' & -> & _).
    by apply list_lookup_insert_ne.
  - simpl. by apply list_lookup_insert_ne.
Qed.

Lemma enable_nodes_grows d m : scene_grows d (enable_nodes d m).
Proof.
  split; [done|]. split; [apply length_alter|]. split.
  - simpl. intros j mat Hj. destruct (decide (m = j)) as [->|Hne].
    + exists (set_use_nodes true mat). rewrite list_lookup_alter_eq, Hj.
      repeat split. apply tree_grows_refl.
    + exists mat. rewrite list_lookup_alter_ne by done.
      repeat split; [done..|apply tree_grows_refl].
  - intros i img Hi. by exists img.
Qed.

Lemma apply_roles_grows items m s :
  scene_grows (scene s) (scene (apply_roles path_exists load_raises items m s)).
Proof.
  revert s. induction items as [|[tex_key tex_path] items IH]; intros s;
    [apply scene_grows_refl|].
  cbn [apply_roles].
  pose proof (bind_scene_grows (scene s) m tex_key tex_path) as Hb.
  destruct (bind (scene s) m tex_key tex_path) as [result d'].
  eapply scene_grows_trans; [exact Hb|]. apply IH.
Qed.

Lemma apply_slots_grows items slots s :
  scene_grows (scene s) (scene (apply_slots path_exists load_raises items slots s)).
Proof.
  revert s. induction slots as [|[m|] slots IH]; intros s;
    [apply scene_grows_refl| |apply IH].
  cbn [apply_slots].
  eapply scene_grows_trans; [|apply IH].
  eapply scene_grows_trans; [apply (enable_nodes_grows (scene s) m)|].
  apply (apply_roles_grows items m
           (mkTally (enable_nodes (scene s) m) (success_count s) (total_count s))).
Qed.

Lemma apply_objects_grows items names s :
  scene_grows (scene s)
    (scene (apply_objects path_exists load_raises items names s)).
Proof.
  revert s. induction names as [|name names IH]; intros s;
    [apply scene_grows_refl|].
  cbn [apply_objects].
  destruct (objects_get (scene s) name) as [obj|]; [|apply IH].
  destruct (String.eqb (obj_type obj) "MESH"); [|apply IH].
  eapply scene_grows_trans; [apply apply_slots_grows|apply IH].
Qed.

End RunFrame.

(** X5: the walk only ever adds.  After it, for any table of roles and any
    scene, the objects are the same; every material is in its place under its
    name, still node-based if it was, and every node it had is in its place
    with its type, name, inputs and location; every image loaded before is in
    its place with its path. *)
Theorem walk_only_adds :
  forall path_exists load_raises items d,
    scene_grows d
      (scene (apply_textures_to_all_materials path_exists load_raises items d)).
Proof.
  intros pe lr items d. unfold apply_textures_to_all_materials.
  apply (apply_objects_grows pe lr items curtain_objects (mkTally d 0 0)).
Qed.

Section RunTally.

Variable path_exists : string -> bool.
Variable load_raises : string -> bool.

Local Abbreviation bind := (replace_texture_in_nodes path_exists load_raises).

Lemma apply_roles_materials_other items m s j :
  j <> m ->
  materials (scene (apply_roles path_exists load_raises items m s)) !! j
  = materials (scene s) !! j.
Proof.
  intros Hne. revert s.
  induction items as [|[tex_key tex_path] items IH]; intros s; [done|].
  cbn [apply_roles].
  pose proof (bind_materials_other path_exists load_raises (scene s) m
                tex_key tex_path j Hne) as Hb.
  destruct (bind (scene s) m tex_key tex_path) as [result d'].
  rewrite IH. exact Hb.
Qed.

Lemma apply_slots_materials_other items slots s j :
  j ∉ omap id slots ->
  materials (scene (apply_slots path_exists load_raises items slots s)) !! j
  = materials (scene s) !! j.
Proof.
  revert s. induction slots as [|[m|] slots IH]; intros s Hj; [done| |].
  - cbn [apply_slots]. csimpl in Hj. apply not_elem_of_cons in Hj as [Hne Hj].
    rewrite IH by done. rewrite apply_roles_materials_other by done.
    simpl. by apply list_lookup_alter_ne.
  - cbn [apply_slots]. by apply IH.
Qed.

Lemma apply_objects_materials_other items names s j :
  j ∉ (obj ← meshes_named (scene s) names; omap id (material_slots obj)) ->
  materials (scene (apply_objects path_exists load_raises items names s)) !! j
  = materials (scene s) !! j.
Proof.
  revert s. induction names as [|name names IH]; intros s Hj; [done|].
  cbn [apply_objects]. unfold meshes_named in Hj. csimpl in Hj.
  fold (meshes_named (scene s) names) in Hj.
  destruct (objects_get (scene s) name) as [obj|]; [|by apply IH].
  destruct (String.eqb (obj_type obj) "MESH"); [|by apply IH].
  csimpl in Hj. apply not_elem_of_app in Hj as [Hobj Hrest].
  rewrite IH.
  - by apply apply_slots_materials_other.
  - by rewrite (meshes_named_ext _ (scene s))
      by apply apply_slots_objects.
Qed.

Lemma apply_roles_le items m s :
  success_count s <= total_count s ->
  success_count (apply_roles path_exists load_raises items m s)
  <= total_count (apply_roles path_exists load_raises items m s).
Proof.
  intros Hle. rewrite apply_roles_total.
  pose proof (apply_roles_success_le path_exists load_raises items m s). lia.
Qed.

Lemma apply_slots_le items slots s :
  success_count s <= total_count s ->
  success_count (apply_slots path_exists load_raises items slots s)
  <= total_count (apply_slots path_exists load_raises items slots s).
Proof.
  revert s. induction slots as [|[m|] slots IH]; intros s Hle; [done| |by apply IH].
  cbn [apply_slots]. apply IH. by apply apply_roles_le.
Qed.

Lemma apply_objects_le items names s :
  success_count s <= total_count s ->
  success_count (apply_objects path_exists load_raises items names s)
  <= total_count (apply_objects path_exists load_raises items names s).
Proof.
  revert s. induction names as [|name names IH]; intros s Hle; [done|].
  cbn [apply_objects].
  destruct (objects_get (scene s) name) as [obj|]; [|by apply IH].
  destruct (String.eqb (obj_type obj) "MESH"); [|by apply IH].
  apply IH. by apply apply_slots_le.
Qed.

End RunTally.

(** X6: the walk writes no material but those in the slots of the target
    meshes: any other material of the scene is, after the walk, exactly what
    it was, for any table of roles. *)
Theorem walk_leaves_other_materials :
  forall path_exists load_raises items d j,
    j ∉ target_materials d ->
    materials
      (scene (apply_textures_to_all_materials path_exists load_raises items d))
      !! j
    = materials d !! j.
Proof.
  intros pe lr items d j Hj. unfold apply_textures_to_all_materials.
  by apply (apply_objects_materials_other pe lr items curtain_objects
              (mkTally d 0 0)).
Qed.

(** X7: the walk never counts more successes than attempts, so the verdict
    printed after it is "all applied" exactly when at least one attempt was
    made and every attempt succeeded; with no success the verdict is "none
    applied", and that includes the run that found nothing to attempt. *)
Theorem walk_verdict :
  forall path_exists load_raises items d,
    let run :=
      apply_textures_to_all_materials path_exists load_raises items d in
    success_count run <= total_count run
    /\ (validate (success_count run) (total_count run) = AllApplied
        <-> 0 < total_count run /\ success_count run = total_count run)
    /\ (validate (success_count run) (total_count run) = NoneApplied
        <-> success_count run = 0)
    /\ (total_count run = 0 ->
        validate (success_count run) (total_count run) = NoneApplied).
Proof.
  intros pe lr items d run.
  assert (Hle : success_count run <= total_count run).
  { unfold run, apply_textures_to_all_materials.
    apply apply_objects_le. simpl. lia. }
  split; [exact Hle|]. unfold validate.
  destruct (Nat.eqb (success_count run) 0) eqn:H0.
  - apply Nat.eqb_eq in H0. intuition (try discriminate; lia).
  - apply Nat.eqb_neq in H0.
    destruct (Nat.ltb (success_count run) (total_count run)) eqn:Hlt.
    + apply Nat.ltb_lt in Hlt. intuition (try discriminate; lia).
    + apply Nat.ltb_ge in Hlt. intuition (try discriminate; lia).
Qed.

(** * More on single binds *)

(** X8: the bare [return] is taken exactly when the shader node is there and
    the role resolves to none of its inputs (an unknown role resolves to
    none); the warning branch of lines 147-149 is never taken.  A bind that
    stops there, or at a material that is not node-based or has no shader
    node, leaves the scene as it was. *)
Theorem bind_early_exit :
  forall path_exists load_raises d m tex_key path,
    let r := replace_texture_in_nodes path_exists load_raises d m tex_key path in
    (r.1 = RetNone
     <-> exists mat p principled,
           materials d !! m = Some mat
           /\ use_nodes mat = true
           /\ find_principled (nodes (node_tree mat)) = Some (p, principled)
           /\ resolve_input tex_key principled = None)
    /\ (r.1 = RetNone -> r.2 = d)
    /\ (forall mat,
          materials d !! m = Some mat ->
          use_nodes mat = false \/ find_principled (nodes (node_tree mat)) = None ->
          r = (RetFalse, d))
    /\ (forall principled,
          dict_get tex_key input_mapping = None ->
          resolve_input tex_key principled = None).
Proof.
  intros pe lr d m tex_key path r.
  assert (Hnone : r.1 = RetNone ->
            (exists mat p principled,
                materials d !! m = Some mat
                /\ use_nodes mat = true
                /\ find_principled (nodes (node_tree mat)) = Some (p, principled)
                /\ resolve_input tex_key principled = None)
            /\ r.2 = d).
  { unfold r, replace_texture_in_nodes.
    destruct (materials d !! m) as [mat|] eqn:Hm; [|done].
    destruct (use_nodes mat) eqn:Huse; [|done]. simpl.
    destruct (find_principled _) as [[p principled]|] eqn:Hp; [|done].
    destruct (resolve_input tex_key principled) as [target|] eqn:Hres.
    - destruct (ensure_texture_node _ _ _) as [t1 tex].
      rewrite (resolve_input_has_input _ _ _ Hres).
      rewrite assign_image_result.
      by destruct (_ && _).
    - intros _. split; [|done]. by exists mat, p, principled. }
  split; [split|split; [|split]].
  - intros Hr. by destruct (Hnone Hr).
  - intros (mat & p & principled & Hm & Huse & Hp & Hres).
    unfold r, replace_texture_in_nodes. by rewrite Hm, Huse, Hp, Hres.
  - intros Hr. by destruct (Hnone Hr).
  - intros mat Hm [Huse|Hp]; unfold r, replace_texture_in_nodes; rewrite Hm.
    + by rewrite Huse.
    + destruct (negb (use_nodes mat)); [done|]. by rewrite Hp.
  - intros principled Hget. unfold resolve_input. by rewrite Hget.
Qed.

Lemma into_socket_false n sock l :
  into_socket n sock l = false <-> ~ (to_node l = n /\ to_socket l = sock).
Proof.
  unfold into_socket. rewrite andb_false_iff, Nat.eqb_neq, String.eqb_neq.
  split; [intros [?|?] [? ?]; done|]. intros Hnot.
  destruct (decide (to_node l = n)); [|by left]. right. intros ?. by apply Hnot.
Qed.

(** X9: a bind that reaches the rewiring stage replaces what was plugged
    into the shader input it resolved (and, for the normal role, into the
    "Color" input of the decoder node) and nothing else.  The input now holds
    the one link from the texture node of the role; for the normal role the
    'Normal' input holds the one link from the decoder node, a 'NORMAL_MAP'
    node whose 'Color' input holds the one link from the texture node.  Every
    other input socket of every node holds, in order, the links it held. *)
Theorem bind_keeps_other_links :
  forall path_exists load_raises d m material p principled tex_key target path,
    materials d !! m = Some material ->
    use_nodes material = true ->
    find_principled (nodes (node_tree material)) = Some (p, principled) ->
    resolve_input tex_key principled = Some target ->
    exists mat' tex,
      materials (replace_texture_in_nodes path_exists load_raises
                   d m tex_key path).2 !! m = Some mat'
      /\ node_has_type (nodes (node_tree mat')) "TEX_IMAGE" tex = true
      /\ if String.eqb tex_key "normal"
         then exists nm,
                node_has_type (nodes (node_tree mat')) "NORMAL_MAP" nm = true
                /\ socket_links (node_tree mat') p "Normal"
                   = [mkLink nm "Normal" p "Normal"]
                /\ socket_links (node_tree mat') nm "Color"
                   = [mkLink tex "Color" nm "Color"]
                /\ forall n sock,
                     ~ (n = p /\ sock = "Normal") ->
                     ~ (n = nm /\ sock = "Color") ->
                     socket_links (node_tree mat') n sock
                     = socket_links (node_tree material) n sock
         else socket_links (node_tree mat') p target
              = [mkLink tex "Color" p target]
              /\ forall n sock,
                   ~ (n = p /\ sock = target) ->
                   socket_links (node_tree mat') n sock
                   = socket_links (node_tree material) n sock.
Proof.
  intros pe lr d m material p principled tex_key target path Hm Huse Hp Hres.
  destruct (bind_step pe lr d m material p principled tex_key target path
              Hm Huse Hp Hres)
    as (t2 & tex & t' & Hw & Hmat & Hl & Hn & _).
  pose proof (wired_spec _ _ _ _ _ _ _ Hw)
    as (_ & _ & _ & _ & _ & Htex & Hsock).
  assert (Hty : forall ty i,
             node_has_type (nodes t') ty i = node_has_type (nodes t2) ty i).
  { intros ty i. destruct Hn as [->|[img ->]]; [done|].
    apply node_has_type_alter_image. }
  exists (set_tree t' material), tex. split.
  { rewrite Hmat. apply list_lookup_insert_eq. by eapply lookup_lt_Some. }
  cbn [node_tree set_tree]. split; [by rewrite Hty|].
  unfold socket_links in *. rewrite Hl.
  unfold wired in Hw.
  destruct (ensure_texture_node _ _ _) as [t1 tex1] eqn:Hens.
  injection Hw as <- <-.
  apply ensure_texture_node_spec in Hens as (Hl1 & _);
    [|intros i; apply find_connected_texture_type].
  destruct (String.eqb tex_key "normal") eqn:Hkey.
  - apply String.eqb_eq in Hkey as ->.
    destruct Hsock as (nm & Hnm & Hcolor & Hnormal).
    exists nm. rewrite Hty. do 3 (split; [done|]).
    destruct (connect_normal t1 p tex1 target)
      as (nm' & decoder & extra & Heq & _).
    rewrite Heq in Hnormal |- *. cbn [links] in Hnormal |- *.
    rewrite links_new_same in Hnormal. injection Hnormal as ->.
    intros n sock Hp' Hnm'.
    rewrite !links_new_other, Hl1; [done|..];
      apply into_socket_false; simpl; intros [<- <-]; auto.
  - split; [done|].
    rewrite connect_direct by done. simpl. intros n sock Hp'.
    rewrite links_new_other, Hl1; [done|].
    apply into_socket_false. simpl. intros [<- <-]. auto.
Qed.

Section TwoBinds.

Variable path_exists : string -> bool.
Variable load_raises : string -> bool.

Local Abbreviation bind := (replace_texture_in_nodes path_exists load_raises).

(** After a bind that succeeded, the first image with the path is the one
    the bind found or loaded, tagged for its role. *)
Lemma bind_true_find_image d m tex_key path d' :
  bind d m tex_key path = (RetTrue, d') ->
  exists img,
    find_image (images d') path
    = Some (match find_image (images d) path with
            | Some (i, _) => i
            | None => length (images d)
            end, img)
    /\ colorspace img = colorspace_for tex_key.
Proof.
  intros Hbind.
  apply bind_images_cases in Hbind
    as [[? _]|[(_ & i & img & Hfind & Himgs)|(_ & Hnone & Himgs)]]; [done|..].
  - rewrite Hfind, Himgs.
    apply list_find_Some in Hfind as (Hi & Hpath & Hfirst).
    exists (set_colorspace (colorspace_for tex_key) img). split; [|done].
    apply list_find_Some. rewrite list_lookup_alter_eq, Hi.
    split; [done|]. split; [done|].
    intros j y Hj Hlt. rewrite list_lookup_alter_ne in Hj by lia. eauto.
  - rewrite Hnone, Himgs. exists (mkImage path (colorspace_for tex_key)).
    split; [|done]. unfold find_image in *.
    rewrite list_find_app_r by done. simpl.
    by rewrite decide_True by done.
Qed.

End TwoBinds.

(** X11: when two binds with the same path both succeed, whatever the
    materials and the roles, they share one image, and it carries the tag of
    the later role: the image the first bind tagged for its own role is
    re-tagged in place.  A file bound to the diffuse role and then to any
    other role ends up tagged 'Non-Color'. *)
Theorem later_role_tag_wins :
  forall path_exists load_raises d m1 tex_key1 m2 tex_key2 path d1 d2,
    replace_texture_in_nodes path_exists load_raises d m1 tex_key1 path
    = (RetTrue, d1) ->
    replace_texture_in_nodes path_exists load_raises d1 m2 tex_key2 path
    = (RetTrue, d2) ->
    exists i img1 img2,
      find_image (images d1) path = Some (i, img1)
      /\ colorspace img1 = colorspace_for tex_key1
      /\ find_image (images d2) path = Some (i, img2)
      /\ colorspace img2 = colorspace_for tex_key2
      /\ length (images d2) = length (images d1)
      /\ (exists mat tex node,
            materials d2 !! m2 = Some mat
            /\ nodes (node_tree mat) !! tex = Some node
            /\ node_image node = Some i)
      /\ (tex_key1 = "diffuse" -> tex_key2 <> "diffuse" ->
          colorspace img1 = "sRGB" /\ colorspace img2 = "Non-Color").
Proof.
  intros pe lr d m1 k1 m2 k2 path d1 d2 Hb1 Hb2.
  destruct (bind_true_find_image pe lr _ _ _ _ _ Hb1) as (img1 & Hf1 & Hc1).
  destruct (bind_true_find_image pe lr _ _ _ _ _ Hb2) as (img2 & Hf2 & Hc2).
  rewrite Hf1 in Hf2.
  eexists _, img1, img2. split; [exact Hf1|]. split; [done|].
  split; [exact Hf2|]. split; [done|]. split.
  { pose proof (bind_loaded_path_no_growth pe lr d1 m2 k2 path) as Hlen.
    rewrite Hb2 in Hlen. apply Hlen. by rewrite Hf1. }
  split.
  { destruct (bind_true_node_image pe lr _ _ _ _ _ Hb2)
      as (mat & tex & node & Hm & Hn & _ & Himg).
    rewrite Hf1 in Himg. by exists mat, tex, node. }
  intros -> Hne. rewrite Hc1, Hc2. split; [done|].
  destruct (bind_true_inv pe lr _ _ _ _ _ Hb2)
    as (_ & _ & principled & target & _ & _ & _ & Hres).
  by apply resolve_input_keys in Hres as [-> | [-> | [-> | ->]]].
Qed.

(** * The decoder node on a second bind *)

Lemma find_normal_map_set_image_index ns tex_key img tex :
  fst <$> find_normal_map (alter (set_image img) tex ns) tex_key
  = fst <$> find_normal_map ns tex_key.
Proof.
  unfold find_normal_map. revert tex.
  induction ns as [|n ns IH]; intros tex; [by destruct tex|].
  destruct tex as [|tex]; csimpl.
  - by destruct (decide _).
  - case_decide; [done|]. specialize (IH tex).
    destruct (list_find _ (alter _ tex ns)) as [[? ?]|],
             (list_find _ ns) as [[? ?]|]; by simplify_eq/=.
Qed.

(** Wiring the normal role: the decoder node that ends up feeding the
    shader is the first one the name scan finds in the wired tree. *)
Lemma wired_normal_links t p principled target t2 tex :
  wired t "normal" p principled target = (t2, tex) ->
  exists nm decoder,
    find_normal_map (nodes t2) "normal" = Some (nm, decoder)
    /\ socket_links t2 p "Normal" = [mkLink nm "Normal" p "Normal"].
Proof.
  unfold wired. destruct (ensure_texture_node _ _ _) as [t1 tex1].
  intros [= <- <-].
  destruct (connect_normal t1 p tex1 target)
    as (nm & decoder & extra & -> & Hfind & _). simpl.
  exists nm, decoder. split; [done|]. unfold socket_links. simpl.
  apply links_new_same.
Qed.

(** Wiring it on a tree that has a decoder node already: that node is the
    one found, and no decoder node is added. *)
Lemma wired_normal_keeps_decoder t p principled target t2 tex :
  wired t "normal" p principled target = (t2, tex) ->
  is_Some (find_normal_map (nodes t) "normal") ->
  fst <$> find_normal_map (nodes t2) "normal"
  = fst <$> find_normal_map (nodes t) "normal"
  /\ length (decoder_nodes t2) = length (decoder_nodes t).
Proof.
  unfold wired. intros Hw [[j dec] Hdec].
  destruct (ensure_texture_node t "normal" _) as [t1 tex1] eqn:Hens.
  injection Hw as <- <-.
  assert (Hn1 : exists extra,
             nodes t1 = nodes t ++ extra
             /\ Forall (fun n => node_type n = "TEX_IMAGE") extra).
  { destruct (find_connected_texture t p principled target) as [i|].
    - rewrite ensure_texture_node_reuse in Hens. injection Hens as <- <-.
      exists []. by rewrite app_nil_r.
    - destruct (ensure_texture_node_fresh t "normal") as (node & Heq & Hty & _).
      rewrite Heq in Hens. injection Hens as <- <-.
      exists [node]. split; [done|]. by repeat constructor. }
  destruct Hn1 as (extra1 & Hn1 & Hty1).
  assert (Hdec1 : find_normal_map (nodes t1) "normal" = Some (j, dec)).
  { rewrite Hn1. by apply list_find_app_l. }
  destruct (connect_normal t1 p tex1 target)
    as (nm & decoder & extra2 & -> & Hfind & Hlen & _). simpl.
  rewrite Hdec1 in Hlen. destruct extra2; [|done].
  rewrite app_nil_r in *. rewrite Hfind in Hdec1. rewrite Hfind, Hdec.
  injection Hdec1 as -> ->. split; [done|].
  unfold decoder_nodes. cbn [nodes]. rewrite Hn1, List.filter_app, length_app.
  replace (List.filter _ extra1) with (@nil Node); [simpl; lia|].
  clear Hn1. induction Hty1 as [|n extra Hn _ IH]; [done|].
  simpl. rewrite Hn. simpl. exact IH.
Qed.

(** X10: on a material whose shader node has a "Normal" input, the second
    bind of the normal role does reuse the decoder node: the tree has as many
    decoder nodes after the second bind as after the first (at least one),
    and the shader's "Normal" input is fed by the same decoder node after
    both. *)
Theorem normal_rebind_reuses_decoder :
  forall path_exists load_raises d m material p principled path,
    materials d !! m = Some material ->
    use_nodes material = true ->
    find_principled (nodes (node_tree material)) = Some (p, principled) ->
    has_input "Normal" principled = true ->
    let d1 := (replace_texture_in_nodes path_exists load_raises
                 d m "normal" path).2 in
    let d2 := (replace_texture_in_nodes path_exists load_raises
                 d1 m "normal" path).2 in
    exists mat1 mat2 nm,
      materials d1 !! m = Some mat1
      /\ materials d2 !! m = Some mat2
      /\ 1 <= length (decoder_nodes (node_tree mat1))
      /\ length (decoder_nodes (node_tree mat2))
         = length (decoder_nodes (node_tree mat1))
      /\ node_has_type (nodes (node_tree mat2)) "NORMAL_MAP" nm = true
      /\ socket_links (node_tree mat1) p "Normal" = [mkLink nm "Normal" p "Normal"]
      /\ socket_links (node_tree mat2) p "Normal" = [mkLink nm "Normal" p "Normal"].
Proof.
  intros pe lr d m material p principled path Hm Huse Hp Hin d1 d2.
  pose proof (resolve_input_normal _ Hin) as Hres.
  assert (Hlt : m < length (materials d)) by by eapply lookup_lt_Some.
  (* the first bind *)
  destruct (bind_step pe lr d m material p principled "normal" "Normal" path
              Hm Huse Hp Hres)
    as (t2 & tex & t1' & Hw & Hmat1 & Hl1 & Hn1 & _).
  fold d1 in Hmat1.
  destruct (wired_normal_links _ _ _ _ _ _ Hw) as (nm & decoder & Hfind2 & Hsock2).
  pose proof (find_normal_map_type _ _ _ _ Hfind2) as Hnm2.
  apply wired_spec in Hw as (extra & Hnodes2 & _).
  assert (Hp2 : find_principled (nodes t2) = Some (p, principled))
    by (rewrite Hnodes2; by apply find_principled_app).
  destruct (written_tree_counts t2 t1' tex Hn1)
    as (_ & _ & Hdec1 & Htypes1 & Hsome1).
  destruct (written_tree_principled t2 t1' tex p principled Hn1 Hp2)
    as (principled' & Hp' & Hinputs).
  assert (Hfind1 : fst <$> find_normal_map (nodes t1') "normal" = Some nm).
  { destruct Hn1 as [->|[i ->]]; [by rewrite Hfind2|].
    by rewrite find_normal_map_set_image_index, Hfind2. }
  assert (Hm1 : materials d1 !! m = Some (set_tree t1' material))
    by (rewrite Hmat1; by apply list_lookup_insert_eq).
  (* the second bind *)
  assert (Hres' : resolve_input "normal" principled' = Some "Normal")
    by (by rewrite (resolve_input_inputs _ _ principled)).
  destruct (bind_step pe lr d1 m (set_tree t1' material) p principled'
              "normal" "Normal" path Hm1 Huse Hp' Hres')
    as (t3 & tex3 & t2' & Hw3 & Hmat2 & Hl3 & Hn3 & _).
  fold d2 in Hmat2. cbn [node_tree set_tree] in Hw3.
  destruct (wired_normal_links _ _ _ _ _ _ Hw3)
    as (nm3 & decoder3 & Hfind3 & Hsock3).
  destruct (wired_normal_keeps_decoder _ _ _ _ _ _ Hw3) as [Hsame Hcount].
  { apply Hsome1. by rewrite Hfind2. }
  rewrite Hfind3, Hfind1 in Hsame. injection Hsame as ->.
  destruct (written_tree_counts t3 t2' tex3 Hn3) as (_ & _ & Hdec3 & Htypes3 & _).
  exists (set_tree t1' material), (set_tree t2' (set_tree t1' material)), nm.
  split; [done|]. split.
  { rewrite Hmat2. apply list_lookup_insert_eq. by eapply lookup_lt_Some. }
  cbn [node_tree set_tree]. split.
  { rewrite Hdec1. unfold decoder_nodes.
    by apply node_has_type_counted with nm. }
  split; [by rewrite Hdec3, Hcount|]. split.
  { rewrite Htypes3. by eapply find_normal_map_type. }
  unfold socket_links in *. by rewrite Hl1, Hl3.
Qed.

(** * Every outcome of the device selection *)

Section DeviceOutcome.

Variable type_supported : string -> bool.
Variable enumerate : string -> list Device -> option (list Device).

Lemma after_probe_cycles_device ty r :
  cycles_device (after_probe type_supported enumerate ty r) = cycles_device r.
Proof.
  unfold after_probe, set_compute_device_type, get_devices.
  destruct (String.eqb ty "NONE" || type_supported ty); [|done]. simpl.
  by destruct (enumerate ty (devices r)).
Qed.

Lemma try_device_types_outcome types use_denoising r :
  let out := try_device_types type_supported enumerate types use_denoising r in
  if out.1
  then exists ty,
         In ty types
         /\ compute_device_type out.2 = ty
         /\ cycles_device out.2 = "GPU"
         /\ Forall (fun dv => dev_use dv = String.eqb (dev_type dv) ty) (devices out.2)
         /\ Exists (fun dv => dev_use dv = true) (devices out.2)
  else cycles_device out.2 = cycles_device r.
Proof.
  revert r. induction types as [|ty types IH]; intros r; [done|].
  cbv zeta in *. rewrite try_device_types_cons.
  destruct (family_devices type_supported enumerate ty r) as [|dv ds] eqn:Hshown.
  - specialize (IH (after_probe type_supported enumerate ty r)).
    destruct (try_device_types _ _ types _ _) as [[] r']; simpl in *.
    + destruct IH as (ty' & Hin & IH). exists ty'. split; [by right|done].
    + by rewrite IH, after_probe_cycles_device.
  - assert (Hsome : family_devices type_supported enumerate ty r <> [])
      by (by rewrite Hshown).
    simpl.
    destruct (select_type_fields ty use_denoising
                (after_probe type_supported enumerate ty r))
      as (Hty & Hdevs & Hgpu & _).
    exists ty. split; [by left|]. rewrite Hty, Hdevs, Hgpu.
    split; [by apply shown_compute_device_type|]. split; [done|].
    split; [apply use_only_flags|].
    rewrite (shown_devices _ _ ty r Hsome) in Hshown.
    assert (Hin : In dv (List.filter (fun dv => String.eqb (dev_type dv) ty)
                   (devices (after_probe type_supported enumerate ty r))))
      by (rewrite Hshown; by left).
    apply filter_In in Hin as [Hin Hdv].
    apply Exists_exists. exists (set_use (String.eqb (dev_type dv) ty) dv).
    split; [|by simpl].
    unfold use_only. apply list_elem_of_fmap. exists dv.
    split; [done|]. by apply list_elem_of_In.
Qed.

End DeviceOutcome.

Lemma configure_device_returns type_supported enumerate use_gpu use_denoising r :
  is_Some (configure_device type_supported enumerate use_gpu use_denoising r).
Proof.
  unfold configure_device. destruct use_gpu; [|done].
  destruct (try_device_types _ _ _ _ _) as [[] r1]; [done|].
  unfold cpu_fallback, set_compute_device_type. by simpl.
Qed.

(** X12: the device selection always completes, and leaves one of three
    settings.  Asked for the GPU, it ends either on 'GPU' with the
    preferences naming one family of the list, exactly the devices of that
    family in use and at least one of them, or on 'CPU' with back-end 'NONE'
    and exactly the CPU devices in use.  Not asked for the GPU, it sets the
    scene device to 'CPU' and leaves the preferences (back-end and every
    device flag) as they were. *)
Theorem configure_device_outcome :
  forall type_supported enumerate use_gpu use_denoising r,
    exists r',
      configure_device type_supported enumerate use_gpu use_denoising r = Some r'
      /\ if use_gpu
         then (cycles_device r' = "GPU"
               /\ exists ty,
                    In ty available_types
                    /\ compute_device_type r' = ty
                    /\ Forall (fun dv => dev_use dv = String.eqb (dev_type dv) ty)
                              (devices r')
                    /\ Exists (fun dv => dev_use dv = true) (devices r'))
              \/ (cycles_device r' = "CPU"
                  /\ compute_device_type r' = "NONE"
                  /\ Forall (fun dv => dev_use dv = String.eqb (dev_type dv) "CPU")
                            (devices r'))
         else cycles_device r' = "CPU"
              /\ compute_device_type r' = compute_device_type r
              /\ devices r' = devices r
              /\ denoiser r' = denoiser r.
Proof.
  intros ts en use_gpu dn r. unfold configure_device.
  destruct use_gpu; [|by eexists].
  pose proof (try_device_types_outcome ts en available_types dn
                (default r (get_devices en r))) as Hout.
  cbv zeta in Hout.
  destruct (try_device_types ts en available_types dn _) as [[] r1];
    simpl in Hout.
  - exists r1. split; [done|]. left.
    destruct Hout as (ty & Hin & Hty & Hgpu & Hall & Hex). split; [done|].
    by exists ty.
  - unfold cpu_fallback, set_compute_device_type. simpl.
    eexists. split; [done|]. right. simpl.
    repeat split. apply use_only_flags.
Qed.

(** * Render settings *)

Lemma int_property_Some lo hi v :
  (INT_MIN <= v <= INT_MAX)%Z ->
  int_property lo hi v = Some (Z.max lo (Z.min hi v)).
Proof.
  intros [Hlo Hhi]. unfold int_property.
  apply Z.leb_le in Hlo, Hhi. by rewrite Hlo, Hhi.
Qed.

Lemma int_property_None lo hi v :
  ~ (INT_MIN <= v <= INT_MAX)%Z -> int_property lo hi v = None.
Proof.
  intros Hout. unfold int_property.
  destruct (Z.leb INT_MIN v) eqn:Hlo; [|done].
  destruct (Z.leb v INT_MAX) eqn:Hhi; [|done].
  apply Z.leb_le in Hlo, Hhi. by destruct Hout.
Qed.

(** The settings stage raises exactly on a sample count that does not fit a
    C [int], and then on its first line. *)
Lemma apply_settings_cases a s :
  ((INT_MIN <= samples a <= INT_MAX)%Z
   /\ exists s', apply_settings a s = Stored s')
  \/ (~ (INT_MIN <= samples a <= INT_MAX)%Z
      /\ apply_settings a s = RaisedValueError s).
Proof.
  unfold apply_settings, set_samples, set_preview_samples.
  destruct (decide (INT_MIN <= samples a <= INT_MAX)%Z) as [Hin|Hout].
  - left. split; [done|]. rewrite int_property_Some by done. simpl.
    rewrite int_property_Some; [by eexists|].
    unfold INT_MIN, INT_MAX in *.
    assert (samples a / 4 <= 2147483647)%Z
      by (apply Z.div_le_upper_bound; lia).
    lia.
  - right. split; [done|]. by rewrite int_property_None.
Qed.

(** X13: the sample count goes through an int property.  A count that does
    not fit a C [int] raises [ValueError] on the first line of the stage,
    before any setting is written; every other count is stored, clamped to
    the range 1 to 2^24 of the property, so the counts the node accepts, 1 to
    4096, are stored as they are.  The preview sample count is then the
    larger of 32 and a quarter of the count, capped at 2^24: it is never
    below 32 and, for a count that is not negative, never above the larger
    of 32 and the count; for the node's counts it lies between 32 and 1024
    and exceeds the stored sample count exactly when that is below 32.  The
    adaptive threshold is written only when adaptive sampling is on. *)
Theorem apply_settings_preview_samples :
  forall a s,
    (~ (INT_MIN <= samples a <= INT_MAX)%Z ->
     apply_settings a s = RaisedValueError s)
    /\ ((INT_MIN <= samples a <= INT_MAX)%Z ->
        exists s',
          apply_settings a s = Stored s'
          /\ cycles_samples s' = Z.max 1 (Z.min samples_max (samples a))
          /\ preview_samples s'
             = Z.min samples_max (Z.max 32 (samples a / 4))
          /\ (32 <= preview_samples s' <= samples_max)%Z
          /\ ((0 <= samples a)%Z ->
              (preview_samples s' <= Z.max 32 (samples a))%Z)
          /\ ((1 <= samples a <= 4096)%Z ->
              cycles_samples s' = samples a
              /\ (preview_samples s' <= 1024)%Z
              /\ ((samples a < preview_samples s')%Z <-> (samples a < 32)%Z))
          /\ (adaptive_sampling a = false ->
              adaptive_threshold s' = adaptive_threshold s)).
Proof.
  intros a s. split.
  - intros Hout. unfold apply_settings, set_samples.
    by rewrite int_property_None.
  - intros Hin. unfold apply_settings, set_samples, set_preview_samples.
    assert (Hquarter : (samples a / 4 <= 2147483647)%Z).
    { unfold INT_MIN, INT_MAX in Hin. apply Z.div_le_upper_bound; lia. }
    rewrite int_property_Some by done. simpl.
    rewrite int_property_Some by (unfold INT_MIN, INT_MAX in *; lia). simpl.
    eexists. split; [done|]. simpl. unfold samples_max.
    split; [done|]. split; [lia|]. split; [lia|]. split.
    { intros Hpos.
      assert (samples a / 4 <= samples a)%Z
        by (apply Z.div_le_upper_bound; lia).
      lia. }
    split.
    + intros [Hlo Hhi].
      assert (samples a / 4 <= 1024)%Z by (apply Z.div_le_upper_bound; lia).
      assert (samples a / 4 <= samples a)%Z
        by (apply Z.div_le_upper_bound; lia).
      lia.
    + by intros ->.
Qed.

(** * The script as a whole *)

Lemma camera_lookup_objects (d d' : BlendData) :
  objects d' = objects d ->
  list_find (fun o => obj_name o = "Camera.006") (objects d')
  = list_find (fun o => obj_name o = "Camera.006") (objects d).
Proof. by intros ->. Qed.

(** X14: texturing is best effort.  The script gets to the render call
    exactly when its arguments parse, the sample count fits a C [int] and
    the scene it was started on has an object named "Camera.006", however
    many binds failed.  When the camera is missing the script stops on its
    exception with the textures already applied and the device preferences,
    the scene camera and the render settings untouched.  When the camera is
    there and the sample count does not fit, the script stops on the
    [ValueError] of its first settings line: the textures are applied, the
    camera and the engine set, the device configured, and no other setting
    written. *)
Theorem run_script_reaches_render :
  forall path_exists load_raises type_supported enumerate py_int render_raises
         sys_argv w,
    let out := run_script path_exists load_raises type_supported enumerate
                 py_int render_raises sys_argv w in
    ((out.1 = Finished \/ out.1 = ExitRenderFailed)
     <-> (exists a, parse_args py_int sys_argv = Parsed a
                    /\ (INT_MIN <= samples a <= INT_MAX)%Z)
         /\ exists o, o ∈ objects (data w) /\ obj_name o = "Camera.006")
    /\ (forall a,
          parse_args py_int sys_argv = Parsed a ->
          (forall o, o ∈ objects (data w) -> obj_name o <> "Camera.006") ->
          out.1 = Uncaught "Exception"
          /\ data out.2
             = scene (apply_textures_to_all_materials path_exists load_raises
                        (texture_paths (diffuse_path a) (normal_path a)
                           (roughness_path a) (specular_path a))
                        (data w))
          /\ device_state out.2 = device_state w
          /\ scene_camera out.2 = scene_camera w
          /\ settings out.2 = settings w)
    /\ (forall a,
          parse_args py_int sys_argv = Parsed a ->
          (exists o, o ∈ objects (data w) /\ obj_name o = "Camera.006") ->
          ~ (INT_MIN <= samples a <= INT_MAX)%Z ->
          out.1 = Uncaught "ValueError"
          /\ data out.2
             = scene (apply_textures_to_all_materials path_exists load_raises
                        (texture_paths (diffuse_path a) (normal_path a)
                           (roughness_path a) (specular_path a))
                        (data w))
          /\ configure_device type_supported enumerate
               (use_gpu a) (use_denoising a) (device_state w)
             = Some (device_state out.2)
          /\ (exists c o,
                scene_camera out.2 = Some c
                /\ objects (data w) !! c = Some o
                /\ obj_name o = "Camera.006")
          /\ settings out.2 = set_engine "CYCLES" (settings w)).
Proof.
  intros pe lr ts en py_int rr sys_argv w out.
  unfold out, run_script.
  destruct (parse_args py_int sys_argv) as [| | |a] eqn:Hparse.
  1-3: split; [split; [by intros [?|?]|by intros [(a & ? & _) _]]|];
       split; by intros a ?.
  cbn [data].
  destruct (apply_objects_grows pe lr
              (texture_paths (diffuse_path a) (normal_path a)
                 (roughness_path a) (specular_path a))
              curtain_objects (mkTally (data w) 0 0))
    as (Hobjects & _).
  unfold apply_textures_to_all_materials.
  rewrite (camera_lookup_objects (data w) _ Hobjects).
  destruct (list_find _ (objects (data w))) as [[c o]|] eqn:Hcam.
  - apply list_find_Some in Hcam as (Hc & Hname & _).
    assert (Ho : o ∈ objects (data w)) by (apply list_elem_of_lookup; eauto).
    destruct (configure_device_returns ts en (use_gpu a) (use_denoising a)
                (device_state w)) as (r & Hr).
    cbn [device_state settings scene_camera]. rewrite Hr.
    destruct (apply_settings_cases a (set_engine "CYCLES" (settings w)))
      as [[Hin [s' ->]]|[Hout ->]].
    + split; [split|split].
      * intros _. split; [by exists a|]. by exists o.
      * intros _. destruct (rr _); auto.
      * intros a' [= <-] Hnone. by destruct (Hnone o Ho).
      * by intros a' [= <-] _ Hout.
    + split; [split|split].
      * by intros [?|?].
      * by intros [(a' & [= <-] & Hin) _].
      * intros a' [= <-] Hnone. by destruct (Hnone o Ho).
      * intros a' [= <-] _ _. cbn [fst snd data device_state scene_camera settings].
        do 3 (split; [done|]). split; [|done]. by exists c, o.
  - apply list_find_None in Hcam. rewrite Forall_forall in Hcam.
    split; [split|split].
    + by intros [?|?].
    + intros (_ & o & Ho & Hname). by destruct (Hcam o Ho).
    + by intros a' [= <-] _.
    + intros a' _ (o & Ho & Hname) _. by destruct (Hcam o Ho).
Qed.

(** * The tally of a whole run *)

Section RunCount.

Variable path_exists : string -> bool.
Variable load_raises : string -> bool.

Local Abbreviation bind := (replace_texture_in_nodes path_exists load_raises).

Lemma ready_with_nodes_shader_ready d m :
  ready_with_nodes d m -> shader_ready d m.
Proof.
  intros (mat & p & principled & Hm & _ & Hp & Hall).
  by exists mat, p, principled.
Qed.

(** A bind of a role, on any material, keeps every ready material ready. *)
Lemma bind_keeps_shader_ready d m tex_key path j :
  shader_ready d j ->
  In tex_key roles ->
  shader_ready (bind d m tex_key path).2 j.
Proof.
  intros Hready Hkey. destruct (decide (j = m)) as [->|Hne].
  - pose proof Hready as (mat & p & principled & Hm & Hp & Hall).
    destruct (use_nodes mat) eqn:Huse.
    + apply ready_with_nodes_shader_ready.
      apply bind_keeps_ready; [|done]. by exists mat, p, principled.
    + unfold replace_texture_in_nodes. by rewrite Hm, Huse.
  - destruct Hready as (mat & p & principled & Hm & Hp & Hall).
    exists mat, p, principled.
    by rewrite bind_materials_other.
Qed.

Lemma enable_nodes_keeps_shader_ready d m j :
  shader_ready d j -> shader_ready (enable_nodes d m) j.
Proof.
  intros (mat & p & principled & Hm & Hp & Hall).
  unfold shader_ready, enable_nodes. cbn [materials].
  destruct (decide (m = j)) as [->|Hne].
  - exists (set_use_nodes true mat), p, principled.
    by rewrite list_lookup_alter_eq, Hm.
  - exists mat, p, principled. by rewrite list_lookup_alter_ne.
Qed.

Local Abbreviation table_ok := (table_loads path_exists load_raises).

Lemma apply_roles_keeps_shader_ready items m s j :
  table_ok items ->
  shader_ready (scene s) j ->
  shader_ready (scene (apply_roles path_exists load_raises items m s)) j.
Proof.
  intros Hitems. revert s.
  induction Hitems as [|[tex_key tex_path] items [Hkey _] _ IH]; intros s Hj;
    [done|].
  cbn [apply_roles].
  pose proof (bind_keeps_shader_ready (scene s) m tex_key tex_path j Hj Hkey)
    as Hb.
  destruct (bind (scene s) m tex_key tex_path) as [result d'].
  by apply IH.
Qed.

Lemma apply_slots_count items slots s (ready : list nat) :
  table_ok items ->
  (forall j, j ∈ ready -> shader_ready (scene s) j) ->
  (forall j, j ∈ omap id slots -> j ∈ ready) ->
  let s' := apply_slots path_exists load_raises items slots s in
  success_count s'
  = success_count s
    + length (List.filter (fun slot : option nat => bool_decide (is_Some slot))
                          slots)
      * length (List.filter path_exists (List.map snd items))
  /\ forall j, j ∈ ready -> shader_ready (scene s') j.
Proof.
  intros Hitems. revert s.
  induction slots as [|[m|] slots IH]; intros s Hready Hslots.
  - simpl. split; [lia|done].
  - cbn [apply_slots].
    set (s1 := mkTally (enable_nodes (scene s) m) (success_count s)
                 (total_count s)).
    assert (Hm : m ∈ ready) by (apply Hslots; csimpl; by left).
    destruct (IH (apply_roles path_exists load_raises items m s1)) as [Hc Hr].
    + intros j Hj. apply apply_roles_keeps_shader_ready; [done|].
      apply enable_nodes_keeps_shader_ready. by apply Hready.
    + intros j Hj. apply Hslots. csimpl. by right.
    + split; [|done]. cbv zeta in Hc. rewrite Hc.
      rewrite apply_roles_success; [simpl; lia| |done].
      apply enable_nodes_ready. by apply Hready.
  - cbn [apply_slots]. destruct (IH s Hready) as [Hc Hr]; [by csimpl|].
    split; [|done]. cbv zeta in Hc. rewrite Hc. simpl. lia.
Qed.

Lemma apply_objects_count items names s (ready : list nat) :
  table_ok items ->
  (forall j, j ∈ ready -> shader_ready (scene s) j) ->
  (forall j, j ∈ (obj ← meshes_named (scene s) names;
                  omap id (material_slots obj)) -> j ∈ ready) ->
  success_count (apply_objects path_exists load_raises items names s)
  = success_count s
    + sum_list (nonempty_slots <$> meshes_named (scene s) names)
      * length (List.filter path_exists (List.map snd items)).
Proof.
  intros Hitems. revert s.
  induction names as [|name names IH]; intros s Hready Hslots.
  - simpl. lia.
  - cbn [apply_objects]. unfold meshes_named in Hslots |- *.
    csimpl in Hslots. csimpl.
    fold (meshes_named (scene s) names) in Hslots |- *.
    destruct (objects_get (scene s) name) as [obj|]; [|by apply IH].
    destruct (String.eqb (obj_type obj) "MESH"); [|by apply IH].
    csimpl in Hslots. csimpl.
    destruct (apply_slots_count items (material_slots obj) s ready Hitems Hready)
      as [Hc Hr].
    { intros j Hj. apply Hslots, elem_of_app. by left. }
    cbv zeta in Hc, Hr.
    rewrite IH; [| done |].
    + rewrite Hc.
      rewrite (meshes_named_ext _ (scene s)) by apply apply_slots_objects.
      unfold nonempty_slots at 2. lia.
    + intros j Hj. apply Hslots, elem_of_app. right.
      by rewrite (meshes_named_ext _ (scene s)) in Hj
        by apply apply_slots_objects.
Qed.

End RunCount.

(** X15: on a scene whose target materials can all take every role, with
    files that load whenever they exist, the run counts one success per
    non-empty target slot and existing file: the number of non-empty slots of
    the target meshes times the number of the four paths that exist.  With
    all four files there every attempt succeeds. *)
Theorem walk_success_count :
  forall path_exists load_raises
         diffuse_path normal_path roughness_path specular_path d,
    let paths := [diffuse_path; normal_path; roughness_path; specular_path] in
    let run :=
      apply_textures_to_all_materials path_exists load_raises
        (texture_paths diffuse_path normal_path roughness_path specular_path) d in
    (forall j, j ∈ target_materials d -> shader_ready d j) ->
    (forall path, In path paths ->
                  path_exists path = true -> load_raises path = false) ->
    success_count run
    = sum_list (nonempty_slots <$> target_meshes d)
      * length (List.filter path_exists paths)
    /\ ((forall path, In path paths -> path_exists path = true) ->
        success_count run = total_count run).
Proof.
  intros pe lr dp np rp sp d paths run Hready Hload.
  assert (Hcount : success_count run
                   = sum_list (nonempty_slots <$> target_meshes d)
                     * length (List.filter pe paths)).
  { unfold run, apply_textures_to_all_materials.
    rewrite (apply_objects_count pe lr _ curtain_objects (mkTally d 0 0)
               (target_materials d)); [done| |done..].
    unfold table_loads, texture_paths, roles.
    repeat constructor; simpl; auto 10; intros; apply Hload; simpl; auto. }
  split; [exact Hcount|]. intros Hall. rewrite Hcount.
  unfold run, apply_textures_to_all_materials. rewrite apply_objects_total.
  cbn [scene total_count length texture_paths]. unfold paths. simpl.
  rewrite !Hall by (simpl; auto). done.
Qed.

(** * Where the new nodes are placed *)

Lemma ensure_texture_node_fresh_location t tex_key :
  exists node,
    ensure_texture_node t tex_key None
    = (mkTree (nodes t ++ [node]) (links t), length (nodes t))
    /\ node_type node = "TEX_IMAGE"
    /\ node_location node = (-400, 0 - Z.of_nat (S (length (nodes t))) * 50)%Z.
Proof.
  eexists. unfold ensure_texture_node. rewrite !alter_snoc.
  split; [reflexivity|]. split; [done|]. simpl.
  rewrite length_app. simpl. do 3 f_equal. lia.
Qed.

Lemma tree_extends_refl t : tree_extends t t.
Proof.
  split; [apply tree_grows_refl|]. intros i n Hle Hn.
  apply lookup_lt_Some in Hn. lia.
Qed.

Lemma tree_extends_trans t1 t2 t3 :
  tree_extends t1 t2 -> tree_extends t2 t3 -> tree_extends t1 t3.
Proof.
  intros [Hg12 Hl12] [Hg23 Hl23]. split; [by eapply tree_grows_trans|].
  intros i n3 Hle Hn3 Hty.
  destruct (nodes t2 !! i) as [n2|] eqn:Hn2.
  - destruct (Hg23 i n2 Hn2) as (n3' & Hn3' & Hty3 & _ & _ & Hloc3).
    rewrite Hn3 in Hn3'. injection Hn3' as <-.
    rewrite Hloc3. apply Hl12; [done..|]. by rewrite <- Hty3.
  - apply Hl23; [|done..]. by apply lookup_ge_None.
Qed.

(** Appending to a tree, at its end, texture nodes placed by line 120 and
    nodes of other types. *)
Lemma tree_extends_app t t' extra :
  nodes t' = nodes t ++ extra ->
  (forall k n, extra !! k = Some n -> node_type n = "TEX_IMAGE" ->
               node_location n
               = (-400, 0 - Z.of_nat (S (length (nodes t) + k)) * 50)%Z) ->
  tree_extends t t'.
Proof.
  intros Heq Hextra. split; [by eapply tree_grows_app|].
  intros i n Hle Hn Hty. rewrite Heq, lookup_app_r in Hn by done.
  rewrite (Hextra _ _ Hn Hty). do 4 f_equal. lia.
Qed.

Lemma tree_extends_set_image t t' img tex :
  nodes t' = alter (set_image img) tex (nodes t) -> tree_extends t t'.
Proof.
  intros Heq. split; [by eapply tree_grows_set_image|].
  intros i n Hle Hn. apply lookup_lt_Some in Hn.
  rewrite Heq, length_alter in Hn. lia.
Qed.

Lemma ensure_texture_node_extends t tex_key found :
  tree_extends t (ensure_texture_node t tex_key found).1.
Proof.
  destruct found as [i|]; [apply tree_extends_refl|].
  destruct (ensure_texture_node_fresh_location t tex_key)
    as (node & -> & Hty & Hloc).
  apply (tree_extends_app _ _ [node]); [done|].
  intros [|k] n Hk _; [|done]. injection Hk as <-.
  rewrite Hloc. do 4 f_equal. lia.
Qed.

Lemma connect_extends t tex_key p tex target :
  tree_extends t (connect t tex_key p tex target).
Proof.
  destruct (String.eqb tex_key "normal") eqn:Hkey.
  - apply String.eqb_eq in Hkey as ->.
    destruct (connect_normal t p tex target)
      as (nm & dec & extra & -> & _ & _ & Hall).
    apply (tree_extends_app _ _ extra); [done|].
    intros k n Hk Hty. rewrite Forall_forall in Hall.
    destruct (Hall n) as [_ Hn]; [apply list_elem_of_lookup; eauto|].
    congruence.
  - rewrite connect_direct by done.
    apply (tree_extends_app _ _ []); [by rewrite app_nil_r|done].
Qed.

Section Layout.

Variable path_exists : string -> bool.
Variable load_raises : string -> bool.

Local Abbreviation bind := (replace_texture_in_nodes path_exists load_raises).

Lemma material_extends_refl d j : material_extends d d j.
Proof. intros mat Hj. exists mat. split; [done|apply tree_extends_refl]. Qed.

Lemma material_extends_trans d1 d2 d3 j :
  material_extends d1 d2 j -> material_extends d2 d3 j ->
  material_extends d1 d3 j.
Proof.
  intros H12 H23 mat Hj.
  destruct (H12 mat Hj) as (mat2 & Hj2 & He2).
  destruct (H23 mat2 Hj2) as (mat3 & Hj3 & He3).
  exists mat3. split; [done|]. by eapply tree_extends_trans.
Qed.

Lemma bind_material_extends d m tex_key path j :
  material_extends d (bind d m tex_key path).2 j.
Proof.
  destruct (decide (j = m)) as [->|Hne].
  2:{ intros mat Hj. exists mat.
      rewrite bind_materials_other by done. split; [done|apply tree_extends_refl]. }
  intros mat Hm. unfold replace_texture_in_nodes. rewrite Hm.
  assert (Hsame : exists mat',
             materials d !! m = Some mat'
             /\ tree_extends (node_tree mat) (node_tree mat'))
    by (exists mat; split; [done|apply tree_extends_refl]).
  assert (Hlt : m < length (materials d)) by by eapply lookup_lt_Some.
  destruct (negb (use_nodes mat)); [done|].
  destruct (find_principled _) as [[p principled]|]; [|done].
  destruct (resolve_input tex_key principled) as [target|]; [|done].
  pose proof (ensure_texture_node_extends (node_tree mat) tex_key
                (find_connected_texture (node_tree mat) p principled target))
    as He1.
  destruct (ensure_texture_node _ _ _) as [t1 tex]. simpl in He1.
  destruct (has_input target principled).
  - pose proof (connect_extends t1 tex_key p tex target) as He2.
    destruct (assign_image_material path_exists load_raises d m mat
                (connect t1 tex_key p tex target) tex tex_key path)
      as (t' & -> & _ & Hn).
    exists (set_tree t' mat). rewrite list_lookup_insert_eq by done.
    split; [done|]. cbn [node_tree set_tree].
    eapply tree_extends_trans; [exact He1|].
    eapply tree_extends_trans; [exact He2|].
    destruct Hn as [Hn|[i Hn]].
    + apply (tree_extends_app _ _ []); [by rewrite app_nil_r|done].
    + by eapply tree_extends_set_image.
  - exists (set_tree t1 mat). simpl. by rewrite list_lookup_insert_eq.
Qed.

Lemma enable_nodes_material_extends d m j :
  material_extends d (enable_nodes d m) j.
Proof.
  intros mat Hj. simpl. destruct (decide (m = j)) as [->|Hne].
  - exists (set_use_nodes true mat). rewrite list_lookup_alter_eq, Hj.
    split; [done|apply tree_extends_refl].
  - exists mat. rewrite list_lookup_alter_ne by done.
    split; [done|apply tree_extends_refl].
Qed.

Lemma apply_roles_material_extends items m s j :
  material_extends (scene s)
    (scene (apply_roles path_exists load_raises items m s)) j.
Proof.
  revert s. induction items as [|[tex_key tex_path] items IH]; intros s;
    [apply material_extends_refl|].
  cbn [apply_roles].
  pose proof (bind_material_extends (scene s) m tex_key tex_path j) as Hb.
  destruct (bind (scene s) m tex_key tex_path) as [result d'].
  eapply material_extends_trans; [exact Hb|].
  exact (IH (mkTally d' _ _)).
Qed.

Lemma apply_slots_material_extends items slots s j :
  material_extends (scene s)
    (scene (apply_slots path_exists load_raises items slots s)) j.
Proof.
  revert s. induction slots as [|[m|] slots IH]; intros s;
    [apply material_extends_refl| |exact (IH _)].
  cbn [apply_slots].
  eapply material_extends_trans; [|exact (IH _)].
  eapply material_extends_trans; [apply (enable_nodes_material_extends (scene s) m)|].
  apply (apply_roles_material_extends items m
           (mkTally (enable_nodes (scene s) m) (success_count s) (total_count s))).
Qed.

Lemma apply_objects_material_extends items names s j :
  material_extends (scene s)
    (scene (apply_objects path_exists load_raises items names s)) j.
Proof.
  revert s. induction names as [|name names IH]; intros s;
    [apply material_extends_refl|].
  cbn [apply_objects].
  destruct (objects_get (scene s) name) as [obj|]; [|exact (IH _)].
  destruct (String.eqb (obj_type obj) "MESH"); [|exact (IH _)].
  eapply material_extends_trans; [apply apply_slots_material_extends|exact (IH _)].
Qed.

End Layout.

(** X16: the texture nodes a run creates never sit on top of each other.
    In every material, a texture node at a position past the nodes the
    material started with is placed at x = -400 and y = -50 times its
    1-based position in the node list, so two such nodes are at different
    places. *)
Theorem walk_sampler_layout :
  forall path_exists load_raises items d j mat,
    materials d !! j = Some mat ->
    exists mat',
      materials
        (scene (apply_textures_to_all_materials path_exists load_raises items d))
        !! j = Some mat'
      /\ sampler_layout (length (nodes (node_tree mat))) (node_tree mat')
      /\ forall i1 i2 n1 n2,
           length (nodes (node_tree mat)) <= i1 ->
           length (nodes (node_tree mat)) <= i2 ->
           nodes (node_tree mat') !! i1 = Some n1 ->
           nodes (node_tree mat') !! i2 = Some n2 ->
           node_type n1 = "TEX_IMAGE" ->
           node_type n2 = "TEX_IMAGE" ->
           i1 <> i2 ->
           node_location n1 <> node_location n2.
Proof.
  intros pe lr items d j mat Hj. unfold apply_textures_to_all_materials.
  destruct (apply_objects_material_extends pe lr items curtain_objects
              (mkTally d 0 0) j mat Hj) as (mat' & Hj' & _ & Hlayout).
  exists mat'. split; [done|]. split; [done|].
  intros i1 i2 n1 n2 H1 H2 Hn1 Hn2 Hty1 Hty2 Hne.
  rewrite (Hlayout i1 n1), (Hlayout i2 n2) by done.
  intros [= Heq]. lia.
Qed.

(** * Worked instances, continued *)

Lemma parse_args_render_cmd_witness :
  parse_args decimal_int default_cmd
  = Parsed (mkArgs "/tmp/t/input_diffuse.png" "/tmp/t/input_normal.png"
              "/tmp/t/input_roughness.png" "/tmp/t/input_specular.png"
              "/nodes/render_output_1.png" true 128 true true).
Proof.
  apply (parse_args_render_cmd decimal_int decimal_str); [done..|].
  vm_compute. reflexivity.
Defined.

Example parse_args_flags :
  parse_args decimal_int
    ["blender"; "--"; "d"; "n"; "r"; "s"; "o"; "TRUE"; "64"; "yes"; "1"]
  = Parsed (mkArgs "d" "n" "r" "s" "o" true 64 false false)
  /\ parse_args decimal_int ["blender"; "--"; "d"; "n"; "r"; "s"; "o"; "true"]
     = UsageExit
  /\ parse_args decimal_int
       ["blender"; "--"; "d"; "n"; "r"; "s"; "o"; "true"; "many"; "true"; "true"]
     = BadSamples
  /\ parse_args decimal_int ["blender"; "-b"; "scene.blend"] = NoSeparator.
Proof. vm_compute. done. Qed.

Lemma parse_args_ignores_trailing_witness :
  parse_args decimal_int
    (["blender"; "-b"] ++ "--" ::
     ["d"; "n"; "r"; "s"; "o"; "true"; "64"; "true"; "false"] ++ ["--"; "extra"])
  = parse_args decimal_int
      (["blender"; "-b"] ++ "--" ::
       ["d"; "n"; "r"; "s"; "o"; "true"; "64"; "true"; "false"]).
Proof.
  apply parse_args_ignores_trailing.
  - rewrite !not_elem_of_cons. repeat split; try done. apply not_elem_of_nil.
  - simpl. lia.
Defined.

(** The floor's material is in no target slot. *)
Lemma walk_leaves_other_materials_witness :
  materials
    (scene (apply_textures_to_all_materials all_files loads_fine
              (texture_paths "diffuse.png" "normal.png" "roughness.png"
                 "specular.png") scene_with_floor)) !! 1
  = materials scene_with_floor !! 1.
Proof.
  apply walk_leaves_other_materials.
  change (target_materials scene_with_floor) with [0].
  rewrite !not_elem_of_cons. split; [done|apply not_elem_of_nil].
Defined.

Example unknown_role_is_ignored :
  replace_texture_in_nodes all_files loads_fine curtain_scene 0
    "emission" "emission.png" = (RetNone, curtain_scene).
Proof. vm_compute. reflexivity. Qed.

Example unresolved_role_counts_as_failure :
  let d := mkData [mkObject "cur_1" "MESH" [Some 0]]
             [mkMaterial "Old" true
                (mkTree [mkNode "BSDF_PRINCIPLED" "Principled BSDF"
                           ["Base Color"; "Roughness"] (0, 0)%Z None] [])] [] in
  let run :=
    apply_textures_to_all_materials all_files loads_fine
      (texture_paths "diffuse.png" "normal.png" "roughness.png" "specular.png")
      d in
  (success_count run, total_count run) = (2, 4)
  /\ validate (success_count run) (total_count run) = PartlyApplied.
Proof. vm_compute. done. Qed.

(** The diffuse role bound on the noisy material: "Base Color" is fed by
    the new texture node and the link into "Roughness" stays.  The normal
    role bound on it: the decoder node stands between the texture node and
    "Normal", and the two links from the noise node stay. *)
Lemma bind_keeps_other_links_witness :
  (exists mat' tex,
     materials (replace_texture_in_nodes all_files loads_fine noisy_scene 0
                  "diffuse" "diffuse.png").2 !! 0 = Some mat'
     /\ node_has_type (nodes (node_tree mat')) "TEX_IMAGE" tex = true
     /\ socket_links (node_tree mat') 0 "Base Color"
        = [mkLink tex "Color" 0 "Base Color"]
     /\ forall n sock,
          ~ (n = 0 /\ sock = "Base Color") ->
          socket_links (node_tree mat') n sock
          = socket_links (node_tree noisy_material) n sock)
  /\ (exists mat' tex,
        materials (replace_texture_in_nodes all_files loads_fine noisy_scene 0
                     "normal" "normal.png").2 !! 0 = Some mat'
        /\ node_has_type (nodes (node_tree mat')) "TEX_IMAGE" tex = true
        /\ exists nm,
             node_has_type (nodes (node_tree mat')) "NORMAL_MAP" nm = true
             /\ socket_links (node_tree mat') 0 "Normal"
                = [mkLink nm "Normal" 0 "Normal"]
             /\ socket_links (node_tree mat') nm "Color"
                = [mkLink tex "Color" nm "Color"]
             /\ forall n sock,
                  ~ (n = 0 /\ sock = "Normal") ->
                  ~ (n = nm /\ sock = "Color") ->
                  socket_links (node_tree mat') n sock
                  = socket_links (node_tree noisy_material) n sock).
Proof.
  split.
  - exact (bind_keeps_other_links all_files loads_fine noisy_scene 0
             noisy_material 0 principled_v4 "diffuse" "Base Color"
             "diffuse.png" eq_refl eq_refl eq_refl eq_refl).
  - exact (bind_keeps_other_links all_files loads_fine noisy_scene 0
             noisy_material 0 principled_v4 "normal" "Normal"
             "normal.png" eq_refl eq_refl eq_refl eq_refl).
Defined.

Example noisy_material_normal_rewired :
  let mat' := default noisy_material
                (materials (replace_texture_in_nodes all_files loads_fine
                              noisy_scene 0 "normal" "normal.png").2 !! 0) in
  node_type <$> nodes (node_tree mat')
  = ["BSDF_PRINCIPLED"; "TEX_NOISE"; "TEX_IMAGE"; "NORMAL_MAP"]
  /\ links (node_tree mat')
     = [ mkLink 1 "Fac" 0 "Roughness"; mkLink 1 "Color" 0 "Base Color";
         mkLink 2 "Color" 3 "Color"; mkLink 3 "Normal" 0 "Normal" ].
Proof. vm_compute. done. Qed.

Example noisy_material_rewired :
  links (node_tree (default noisy_material
           (materials (replace_texture_in_nodes all_files loads_fine noisy_scene 0
                         "diffuse" "diffuse.png").2 !! 0)))
  = [mkLink 1 "Fac" 0 "Roughness"; mkLink 2 "Color" 0 "Base Color"].
Proof. vm_compute. reflexivity. Qed.

Lemma normal_rebind_reuses_decoder_witness :
  let d1 := (replace_texture_in_nodes all_files loads_fine curtain_scene 0
               "normal" "normal.png").2 in
  let d2 := (replace_texture_in_nodes all_files loads_fine d1 0
               "normal" "normal.png").2 in
  exists mat1 mat2 nm,
    materials d1 !! 0 = Some mat1
    /\ materials d2 !! 0 = Some mat2
    /\ 1 <= length (decoder_nodes (node_tree mat1))
    /\ length (decoder_nodes (node_tree mat2))
       = length (decoder_nodes (node_tree mat1))
    /\ node_has_type (nodes (node_tree mat2)) "NORMAL_MAP" nm = true
    /\ socket_links (node_tree mat1) 0 "Normal" = [mkLink nm "Normal" 0 "Normal"]
    /\ socket_links (node_tree mat2) 0 "Normal" = [mkLink nm "Normal" 0 "Normal"].
Proof.
  exact (normal_rebind_reuses_decoder all_files loads_fine curtain_scene 0
           curtain_material 0 principled_v4 "normal.png"
           eq_refl eq_refl eq_refl eq_refl).
Defined.

(** One file bound to the diffuse role and then to the roughness role. *)
Lemma later_role_tag_wins_witness :
  exists d1 d2,
    replace_texture_in_nodes all_files loads_fine curtain_scene 0
      "diffuse" "shared.png" = (RetTrue, d1)
    /\ replace_texture_in_nodes all_files loads_fine d1 0
         "roughness" "shared.png" = (RetTrue, d2)
    /\ exists i img1 img2,
         find_image (images d1) "shared.png" = Some (i, img1)
         /\ colorspace img1 = colorspace_for "diffuse"
         /\ find_image (images d2) "shared.png" = Some (i, img2)
         /\ colorspace img2 = colorspace_for "roughness"
         /\ length (images d2) = length (images d1)
         /\ (exists mat tex node,
               materials d2 !! 0 = Some mat
               /\ nodes (node_tree mat) !! tex = Some node
               /\ node_image node = Some i)
         /\ ("diffuse" = "diffuse" -> "roughness" <> "diffuse" ->
             colorspace img1 = "sRGB" /\ colorspace img2 = "Non-Color").
Proof.
  eexists _, _. split; [vm_compute; reflexivity|].
  split; [vm_compute; reflexivity|].
  apply (later_role_tag_wins all_files loads_fine curtain_scene 0 "diffuse"
           0 "roughness" "shared.png"); vm_compute; reflexivity.
Defined.

Example shared_file_ends_non_color :
  let d1 := (replace_texture_in_nodes all_files loads_fine curtain_scene 0
               "diffuse" "shared.png").2 in
  let d2 := (replace_texture_in_nodes all_files loads_fine d1 0
               "roughness" "shared.png").2 in
  images d1 = [mkImage "shared.png" "sRGB"]
  /\ images d2 = [mkImage "shared.png" "Non-Color"].
Proof. vm_compute. done. Qed.

Lemma curtain_scene_targets_ready :
  forall j, j ∈ target_materials curtain_scene -> shader_ready curtain_scene j.
Proof.
  intros j Hj. assert (j = 0) as ->; [|exact curtain_scene_ready].
  apply elem_of_cons in Hj as [->|Hj]; [done|].
  apply elem_of_cons in Hj as [->|Hj]; [done|]. by apply elem_of_nil in Hj.
Defined.

(** Two slots, three of the four files: six successes. *)
Lemma walk_success_count_witness :
  success_count
    (apply_textures_to_all_materials normal_map_missing loads_fine
       (texture_paths "diffuse.png" "normal.png" "roughness.png" "specular.png")
       curtain_scene)
  = 2 * 3.
Proof.
  exact (proj1 (walk_success_count normal_map_missing loads_fine
                  "diffuse.png" "normal.png" "roughness.png" "specular.png"
                  curtain_scene curtain_scene_targets_ready
                  (fun path _ _ => eq_refl))).
Defined.

Example script_without_camera :
  let w := mkSession sparse_scene fresh_prefs None
             (mkSettings "BLENDER_EEVEE" 64 16 false (QArith_base.Qmake 1 10)
                "EXPERIMENTAL" false false false false "" "JPEG" "RGBA") in
  let out := run_script all_files loads_fine no_opencl cuda_card decimal_int
               (fun _ => false) default_cmd w in
  out.1 = Uncaught "Exception"
  /\ device_state out.2 = fresh_prefs
  /\ settings out.2 = settings w
  /\ images (data out.2)
     = [mkImage "/tmp/t/input_diffuse.png" "sRGB";
        mkImage "/tmp/t/input_normal.png" "Non-Color";
        mkImage "/tmp/t/input_roughness.png" "Non-Color";
        mkImage "/tmp/t/input_specular.png" "Non-Color"].
Proof. vm_compute. done. Qed.

Example script_with_camera :
  let w := mkSession curtain_scene fresh_prefs None
             (mkSettings "BLENDER_EEVEE" 64 16 false (QArith_base.Qmake 1 10)
                "EXPERIMENTAL" false false false false "" "JPEG" "RGBA") in
  let out := run_script normal_map_missing loads_fine no_opencl cuda_card
               decimal_int (fun _ => false) default_cmd w in
  out.1 = Finished
  /\ scene_camera out.2 = Some 2
  /\ device_state out.2
     = mkRender "CUDA" [mkDevice "Ryzen" "CPU" false; mkDevice "RTX" "CUDA" true]
         "GPU" "OPENIMAGEDENOISE"
  /\ settings out.2
     = mkSettings "CYCLES" 128 32 true (QArith_base.Qmake 1 100) "SUPPORTED"
         true true true true "/nodes/render_output_1.png" "PNG" "RGB".
Proof. vm_compute. done. Qed.

(** A sample count that does not fit a C [int]: the script stops on the
    first settings line, after the camera, the engine and the device. *)
Example script_samples_overflow :
  let w := mkSession curtain_scene fresh_prefs None eevee_settings in
  let out := run_script normal_map_missing loads_fine no_opencl cuda_card
               decimal_int (fun _ => false) overflow_cmd w in
  out.1 = Uncaught "ValueError"
  /\ scene_camera out.2 = Some 2
  /\ device_state out.2
     = mkRender "CUDA" [mkDevice "Ryzen" "CPU" false; mkDevice "RTX" "CUDA" true]
         "GPU" "OPENIMAGEDENOISE"
  /\ settings out.2 = set_engine "CYCLES" eevee_settings.
Proof. vm_compute. done. Qed.

(** Sample counts outside the range of the property are stored clamped. *)
Example apply_settings_clamps :
  let with_samples (n : Z) :=
    mkArgs "d.png" "n.png" "r.png" "s.png" "out.png" true n true true in
  let stored (n : Z) :=
    match apply_settings (with_samples n) eevee_settings with
    | Stored s => Some (cycles_samples s, preview_samples s)
    | RaisedValueError _ => None
    end in
  stored 0%Z = Some (1, 32)%Z
  /\ stored (-8)%Z = Some (1, 32)%Z
  /\ stored 128%Z = Some (128, 32)%Z
  /\ stored 4096%Z = Some (4096, 1024)%Z
  /\ stored 100000000%Z = Some (16777216, 16777216)%Z
  /\ stored 2147483647%Z = Some (16777216, 16777216)%Z
  /\ stored 2147483648%Z = None
  /\ stored (-2147483649)%Z = None.
Proof. vm_compute. done. Qed.

Lemma walk_sampler_layout_witness :
  exists mat',
    materials
      (scene (apply_textures_to_all_materials all_files loads_fine
                (texture_paths "diffuse.png" "normal.png" "roughness.png"
                   "specular.png") curtain_scene)) !! 0 = Some mat'
    /\ sampler_layout 1 (node_tree mat')
    /\ forall i1 i2 n1 n2,
         1 <= i1 -> 1 <= i2 ->
         nodes (node_tree mat') !! i1 = Some n1 ->
         nodes (node_tree mat') !! i2 = Some n2 ->
         node_type n1 = "TEX_IMAGE" ->
         node_type n2 = "TEX_IMAGE" ->
         i1 <> i2 ->
         node_location n1 <> node_location n2.
Proof.
  exact (walk_sampler_layout all_files loads_fine
           (texture_paths "diffuse.png" "normal.png" "roughness.png"
              "specular.png") curtain_scene 0 curtain_material eq_refl).
Defined.

Example curtain_walk_locations :
  let run :=
    apply_textures_to_all_materials all_files loads_fine
      (texture_paths "diffuse.png" "normal.png" "roughness.png" "specular.png")
      curtain_scene in
  node_location
    <$> nodes (node_tree (default curtain_material (materials (scene run) !! 0)))
  = [(0, 0); (-400, -100); (-400, -150); (-200, -150);
     (-400, -250); (-400, -300); (-400, -350)]%Z.
Proof. vm_compute. reflexivity. Qed.
